(** * How Much Is Enough? -- wizard navigation and dynamic form logic

    A shallow embedding of [static/app.js] and the properties of its
    step controller, section toggles, child-form renderer and currency
    formatter.

    Conventions of the embedding.

    - A JavaScript string is a sequence of code units; the model uses
      [string], whose characters are the code units below 256.  The
      one character above that in a result of the script, the infinity
      sign that [toLocaleString] prints, is held as the bytes of its
      UTF-8 encoding, none of which is a digit, a comma or white
      space.
    - A JavaScript number is a double.  The numbers of this script are
      integers or infinite: the model holds a finite one as the
      integer it is, in [Z], and [parseInt] rounds the integer of the
      digits to the nearest double, or to an infinity.  Step indices
      and loop counters stay below [2^53], where the arithmetic of
      doubles is that of [Z].  Up to [MAX_SAFE_INTEGER] a parsed
      number is the integer of its digits, and the statements that
      need this say so in a hypothesis.
    - The page markup is not part of the script.  The page is a
      parameter of the model, taken to honour the structure the script
      relies on: the elements the script dereferences without a test
      exist (the three buttons, the count selector, the container and
      the grandchildren section); step panels, progress indicators and
      connector lines are distinct elements; the location names are
      plain text, so that the markup generated for a child is the one
      written in [childFormHTML].  What a statement needs of the page
      beyond this is a hypothesis of the statement ([steps_tagged],
      [static_ids_clear]).
    - A statement of the script is a function from the state to a
      completion and a state; the only exception the model can raise is
      the [TypeError] of [showStep] on a missing panel. *)

From Stdlib Require Import ZArith Lia Ascii String.
From stdpp Require Import base numbers list strings pretty.

Local Open Scope Z_scope.

(** ** JavaScript primitives used by the script *)

Module JS.

(** The values [parseInt] can return: [NaN], a finite number, which
    is an integer here, or an infinity. *)
Inductive Number :=
| NaN
| Num (z : Z)
| Infinity (negative : bool).

Definition MAX_SAFE_INTEGER : Z := 2 ^ 53 - 1.

Definition isNaN (x : Number) : bool :=
  match x with NaN => true | _ => false end.

(** [x > 0] and [i < x]: every comparison with [NaN] is false. *)
Definition gt0 (x : Number) : bool :=
  match x with
  | NaN => false
  | Num z => 0 <? z
  | Infinity negative => negb negative
  end.

Definition is_digit (c : ascii) : bool :=
  match c with
  | "0" | "1" | "2" | "3" | "4" | "5" | "6" | "7" | "8" | "9" => true
  | _ => false
  end%char.

(** White space and line terminators below code unit 256: TAB, LF,
    VT, FF, CR, SP and NBSP. *)
Definition is_space (c : ascii) : bool :=
  let n := nat_of_ascii c in
  ((9 <=? n) && (n <=? 13) || (n =? 32) || (n =? 160))%nat.

Definition digit_value (c : ascii) : Z := Z.of_nat (nat_of_ascii c) - 48.

(** [s.replace(/re/g, '')] for a regular expression that matches one
    character of a class: the characters of the class are dropped. *)
Fixpoint remove_all (cls : ascii -> bool) (s : string) : string :=
  match s with
  | EmptyString => EmptyString
  | String c r => if cls c then remove_all cls r else String c (remove_all cls r)
  end.

(** [/[^0-9]/] and [/,/]. *)
Definition non_digit (c : ascii) : bool := negb (is_digit c).
Definition comma (c : ascii) : bool := if decide (c = ","%char) then true else false.

Fixpoint trim_start (s : string) : string :=
  match s with
  | String c r => if is_space c then trim_start r else s
  | EmptyString => EmptyString
  end.

(** The longest prefix of decimal digits. *)
Fixpoint leading_digits (s : string) : string :=
  match s with
  | String c r => if is_digit c then String c (leading_digits r) else EmptyString
  | EmptyString => EmptyString
  end.

(** The integer a digit string denotes, most significant digit first. *)
Fixpoint digits_value (acc : Z) (s : string) : Z :=
  match s with
  | String c r => digits_value (10 * acc + digit_value c) r
  | EmptyString => acc
  end.

(** The double nearest to the integer [z >= 0], ties going to the even
    significand.  An integer below [2^53] is a double.  From there on
    the doubles around [z] are [ulp] apart, [ulp] being the power of
    two that leaves [z] a significand of 53 bits. *)
Definition nearest_double (z : Z) : Z :=
  let e := Z.log2 z - 52 in
  if e <=? 0 then z
  else
    let ulp := 2 ^ e in
    let q := z / ulp in
    let r := z mod ulp in
    let up := (ulp <? 2 * r) || ((ulp =? 2 * r) && Z.odd q) in
    (if up then q + 1 else q) * ulp.

(** The Number value of a mathematical integer: the nearest double,
    and an infinity when that is beyond the largest double. *)
Definition of_integer (z : Z) : Number :=
  let a := nearest_double (Z.abs z) in
  if 2 ^ 1024 <=? a then Infinity (z <? 0) else Num (Z.sgn z * a).

(** [parseInt(s, 10)]: skip leading white space, read an optional
    sign, then the longest prefix of digits; no digit gives [NaN], and
    the integer the digits denote is returned as a Number.  (Engines
    round from all the digits; ECMA-262 lets them read the digits after
    the twentieth as zeros.) *)
Definition parseInt (s : string) : Number :=
  let s1 := trim_start s in
  let '(sign, s2) :=
    match s1 with
    | String "-"%char r => (-1, r)
    | String "+"%char r => (1, r)
    | _ => (1, s1)
    end in
  match leading_digits s2 with
  | EmptyString => NaN
  | ds => of_integer (sign * digits_value 0 ds)
  end.

(** [String(n)] and template interpolation of an integer. *)
Definition toString (z : Z) : string := pretty z.

(** en-US grouping: a comma after every digit that is followed by a
    positive multiple of three digits. *)
Fixpoint group3 (s : string) : string :=
  match s with
  | EmptyString => EmptyString
  | String c r =>
      String c (if ((0 <? String.length r) && (String.length r mod 3 =? 0))%nat
                then String ","%char (group3 r) else group3 r)
  end.

(** The digits a formatter prints for a double are the fewest
    significant digits that read back as that double, followed by
    zeros.  [shortest_from k z lo2 hi2 closed] looks for a multiple of
    [10^k], then of [10^(k-1)], ..., among the numbers that round to
    [z]: those between [lo2 / 2] and [hi2 / 2], the bounds included
    when [closed].  Of two multiples it takes the one nearer to [z],
    and the one with the even last digit when they are as near. *)
Fixpoint shortest_from (k : nat) (z lo2 hi2 : Z) (closed : bool) : Z :=
  let p := 10 ^ Z.of_nat k in
  let down := z / p * p in
  let up := down + p in
  let inside c :=
    if closed then (lo2 <=? 2 * c) && (2 * c <=? hi2)
    else (lo2 <? 2 * c) && (2 * c <? hi2) in
  let found :=
    match inside down, inside up with
    | true, true =>
        Some (if z - down <? up - z then down
              else if up - z <? z - down then up
              else if Z.even (down / p) then down else up)
    | true, false => Some down
    | false, true => Some up
    | false, false => None
    end in
  match found, k with
  | Some c, _ => c
  | None, S k' => shortest_from k' z lo2 hi2 closed
  | None, O => z
  end.

(** The integer whose decimal text is printed for the integral double
    [z >= 0]: [z] itself below [2^53].  From there on the numbers that
    round to [z] reach half way to the next double on either side,
    the bounds included when the significand of [z] is even; below a
    power of two the doubles are half as far apart. *)
Definition shortest (z : Z) : Z :=
  let e := Z.log2 z - 52 in
  if e <=? 0 then z
  else
    let ulp := 2 ^ e in
    let q := z / ulp in
    let lo2 := 2 * z - (if q =? 2 ^ 52 then ulp / 2 else ulp) in
    let hi2 := 2 * z + ulp in
    shortest_from (Z.to_nat (Z.log2 z)) z lo2 hi2 (Z.even q).

(** The infinity sign, U+221E, in the bytes of its UTF-8 encoding. *)
Definition infinity_sign : string := "∞".

(** [x.toLocaleString('en-US')] on the integral doubles, the
    infinities and [NaN]. *)
Definition toLocaleString (x : Number) : string :=
  match x with
  | NaN => "NaN"
  | Num z =>
      if z <? 0 then "-" +:+ group3 (toString (shortest (- z)))
      else group3 (toString (shortest z))
  | Infinity negative => if negative then "-" +:+ infinity_sign else infinity_sign
  end.

End JS.

(** ** Currency formatting *)

Definition formatCurrency (val : string) : string :=
  let num := JS.parseInt (JS.remove_all JS.non_digit val) in
  if JS.isNaN num then "" else JS.toLocaleString num.

(** ** The page

    A class list is the token list of an element's [class] attribute. *)

Abbreviation ClassList := (list string).

Module classList.
Definition contains (c : string) (l : ClassList) : bool := bool_decide (c ∈ l).
Definition add (c : string) (l : ClassList) : ClassList :=
  if contains c l then l else l ++ [c].
Definition remove (c : string) (l : ClassList) : ClassList :=
  filter (fun x => x <> c) l.
Definition toggle (c : string) (force : bool) (l : ClassList) : ClassList :=
  if force then add c l else remove c l.
End classList.

(** A step panel: an element of class [step-content] with its
    [data-step] attribute. *)
Record Panel := mkPanel {
  panel_classList : ClassList;
  data_step : option string;
}.

Definition panel_update (f : ClassList -> ClassList) (p : Panel) : Panel :=
  {| panel_classList := f (panel_classList p); data_step := data_step p |}.

(** References to the elements that are looked up by id.  A static
    element is named by its position among the static elements; a
    generated one by the generation of the container content it belongs
    to, its block and its position in the block.  Setting [innerHTML]
    starts a new generation: a reference into an older one names a
    detached element, which no longer shows in the document. *)
Inductive Ref :=
| Static (k : nat)
| Child (gen b k : nat).

(** The three closures the script registers as listeners. *)
Inductive Listener :=
| toggle_visible (cb section : Ref)
    (* () => section.classList.toggle('visible', cb.checked) *)
| format_on_blur (input : Ref)
    (* () => input.value = formatCurrency(input.value) *)
| strip_on_focus (input : Ref).
    (* () => input.value = input.value.replace(/,/g, '') *)

Record Element := mkElement {
  tagName : string;
  el_id : option string;
  el_name : option string;
  el_classList : ClassList;
  el_attributes : list (string * string);
  el_value : string;
  el_checked : bool;
  el_options : list (string * string);
  el_listeners : list (string * Listener);
}.

Definition set_el_classList (v : ClassList) (e : Element) : Element :=
  {| tagName := tagName e; el_id := el_id e; el_name := el_name e;
     el_classList := v; el_attributes := el_attributes e; el_value :=
     el_value e; el_checked := el_checked e; el_options := el_options e;
     el_listeners := el_listeners e |}.
Definition set_el_value (v : string) (e : Element) : Element :=
  {| tagName := tagName e; el_id := el_id e; el_name := el_name e;
     el_classList := el_classList e; el_attributes := el_attributes e;
     el_value := v; el_checked := el_checked e; el_options := el_options e;
     el_listeners := el_listeners e |}.
Definition set_el_checked (v : bool) (e : Element) : Element :=
  {| tagName := tagName e; el_id := el_id e; el_name := el_name e;
     el_classList := el_classList e; el_attributes := el_attributes e;
     el_value := el_value e; el_checked := v; el_options := el_options e;
     el_listeners := el_listeners e |}.
Definition set_el_listeners (v : list (string * Listener)) (e : Element) : Element :=
  {| tagName := tagName e; el_id := el_id e; el_name := el_name e;
     el_classList := el_classList e; el_attributes := el_attributes e;
     el_value := el_value e; el_checked := el_checked e; el_options :=
     el_options e; el_listeners := v |}.

(** A top-level node of the container together with its descendants, in
    document order. *)
Abbreviation Block := (list Element).

(** The elements of the step controller, with the script's
    [currentStep]. *)
Record Wizard := mkWizard {
  steps : list Panel;                  (* querySelectorAll('.step-content') *)
  progressSteps : list ClassList;      (* querySelectorAll('.progress-step') *)
  progressLines : list ClassList;      (* querySelectorAll('.progress-line') *)
  prevBtn_visibility : string;         (* prevBtn.style.visibility *)
  nextBtn_display : string;            (* nextBtn.style.display *)
  calcBtn_display : string;            (* calcBtn.style.display *)
  currentStep : Z;
}.

(** The form elements: the list of locations the page provides, the
    count selector, the grandchildren section, the other static
    elements the script looks up (by id or by the class
    [input-currency]), and the content of [#children-container].
    [container_at] static elements precede the container's content in
    document order, the others follow it. *)
Record Forms := mkForms {
  ALL_LOCATIONS : list string;
  numChildrenSelect_value : string;
  grandchildrenSection_display : string;
  static : list Element;
  container_at : nat;
  generation : nat;
  children : list Block;
}.

Definition set_steps (v : list Panel) (w : Wizard) : Wizard :=
  {| steps := v; progressSteps := progressSteps w; progressLines :=
     progressLines w; prevBtn_visibility := prevBtn_visibility w;
     nextBtn_display := nextBtn_display w; calcBtn_display :=
     calcBtn_display w; currentStep := currentStep w |}.
Definition set_progressSteps (v : list ClassList) (w : Wizard) : Wizard :=
  {| steps := steps w; progressSteps := v; progressLines := progressLines w;
     prevBtn_visibility := prevBtn_visibility w; nextBtn_display :=
     nextBtn_display w; calcBtn_display := calcBtn_display w; currentStep :=
     currentStep w |}.
Definition set_progressLines (v : list ClassList) (w : Wizard) : Wizard :=
  {| steps := steps w; progressSteps := progressSteps w; progressLines := v;
     prevBtn_visibility := prevBtn_visibility w; nextBtn_display :=
     nextBtn_display w; calcBtn_display := calcBtn_display w; currentStep :=
     currentStep w |}.
Definition set_prevBtn_visibility (v : string) (w : Wizard) : Wizard :=
  {| steps := steps w; progressSteps := progressSteps w; progressLines :=
     progressLines w; prevBtn_visibility := v; nextBtn_display :=
     nextBtn_display w; calcBtn_display := calcBtn_display w; currentStep :=
     currentStep w |}.
Definition set_nextBtn_display (v : string) (w : Wizard) : Wizard :=
  {| steps := steps w; progressSteps := progressSteps w; progressLines :=
     progressLines w; prevBtn_visibility := prevBtn_visibility w;
     nextBtn_display := v; calcBtn_display := calcBtn_display w; currentStep
     := currentStep w |}.
Definition set_calcBtn_display (v : string) (w : Wizard) : Wizard :=
  {| steps := steps w; progressSteps := progressSteps w; progressLines :=
     progressLines w; prevBtn_visibility := prevBtn_visibility w;
     nextBtn_display := nextBtn_display w; calcBtn_display := v; currentStep
     := currentStep w |}.
Definition set_currentStep (v : Z) (w : Wizard) : Wizard :=
  {| steps := steps w; progressSteps := progressSteps w; progressLines :=
     progressLines w; prevBtn_visibility := prevBtn_visibility w;
     nextBtn_display := nextBtn_display w; calcBtn_display :=
     calcBtn_display w; currentStep := v |}.
Definition set_numChildrenSelect_value (v : string) (w : Forms) : Forms :=
  {| ALL_LOCATIONS := ALL_LOCATIONS w; numChildrenSelect_value := v;
     grandchildrenSection_display := grandchildrenSection_display w; static
     := static w; container_at := container_at w; generation := generation
     w; children := children w |}.
Definition set_grandchildrenSection_display (v : string) (w : Forms) : Forms :=
  {| ALL_LOCATIONS := ALL_LOCATIONS w; numChildrenSelect_value :=
     numChildrenSelect_value w; grandchildrenSection_display := v; static :=
     static w; container_at := container_at w; generation := generation w;
     children := children w |}.
Definition set_static (v : list Element) (w : Forms) : Forms :=
  {| ALL_LOCATIONS := ALL_LOCATIONS w; numChildrenSelect_value :=
     numChildrenSelect_value w; grandchildrenSection_display :=
     grandchildrenSection_display w; static := v; container_at :=
     container_at w; generation := generation w; children := children w |}.
Definition set_generation (v : nat) (w : Forms) : Forms :=
  {| ALL_LOCATIONS := ALL_LOCATIONS w; numChildrenSelect_value :=
     numChildrenSelect_value w; grandchildrenSection_display :=
     grandchildrenSection_display w; static := static w; container_at :=
     container_at w; generation := v; children := children w |}.
Definition set_children (v : list Block) (w : Forms) : Forms :=
  {| ALL_LOCATIONS := ALL_LOCATIONS w; numChildrenSelect_value :=
     numChildrenSelect_value w; grandchildrenSection_display :=
     grandchildrenSection_display w; static := static w; container_at :=
     container_at w; generation := generation w; children := v |}.

Record State := mkState {
  wizard : Wizard;
  forms : Forms;
}.

Definition on_wizard (f : Wizard -> Wizard) (st : State) : State :=
  {| wizard := f (wizard st); forms := forms st |}.
Definition on_forms (f : Forms -> Forms) (st : State) : State :=
  {| wizard := wizard st; forms := f (forms st) |}.

Definition totalSteps (st : State) : Z := Z.of_nat (length (steps (wizard st))).

(** ** Statements: state and exceptions *)

Inductive Completion (A : Type) :=
| Normal (a : A)
| Throw (error : string).
Arguments Normal {A} a.
Arguments Throw {A} error.

Definition M (A : Type) : Type := State -> Completion A * State.

Definition ret {A} (a : A) : M A := fun st => (Normal a, st).
Definition bind {A B} (m : M A) (k : A -> M B) : M B :=
  fun st =>
    match m st with
    | (Normal a, st') => k a st'
    | (Throw e, st') => (Throw e, st')
    end.
Definition get : M State := fun st => (Normal st, st).
Definition modify (f : State -> State) : M unit := fun st => (Normal tt, f st).
Definition throw {A} (e : string) : M A := fun st => (Throw e, st).

Notation "x <- m ;; k" := (bind m (fun x => k))
  (at level 100, m at next level, right associativity).
Notation "m ;; k" := (bind m (fun _ => k))
  (at level 100, right associativity).

(** [for (let i = 0; i < n; i++) body]: the body runs for
    [i = 0, 1, ...] as long as [i < n], which is never for [NaN]. *)
Fixpoint for_range (i : Z) (count : nat) (body : Z -> M unit) : M unit :=
  match count with
  | O => ret tt
  | S c => body i ;; for_range (i + 1) c body
  end.

(** The number of times the loop runs its body for the bound [n].  A
    loop on a bound above [2^53] does not end, since [i++] no longer
    advances there.  A statement of the model is a function, so these
    runs are not modelled: a finite bound is given the iterations of
    the bound and [Infinity] none.  The statements on what is rendered
    bound the count. *)
Definition iterations (n : JS.Number) : nat :=
  match n with
  | JS.NaN => O
  | JS.Num z => Z.to_nat z
  | JS.Infinity _ => O
  end.

(** ** Element lookup and update *)

Definition find_id (id : string) (l : list Element) : option nat :=
  fst <$> list_find (fun e => el_id e = Some id) l.

Fixpoint find_in_blocks (id : string) (b : nat) (bs : list Block) : option (nat * nat) :=
  match bs with
  | [] => None
  | blk :: rest =>
      match find_id id blk with
      | Some k => Some (b, k)
      | None => find_in_blocks id (S b) rest
      end
  end.

(** [document.getElementById(id)]: the first element in document order
    that carries the id, or [null]. *)
Definition find_element (id : string) (f : Forms) : option Ref :=
  match find_id id (take (container_at f) (static f)) with
  | Some k => Some (Static k)
  | None =>
      match find_in_blocks id 0 (children f) with
      | Some (b, k) => Some (Child (generation f) b k)
      | None =>
          match find_id id (drop (container_at f) (static f)) with
          | Some k => Some (Static (container_at f + k))
          | None => None
          end
      end
  end.

Definition getElementById (id : string) : M (option Ref) :=
  st <- get ;;
  ret (find_element id (forms st)).

Definition deref (r : Ref) (st : State) : option Element :=
  match r with
  | Static k => static (forms st) !! k
  | Child g b k =>
      if decide (g = generation (forms st))
      then blk ← children (forms st) !! b; blk !! k
      else None
  end.

(** A write to a property of the element [r]. *)
Definition update (r : Ref) (f : Element -> Element) (st : State) : State :=
  match r with
  | Static k => on_forms (fun fs => set_static (alter f k (static fs)) fs) st
  | Child g b k =>
      if decide (g = generation (forms st))
      then on_forms (fun fs => set_children (alter (alter f k) b (children fs)) fs) st
      else st
  end.

Definition addEventListener (target : Ref) (type : string) (l : Listener) : M unit :=
  modify (update target (fun e => set_el_listeners (el_listeners e ++ [(type, l)]) e)).

(** ** Currency fields *)

Definition bindCurrencyFormat (input : Ref) : M unit :=
  addEventListener input "blur" (format_on_blur input) ;;
  addEventListener input "focus" (strip_on_focus input).

(** ** Conditional sections *)

Definition bindToggle (checkboxId sectionId : string) : M unit :=
  cb <- getElementById checkboxId ;;
  section <- getElementById sectionId ;;
  match cb, section with
  | Some cb, Some section =>
      addEventListener cb "change" (toggle_visible cb section)
  | _, _ => ret tt
  end.

(** ** Child forms *)

Definition child_id (index : Z) (field : string) : string :=
  "child_" +:+ JS.toString index +:+ "_" +:+ field.

(** The options of a location selector, each as value and label.
    The names are interpolated into the markup as they are; the model
    is for names that are plain text, without a double quote, [&] or
    [<], which the parser of the markup reads back as they are. *)
Definition locationOptions (st : State) : list (string * string) :=
  map (fun loc => (loc, loc)) (ALL_LOCATIONS (forms st)).

Definition checkbox (id : string) : Element :=
  {| tagName := "input"; el_id := Some id; el_name := Some id;
     el_classList := []; el_attributes := [("type", "checkbox")];
     el_value := "on"; el_checked := true; el_options := [];
     el_listeners := [] |}.

Definition select (id : string) (opts : list (string * string)) (selected : string) : Element :=
  {| tagName := "select"; el_id := Some id; el_name := Some id;
     el_classList := []; el_attributes := [];
     el_value := selected; el_checked := false; el_options := opts;
     el_listeners := [] |}.

(** The elements of the markup for child [index] that carry an id, a
    name or the card class, in document order; the wrappers, labels and
    captions around them carry none and no lookup of the script reaches
    them.  Location names are interpolated as they are and are taken to
    be plain text. *)
Definition childFormHTML (index : Z) (st : State) : Block :=
  [ {| tagName := "div"; el_id := None; el_name := None;
       el_classList := ["child-card"];
       el_attributes := [("data-child", JS.toString index)];
       el_value := ""; el_checked := false; el_options := [];
       el_listeners := [] |};
    {| tagName := "input"; el_id := Some (child_id index "age");
       el_name := Some (child_id index "age");
       el_classList := ["input-compact"];
       el_attributes := [("type", "number"); ("min", "0"); ("max", "50")];
       el_value := "5"; el_checked := false; el_options := [];
       el_listeners := [] |};
    checkbox (child_id index "private_school");
    checkbox (child_id index "private_university");
    checkbox (child_id index "buy_house");
    {| tagName := "div"; el_id := Some (child_id index "house_section");
       el_name := None;
       el_classList := ["conditional-section"; "visible"];
       el_attributes := []; el_value := ""; el_checked := false;
       el_options := []; el_listeners := [] |};
    select (child_id index "house_location") (locationOptions st)
      (default "" (fst <$> head (locationOptions st)));
    select (child_id index "house_bedrooms")
      [("2", "2"); ("3", "3"); ("4", "4"); ("5", "5"); ("6", "6")] "4";
    {| tagName := "input"; el_id := Some (child_id index "annual_expenses");
       el_name := Some (child_id index "annual_expenses");
       el_classList := ["input-currency"];
       el_attributes := [("type", "text"); ("inputmode", "numeric")];
       el_value := "300,000"; el_checked := false; el_options := [];
       el_listeners := [] |} ].

(** [childrenContainer.innerHTML = '']. *)
Definition clear_children : M unit :=
  modify (on_forms (fun fs => set_children [] (set_generation (S (generation fs)) fs))).

(** [childrenContainer.insertAdjacentHTML('beforeend', html)]. *)
Definition insertAdjacentHTML (html : Block) : M unit :=
  modify (on_forms (fun fs => set_children (children fs ++ [html]) fs)).

(** The body of the loop of [renderChildren], for child [i]. *)
Definition render_child (i : Z) : M unit :=
  st <- get ;;
  insertAdjacentHTML (childFormHTML i st) ;;
  (* Bind child house toggle *)
  cb <- getElementById (child_id i "buy_house") ;;
  section <- getElementById (child_id i "house_section") ;;
  match cb, section with
  | Some cb, Some section =>
      addEventListener cb "change" (toggle_visible cb section)
  | _, _ => ret tt
  end ;;
  (* Format currency in child expense inputs *)
  expInput <- getElementById (child_id i "annual_expenses") ;;
  match expInput with
  | Some expInput => bindCurrencyFormat expInput
  | None => ret tt
  end.

Definition renderChildren : M unit :=
  st <- get ;;
  let n := JS.parseInt (numChildrenSelect_value (forms st)) in
  clear_children ;;
  for_range 0 (iterations n) render_child ;;
  (* Show/hide grandchildren section *)
  modify (on_forms (set_grandchildrenSection_display
                      (if JS.gt0 n then "block" else "none"))).

(** ** Step navigation *)

(** [document.querySelector(`.step-content[data-step="${n}"]`)]: the
    position of the first panel whose attribute is the decimal text of
    [n].  The panels of the document are [steps]: the script adds or
    removes no element of class [step-content]. *)
Definition querySelector_step (n : Z) : M (option nat) :=
  st <- get ;;
  ret (fst <$> list_find (fun p => data_step p = Some (JS.toString n))
                 (steps (wizard st))).

Definition showStep (n : Z) : M unit :=
  (* Hide all steps, show the target *)
  modify (on_wizard (fun w =>
    set_steps (map (panel_update (classList.remove "active")) (steps w)) w)) ;;
  target <- querySelector_step n ;;
  match target with
  | None => throw "TypeError"
  | Some k =>
      modify (on_wizard (fun w =>
        set_steps (alter (panel_update (classList.add "active")) k (steps w)) w))
  end ;;
  (* Update progress indicators *)
  modify (on_wizard (fun w =>
    set_progressSteps
      (imap (fun i ps =>
         let stepNum := Z.of_nat i + 1 in
         let ps := classList.remove "completed" (classList.remove "active" ps) in
         if stepNum =? n then classList.add "active" ps
         else if stepNum <? n then classList.add "completed" ps
         else ps) (progressSteps w)) w)) ;;
  (* Update connecting lines *)
  modify (on_wizard (fun w =>
    set_progressLines
      (imap (fun i line => classList.toggle "active" (Z.of_nat i <? n - 1) line)
         (progressLines w)) w)) ;;
  (* Show/hide nav buttons *)
  modify (on_wizard (set_prevBtn_visibility (if n =? 1 then "hidden" else "visible"))) ;;
  st <- get ;;
  (if n =? totalSteps st
   then modify (on_wizard (set_nextBtn_display "none")) ;;
        modify (on_wizard (set_calcBtn_display "inline-flex"))
   else modify (on_wizard (set_nextBtn_display "inline-flex")) ;;
        modify (on_wizard (set_calcBtn_display "none"))) ;;
  modify (on_wizard (set_currentStep n)) ;;
  (* If landing on step 4, render children forms *)
  if n =? 4 then renderChildren else ret tt.

Definition nextBtn_click : M unit :=
  st <- get ;;
  if currentStep (wizard st) <? totalSteps st
  then showStep (currentStep (wizard st) + 1) else ret tt.

Definition prevBtn_click : M unit :=
  st <- get ;;
  if 1 <? currentStep (wizard st)
  then showStep (currentStep (wizard st) - 1) else ret tt.

(** ** Events

    A listener runs to completion; an exception it raises is reported
    by the host and the state stays as the listener left it. *)
Definition run_handler (m : M unit) (st : State) : State := snd (m st).

Definition run_listener (l : Listener) (st : State) : State :=
  match l with
  | toggle_visible cb section =>
      match deref cb st with
      | Some c =>
          update section (fun e =>
            set_el_classList (classList.toggle "visible" (el_checked c) (el_classList e)) e) st
      | None => st
      end
  | format_on_blur input =>
      update input (fun e => set_el_value (formatCurrency (el_value e)) e) st
  | strip_on_focus input =>
      update input (fun e => set_el_value (JS.remove_all JS.comma (el_value e)) e) st
  end.

(** The listeners of [target] for events of [type], in the order of
    their registration. *)
Definition listeners_for (type : string) (target : Ref) (st : State) : list Listener :=
  match deref target st with
  | Some e => snd <$> filter (fun tl => fst tl = type) (el_listeners e)
  | None => []
  end.

Definition dispatchEvent (target : Ref) (type : string) (st : State) : State :=
  foldl (fun s l => run_listener l s) st (listeners_for type target st).

(** What the user can do. *)
Inductive Click := Next | Previous.

Definition click (c : Click) : State -> State :=
  match c with
  | Next => run_handler nextBtn_click
  | Previous => run_handler prevBtn_click
  end.

(** Clicking a checkbox flips it and fires [change]. *)
Definition toggle_checkbox (cb : Ref) (st : State) : State :=
  dispatchEvent cb "change"
    (update cb (fun e => set_el_checked (negb (el_checked e)) e) st).

Definition focus (input : Ref) : State -> State := dispatchEvent input "focus".
Definition blur (input : Ref) : State -> State := dispatchEvent input "blur".

(** Typing replaces the text of a field; the script listens to no
    [input] event. *)
Definition input_text (input : Ref) (text : string) : State -> State :=
  update input (set_el_value text).

(** Choosing an entry of the count selector sets its value and fires
    [change], whose listener is [renderChildren]. *)
Definition choose_children (v : string) (st : State) : State :=
  run_handler renderChildren (on_forms (set_numChildrenSelect_value v) st).

(** ** Page load *)

(** [document.querySelectorAll('.' + c)] over the elements that are
    looked up by id or class: references in document order. *)
Definition querySelectorAll (c : string) (st : State) : list Ref :=
  let f := forms st in
  let stat := imap (fun k e => (Static k, e)) (static f) in
  let gen := concat (imap (fun b blk =>
                       imap (fun k e => (Child (generation f) b k, e)) blk)
                     (children f)) in
  (filter (fun re => c ∈ el_classList re.2)
     (take (container_at f) stat ++ gen ++ drop (container_at f) stat)).*1.

Fixpoint forEach (rs : list Ref) (callback : Ref -> M unit) : M unit :=
  match rs with
  | [] => ret tt
  | r :: rest => callback r ;; forEach rest callback
  end.

(** The [DOMContentLoaded] listener.  The click listeners of the next
    and previous buttons and the change listener of the count selector
    that it registers are [nextBtn_click], [prevBtn_click] and
    [renderChildren]: these elements have no other listener. *)
Definition main : M unit :=
  modify (on_wizard (set_currentStep 1)) ;;
  (* Initialize *)
  showStep 1 ;;
  bindToggle "has_vacation_home" "vacation-home-section" ;;
  bindToggle "has_sailboat" "sailboat-section" ;;
  bindToggle "has_yacht" "yacht-section" ;;
  bindToggle "provide_for_grandchildren" "gc-details-section" ;;
  (* Bind formatting to initial currency inputs *)
  st <- get ;;
  forEach (querySelectorAll "input-currency" st) bindCurrencyFormat.

(** A page with five steps, used to run the model. *)
Definition panel (k : Z) (cls : ClassList) : Panel :=
  {| panel_classList := "step-content" :: cls; data_step := Some (JS.toString k) |}.

Definition sample_static : list Element :=
  [ checkbox "has_vacation_home";
    {| tagName := "div"; el_id := Some "vacation-home-section"; el_name := None;
       el_classList := ["conditional-section"]; el_attributes := [];
       el_value := ""; el_checked := false; el_options := [];
       el_listeners := [] |} ].

Definition sample_page : State :=
  {| wizard :=
       {| steps := [panel 1 ["active"]; panel 2 []; panel 3 []; panel 4 []; panel 5 []];
          progressSteps := [["progress-step"; "active"]; ["progress-step"];
                            ["progress-step"]; ["progress-step"]; ["progress-step"]];
          progressLines := [["progress-line"]; ["progress-line"];
                            ["progress-line"]; ["progress-line"]];
          prevBtn_visibility := ""; nextBtn_display := ""; calcBtn_display := "";
          currentStep := 1 |};
     forms :=
       {| ALL_LOCATIONS := ["Boston"; "Austin"];
          numChildrenSelect_value := "2";
          grandchildrenSection_display := "";
          static := sample_static;
          container_at := 2;
          generation := 0;
          children := [] |} |}.

(** * Vocabulary of the properties *)

(** Strings of decimal digits. *)
Fixpoint digits_only (s : string) : bool :=
  match s with
  | EmptyString => true
  | String c r => JS.is_digit c && digits_only r
  end.

(** The digits of [s], in order, and the integer they denote. *)
Definition digits_of (s : string) : string := JS.remove_all JS.non_digit s.
Definition amount_of (s : string) : Z := JS.digits_value 0 (digits_of s).

(** The inputs on which the number of [formatCurrency] is exact. *)
Definition safe_amount (s : string) : Prop := amount_of s <= JS.MAX_SAFE_INTEGER.

(** The characters of a string, first to last. *)
Definition chars (s : string) : list ascii := list_ascii_of_string s.

(** [r] renders [z] with thousands separators: without its commas [r]
    is the decimal text of [z], it does not begin with a comma, and
    counting from the right end the commas are the characters at the
    positions 3, 7, 11, ... *)
Definition thousands_separated (z : Z) (r : string) : Prop :=
  JS.remove_all JS.comma r = JS.toString z /\
  head (chars r) <> Some ","%char /\
  forall (p : nat) (c : ascii),
    rev (chars r) !! p = Some c -> (c = ","%char <-> (p mod 4 = 3)%nat).

(** A statement that completes normally and leaves the wizard as it is. *)
Definition forms_only {A} (m : M A) : Prop :=
  forall st, exists a fs, m st = (Normal a, {| wizard := wizard st; forms := fs |}).

(** The page has, for every index from 1 to [totalSteps], a panel whose
    [data-step] attribute is that index. *)
Definition has_step (st : State) (k : Z) : bool :=
  bool_decide (Exists (fun p => data_step p = Some (JS.toString k)) (steps (wizard st))).
Definition steps_tagged (st : State) : bool :=
  forallb (has_step st) (seqZ 1 (totalSteps st)).

(** The wizard after [showStep n] has activated the panel at position [k]. *)
Definition shown (n : Z) (k : nat) (w : Wizard) : Wizard :=
  {| steps := alter (panel_update (classList.add "active")) k
                (map (panel_update (classList.remove "active")) (steps w));
     progressSteps :=
       imap (fun i ps =>
         let stepNum := Z.of_nat i + 1 in
         let ps := classList.remove "completed" (classList.remove "active" ps) in
         if stepNum =? n then classList.add "active" ps
         else if stepNum <? n then classList.add "completed" ps
         else ps) (progressSteps w);
     progressLines :=
       imap (fun i line => classList.toggle "active" (Z.of_nat i <? n - 1) line)
         (progressLines w);
     prevBtn_visibility := if n =? 1 then "hidden" else "visible";
     nextBtn_display :=
       if n =? Z.of_nat (length (steps w)) then "none" else "inline-flex";
     calcBtn_display :=
       if n =? Z.of_nat (length (steps w)) then "inline-flex" else "none";
     currentStep := n |}.

(** A sequence of clicks, first to last. *)
Definition clicks (cs : list Click) (st : State) : State :=
  foldl (fun s c => click c s) st cs.

(** The step index is one that has a panel. *)
Definition in_range (st : State) : Prop :=
  steps_tagged st = true /\ 1 <= currentStep (wizard st) <= totalSteps st.

#[global] Instance Ref_eq_dec : EqDecision Ref.
Proof. solve_decision. Defined.

(** Two states whose elements are related one by one. *)
Definition related (R : Element -> Element -> Prop) (st st' : State) : Prop :=
  forall r, option_Forall2 R (deref r st) (deref r st').

(** The same listeners, and the same [checked] flag and listeners. *)
Definition same_listeners (e e' : Element) : Prop := el_listeners e = el_listeners e'.
Definition same_controls (e e' : Element) : Prop :=
  el_checked e = el_checked e' /\ el_listeners e = el_listeners e'.

(** An element without its listeners, and the forms up to listeners:
    the markup of the page. *)
Definition erase (e : Element) : Element := set_el_listeners [] e.
Definition markup (fs : Forms) : Forms :=
  set_children (map (map erase) (children fs)) (set_static (map erase (static fs)) fs).

(** The state after the container was emptied and nothing rendered. *)
Definition cleared (st : State) : State :=
  on_forms (fun fs =>
    set_grandchildrenSection_display "none"
      (set_children [] (set_generation (S (generation fs)) fs))) st.

(** The fields of a child form that carry an id, in document order. *)
Definition child_fields : list string :=
  ["age"; "private_school"; "private_university"; "buy_house"; "house_section";
   "house_location"; "house_bedrooms"; "annual_expenses"].

(** The ids of the elements of block [i], in document order: the card
    has none. *)
Definition block_ids (i : Z) : list (option string) :=
  None :: map (fun f => Some (child_id i f)) child_fields.

(** No static element carries an id of the scheme of the child forms. *)
Definition static_ids_clear (st : State) : bool :=
  forallb (fun e =>
    match el_id e with
    | Some x => negb (String.prefix "child_" x)
    | None => true
    end) (static (forms st)).

(** Block [i] of generation [g] as [renderChildren] leaves it: the
    buy-house checkbox toggles the house section of the same block and
    the expenses field is a currency field. *)
Definition rendered_block (g : nat) (i : nat) (st : State) : Block :=
  alter (fun e => set_el_listeners
                    [("blur", format_on_blur (Child g i 8));
                     ("focus", strip_on_focus (Child g i 8))] e) 8%nat
    (alter (fun e => set_el_listeners
                       [("change", toggle_visible (Child g i 4) (Child g i 5))] e) 4%nat
       (childFormHTML (Z.of_nat i) st)).

(** The state with [bs] as the content of the container. *)
Definition with_children (bs : list Block) (st : State) : State :=
  on_forms (set_children bs) st.

(** The blocks rendered so far carry the ids of their indices. *)
Definition ids_by_index (bs : list Block) : Prop :=
  forall (i : nat) (blk : Block), bs !! i = Some blk -> map el_id blk = block_ids (Z.of_nat i).

(** The state [renderChildren] leaves on a page whose static ids are
    clear of the scheme. *)
Definition rendered (st : State) : State :=
  let n := JS.parseInt (numChildrenSelect_value (forms st)) in
  on_forms (fun fs =>
    set_grandchildrenSection_display (if JS.gt0 n then "block" else "none")
      (set_children
         (map (fun i => rendered_block (S (generation fs)) i st) (seq 0 (iterations n)))
         (set_generation (S (generation fs)) fs))) st.

(** The checkbox has the flag [b] and the section is visible exactly
    when [b] is set. *)
Definition shows (cb section : Ref) (st : State) (b : bool) : Prop :=
  exists c s,
    deref cb st = Some c /\ deref section st = Some s /\
    el_checked c = b /\ ("visible" ∈ el_classList s <-> b = true).

(** The [change] listeners that [bindToggle a b] adds to the element
    [r] on a page with the forms [fs]. *)
Definition toggle_listeners (a b : string) (r : Ref) (fs : Forms) : list Listener :=
  match find_element a fs, find_element b fs with
  | Some cb, Some section => if decide (cb = r) then [toggle_visible cb section] else []
  | _, _ => []
  end.

(** The decimal text of [10^309]: the digit 1 and 309 zeros. *)
Definition ten_pow_309 : string :=
  "1000000000000000000000000000000000000000000000000000000000000000000000000000000000000000000000000000000000000000000000000000000000000000000000000000000000000000000000000000000000000000000000000000000000000000000000000000000000000000000000000000000000000000000000000000000000000000000000000000000000000000000000".

(** * Properties *)

(** ** Strings and numbers *)

Lemma digits_only_digits_of s : digits_only (digits_of s) = true.
Proof.
  unfold digits_of. induction s as [|c r IH]; simpl; [done|].
  unfold JS.non_digit at 1. destruct (JS.is_digit c) eqn:Hc; simpl; [|done].
  by rewrite Hc, IH.
Qed.

Lemma is_digit_not_space c : JS.is_digit c = true -> JS.is_space c = false.
Proof.
  destruct c as [[] [] [] [] [] [] [] []]; simpl; try discriminate; reflexivity.
Qed.

Lemma is_digit_not_comma c : JS.is_digit c = true -> JS.comma c = false.
Proof.
  destruct c as [[] [] [] [] [] [] [] []]; simpl; try discriminate; reflexivity.
Qed.

Lemma is_digit_not_sign c :
  JS.is_digit c = true -> c <> "-"%char /\ c <> "+"%char.
Proof.
  destruct c as [[] [] [] [] [] [] [] []]; simpl; try discriminate; done.
Qed.

Lemma leading_digits_all d : digits_only d = true -> JS.leading_digits d = d.
Proof.
  induction d as [|c r IH]; simpl; [done|].
  intros [Hc Hr]%andb_prop. by rewrite Hc, IH.
Qed.

Lemma digits_value_nonneg d acc :
  digits_only d = true -> 0 <= acc -> 0 <= JS.digits_value acc d.
Proof.
  revert acc. induction d as [|c r IH]; simpl; intros acc; [done|].
  intros [Hc Hr]%andb_prop Hacc. apply IH; [done|].
  assert (0 <= JS.digit_value c); [|lia].
  destruct c as [[] [] [] [] [] [] [] []]; simpl in Hc; try discriminate;
    by vm_compute.
Qed.

(** Integers up to [2^53] are doubles, and are printed as they are. *)
Lemma log2_safe z : 0 <= z < 2 ^ 53 -> Z.log2 z - 52 <= 0.
Proof.
  intros Hz. destruct (decide (z = 0)) as [->|Hne]; [done|].
  assert (Z.log2 z < 53); [|lia]. apply Z.log2_lt_pow2; lia.
Qed.

Lemma nearest_double_safe z : 0 <= z < 2 ^ 53 -> JS.nearest_double z = z.
Proof.
  intros Hz. unfold JS.nearest_double. cbn zeta.
  by rewrite (proj2 (Z.leb_le _ _) (log2_safe z Hz)).
Qed.

Lemma shortest_safe z : 0 <= z < 2 ^ 53 -> JS.shortest z = z.
Proof.
  intros Hz. unfold JS.shortest. cbn zeta.
  by rewrite (proj2 (Z.leb_le _ _) (log2_safe z Hz)).
Qed.

Lemma of_integer_safe z : 0 <= z <= JS.MAX_SAFE_INTEGER -> JS.of_integer z = JS.Num z.
Proof.
  unfold JS.MAX_SAFE_INTEGER. intros Hz. unfold JS.of_integer. cbn zeta.
  rewrite Z.abs_eq, nearest_double_safe by lia.
  assert (2 ^ 53 <= 2 ^ 1024) as Hbig by (apply Z.pow_le_mono_r; lia).
  rewrite (proj2 (Z.leb_gt _ _)) by lia. f_equal.
  destruct z; [done|done|lia].
Qed.

Lemma double_exact z :
  0 <= z <= 2 ^ 53 -> JS.nearest_double z = z /\ JS.shortest z = z.
Proof.
  intros Hz. destruct (decide (z = 2 ^ 53)) as [->|Hne]; [by vm_compute|].
  split; [apply nearest_double_safe | apply shortest_safe]; lia.
Qed.

(** The double of a positive integer is positive, and so is the
    integer that is printed for it. *)
Lemma pow2_le_self z : 0 < z -> 0 <= Z.log2 z - 52 -> 2 ^ (Z.log2 z - 52) <= z.
Proof.
  intros Hz He. destruct (Z.log2_spec z Hz) as [Hlo _].
  transitivity (2 ^ Z.log2 z); [|done]. apply Z.pow_le_mono_r; lia.
Qed.

Lemma nearest_double_pos z : 0 < z -> 0 < JS.nearest_double z.
Proof.
  intros Hz. unfold JS.nearest_double. cbn zeta.
  destruct (Z.leb_spec (Z.log2 z - 52) 0) as [|He]; [done|].
  pose proof (pow2_le_self z Hz ltac:(lia)) as Hulp.
  assert (0 < 2 ^ (Z.log2 z - 52)) as Hpos by (apply Z.pow_pos_nonneg; lia).
  assert (0 < z / 2 ^ (Z.log2 z - 52)) as Hq by (apply Z.div_str_pos; lia).
  case_match; nia.
Qed.

Lemma shortest_from_pos k z lo2 hi2 closed :
  0 < z -> 0 < lo2 -> 0 < JS.shortest_from k z lo2 hi2 closed.
Proof.
  intros Hz Hlo. induction k as [|k IH]; cbn [JS.shortest_from]; cbn zeta;
    repeat case_match; simplify_eq; try done;
    repeat match goal with
           | H : (if closed then _ else _) = true |- _ => destruct closed
           | H : _ && _ = true |- _ => apply andb_prop in H as [? ?]
           | H : (_ <=? _) = true |- _ => apply Z.leb_le in H
           | H : (_ <? _) = true |- _ => apply Z.ltb_lt in H
           end; lia.
Qed.

Lemma shortest_pos z : 0 < z -> 0 < JS.shortest z.
Proof.
  intros Hz. unfold JS.shortest. cbn zeta.
  destruct (Z.leb_spec (Z.log2 z - 52) 0) as [|He]; [done|].
  pose proof (pow2_le_self z Hz ltac:(lia)) as Hulp.
  assert (0 < 2 ^ (Z.log2 z - 52)) as Hpos by (apply Z.pow_pos_nonneg; lia).
  apply shortest_from_pos; [done|].
  assert (2 ^ (Z.log2 z - 52) / 2 <= 2 ^ (Z.log2 z - 52))
    by (apply Z.div_le_upper_bound; lia).
  case_match; lia.
Qed.

(** *** Rounding and printing doubles *)

Lemma pow2_pos e : 0 <= e -> 0 < 2 ^ e.
Proof. intros. by apply Z.pow_pos_nonneg. Qed.

Lemma pow2_split e : 0 <= e -> 2 ^ (52 + e) = 2 ^ 52 * 2 ^ e /\ 2 ^ (53 + e) = 2 ^ 53 * 2 ^ e.
Proof. intros He. by rewrite !Z.pow_add_r by lia. Qed.

Lemma pow2_succ e : 0 < e -> 2 ^ e = 2 * 2 ^ (e - 1).
Proof. intros He. rewrite <-Z.pow_succ_r by lia. f_equal. lia. Qed.

(** The numbers between [2^(52+e)] and [2^(53+e)]. *)
Lemma log2_between y e :
  0 <= e -> 2 ^ 52 * 2 ^ e <= y < 2 ^ 53 * 2 ^ e -> Z.log2 y = 52 + e.
Proof.
  intros He Hy. destruct (pow2_split e He) as [H52 H53].
  apply Z.log2_unique; [lia|]. replace (Z.succ (52 + e)) with (53 + e) by lia. lia.
Qed.

(** Rounding a number that lies [r] above the double [q * 2^e]. *)
Lemma nearest_double_above q e r :
  0 < e -> 2 ^ 52 <= q < 2 ^ 53 -> 0 <= r < 2 ^ e ->
  JS.nearest_double (q * 2 ^ e + r)
  = (if (2 ^ e <? 2 * r) || ((2 ^ e =? 2 * r) && Z.odd q) then q + 1 else q) * 2 ^ e.
Proof.
  intros He Hq Hr. pose proof (pow2_pos e ltac:(lia)) as Hpos.
  unfold JS.nearest_double. cbn zeta.
  rewrite (log2_between (q * 2 ^ e + r) e) by nia.
  replace (52 + e - 52) with e by lia.
  rewrite (proj2 (Z.leb_gt _ _)) by lia.
  assert ((q * 2 ^ e + r) / 2 ^ e = q) as ->.
  { symmetry. apply (Z.div_unique _ _ q r); lia. }
  assert ((q * 2 ^ e + r) mod 2 ^ e = r) as ->.
  { symmetry. apply (Z.mod_unique _ _ q r); lia. }
  done.
Qed.

(** Every number that lies within half the distance to the next double
    on either side of the double [q * 2^e] rounds to it; the bounds do
    when [q] is even. *)
Lemma nearest_double_interval q e y :
  0 < e -> 2 ^ 52 <= q < 2 ^ 53 ->
  (if Z.even q
   then (2 * (q * 2 ^ e) - (if q =? 2 ^ 52 then 2 ^ e / 2 else 2 ^ e) <=? 2 * y)
        && (2 * y <=? 2 * (q * 2 ^ e) + 2 ^ e)
   else (2 * (q * 2 ^ e) - (if q =? 2 ^ 52 then 2 ^ e / 2 else 2 ^ e) <? 2 * y)
        && (2 * y <? 2 * (q * 2 ^ e) + 2 ^ e)) = true ->
  JS.nearest_double y = q * 2 ^ e.
Proof.
  intros He Hq Hin.
  pose proof (pow2_pos (e - 1) ltac:(lia)) as Hpos'.
  pose proof (pow2_succ e He) as HU.
  assert (2 ^ e / 2 = 2 ^ (e - 1)) as Hhalf.
  { rewrite HU. rewrite Z.mul_comm. by rewrite Z.div_mul. }
  rewrite Hhalf in Hin.
  set (U := 2 ^ e) in *. set (U' := 2 ^ (e - 1)) in *.
  assert (Z.odd q = negb (Z.even q)) as Hodd by (by rewrite Z.negb_even).
  assert (2 * (q * U) - (if q =? 2 ^ 52 then U' else U) <= 2 * y <= 2 * (q * U) + U /\
          (Z.even q = false ->
           2 * (q * U) - (if q =? 2 ^ 52 then U' else U) < 2 * y < 2 * (q * U) + U))
    as [Hclosed Hopen].
  { destruct (Z.even q); apply andb_prop in Hin as [H1 H2].
    - apply Z.leb_le in H1, H2. split; [lia|done].
    - apply Z.ltb_lt in H1, H2. split; [lia|]. intros _. lia. }
  clear Hin.
  destruct (Z_le_gt_dec (q * U) y) as [Hge|Hlt].
  - (* at or above the double *)
    replace y with (q * 2 ^ e + (y - q * U)) by (fold U; lia).
    rewrite nearest_double_above by (fold U; lia). fold U.
    assert ((U <? 2 * (y - q * U)) = false) as -> by (apply Z.ltb_ge; lia).
    destruct (Z.eqb_spec U (2 * (y - q * U))) as [Heq|Hne]; [|done].
    destruct (Z.even q) eqn:Hev; [by rewrite Hodd|].
    specialize (Hopen eq_refl). lia.
  - destruct (Z.eqb_spec q (2 ^ 52)) as [Hq52|Hq52].
    + (* below a power of two *)
      assert (1 < e) as He2.
      { destruct (decide (e = 1)) as [->|]; [|lia].
        change (2 ^ (1 - 1)) with 1 in U'. change (2 ^ 1) with 2 in U. unfold U, U' in *. lia. }
      pose proof (pow2_pos (e - 1 - 1) ltac:(lia)) as Hpos''.
      pose proof (pow2_succ (e - 1) ltac:(lia)) as HU'. fold U' in HU'.
      set (r := U' - (q * U - y)).
      replace y with ((2 ^ 53 - 1) * 2 ^ (e - 1) + r)
        by (unfold r; fold U'; subst q; lia).
      rewrite nearest_double_above; [|lia|lia|fold U'; unfold r; nia].
      fold U'.
      assert ((U' <? 2 * r) || ((U' =? 2 * r) && Z.odd (2 ^ 53 - 1)) = true) as ->.
      { change (Z.odd (2 ^ 53 - 1)) with true. rewrite andb_true_r.
        destruct (Z.ltb_spec U' (2 * r)); [done|].
        apply Z.eqb_eq. unfold r in *. lia. }
      subst q. lia.
    + (* below another double *)
      set (r := U - (q * U - y)).
      replace y with ((q - 1) * 2 ^ e + r) by (unfold r; fold U; lia).
      rewrite nearest_double_above; [|lia|lia|fold U; unfold r; nia].
      fold U.
      assert ((U <? 2 * r) || ((U =? 2 * r) && Z.odd (q - 1)) = true) as ->; [|f_equal; lia].
      destruct (Z.ltb_spec U (2 * r)); [done|]. cbn [orb].
      assert (U = 2 * r) as Heq by (unfold r in *; lia).
      rewrite (proj2 (Z.eqb_eq _ _) Heq). cbn [andb].
      replace (q - 1) with (Z.pred q) by lia. rewrite Z.odd_pred.
      destruct (Z.even q) eqn:Hev; [done|]. specialize (Hopen eq_refl). unfold r in *. lia.
Qed.

(** The double nearest to an integer from [2^53] on has a significand
    of 53 bits. *)
Lemma nearest_double_shape a :
  2 ^ 53 <= a ->
  exists e q, 0 < e /\ 2 ^ 52 <= q < 2 ^ 53 /\ JS.nearest_double a = q * 2 ^ e.
Proof.
  intros Ha. destruct (Z.log2_spec a ltac:(lia)) as [Hlo Hhi].
  assert (53 <= Z.log2 a) as Hl by (apply Z.log2_le_pow2; lia).
  set (e := Z.log2 a - 52). assert (0 < e) as He by lia.
  pose proof (pow2_pos e ltac:(lia)) as Hpos.
  destruct (pow2_split e ltac:(lia)) as [H52 H53].
  replace (52 + e) with (Z.log2 a) in H52 by lia.
  replace (53 + e) with (Z.succ (Z.log2 a)) in H53 by lia.
  pose proof (Z.div_mod a (2 ^ e) ltac:(lia)) as Hdiv.
  pose proof (Z.mod_pos_bound a (2 ^ e) Hpos) as Hr.
  set (q := a / 2 ^ e) in *. set (r := a mod 2 ^ e) in *.
  assert (2 ^ 52 <= q < 2 ^ 53) as Hq by nia.
  replace a with (q * 2 ^ e + r) by lia.
  rewrite nearest_double_above by done.
  destruct ((2 ^ e <? 2 * r) || ((2 ^ e =? 2 * r) && Z.odd q)).
  - destruct (decide (q + 1 = 2 ^ 53)) as [Htop|Htop].
    + exists (e + 1), (2 ^ 52). split; [lia|]. split; [lia|].
      rewrite Htop, (pow2_succ (e + 1)) by lia. replace (e + 1 - 1) with e by lia.
      change (2 ^ 53) with (2 ^ 52 * 2). lia.
    + exists e, (q + 1). split; [done|]. split; [lia|done].
  - by exists e, q.
Qed.

(** The number [shortest_from] finds is among those that round to [z]. *)
Lemma shortest_from_inside (k : nat) (z lo2 hi2 : Z) (closed : bool) :
  (if closed then (lo2 <=? 2 * z) && (2 * z <=? hi2)
   else (lo2 <? 2 * z) && (2 * z <? hi2)) = true ->
  let y := JS.shortest_from k z lo2 hi2 closed in
  (if closed then (lo2 <=? 2 * y) && (2 * y <=? hi2)
   else (lo2 <? 2 * y) && (2 * y <? hi2)) = true.
Proof.
  intros Hz. induction k as [|k IH]; cbn [JS.shortest_from]; cbn zeta;
    repeat case_match; simplify_eq; done.
Qed.

Lemma shortest_round_trip q e :
  0 < e -> 2 ^ 52 <= q < 2 ^ 53 ->
  JS.nearest_double (JS.shortest (q * 2 ^ e)) = q * 2 ^ e.
Proof.
  intros He Hq. pose proof (pow2_pos e ltac:(lia)) as Hpos.
  unfold JS.shortest. cbn zeta.
  rewrite (log2_between (q * 2 ^ e) e) by nia.
  replace (52 + e - 52) with e by lia.
  rewrite (proj2 (Z.leb_gt _ _)) by lia.
  rewrite Z.div_mul by lia.
  apply nearest_double_interval; [done..|].
  apply shortest_from_inside.
  assert (0 <= 2 ^ e / 2 < 2 ^ e) by (split; [apply Z.div_pos|apply Z.div_lt]; lia).
  assert (0 < 2 ^ e / 2).
  { rewrite (pow2_succ e He), Z.mul_comm, Z.div_mul by lia. apply pow2_pos. lia. }
  destruct (Z.even q), (q =? 2 ^ 52); apply andb_true_intro; split;
    first [apply Z.leb_le | apply Z.ltb_lt]; lia.
Qed.

(** Printing a double and reading the digits gives the double back. *)
Lemma nearest_double_round_trip a :
  0 <= a -> JS.nearest_double (JS.shortest (JS.nearest_double a)) = JS.nearest_double a.
Proof.
  intros Ha. destruct (Z_lt_le_dec a (2 ^ 53)) as [Hsmall|Hbig].
  - rewrite (nearest_double_safe a), (shortest_safe a) by lia.
    by apply nearest_double_safe.
  - destruct (nearest_double_shape a Hbig) as (e & q & He & Hq & ->).
    by apply shortest_round_trip.
Qed.

(** [parseInt] on a string of digits. *)
Lemma parseInt_digits d :
  digits_only d = true ->
  JS.parseInt d = match d with
                  | EmptyString => JS.NaN
                  | _ => JS.of_integer (JS.digits_value 0 d)
                  end.
Proof.
  destruct d as [|c r]; [done|]. intros Hd.
  pose proof Hd as [Hc Hr]%andb_prop.
  unfold JS.parseInt. cbn [JS.trim_start]. rewrite (is_digit_not_space c Hc).
  destruct (is_digit_not_sign c Hc) as [Hm Hp].
  assert (match String c r with
          | String "-"%char r0 => (-1, r0)
          | String "+"%char r0 => (1, r0)
          | _ => (1, String c r)
          end = (1, String c r)) as ->.
  { destruct c as [[] [] [] [] [] [] [] []]; try reflexivity; done. }
  rewrite (leading_digits_all _ Hd). by rewrite Z.mul_1_l.
Qed.

Lemma pretty_N_char_digit x : JS.is_digit (pretty_N_char x) = true.
Proof. unfold pretty_N_char. by repeat case_match. Qed.

Lemma pretty_N_char_value x :
  (x < 10)%N -> JS.digit_value (pretty_N_char x) = Z.of_N x.
Proof.
  intros Hx.
  assert (x = 0 \/ x = 1 \/ x = 2 \/ x = 3 \/ x = 4 \/ x = 5 \/ x = 6
          \/ x = 7 \/ x = 8 \/ x = 9)%N as Hcases by lia.
  repeat (destruct Hcases as [->|Hcases]; [reflexivity|]). by subst.
Qed.

Lemma pretty_N_go_digits_only x s :
  digits_only s = true -> digits_only (pretty_N_go x s) = true.
Proof.
  revert s. induction (N.lt_wf_0 x) as [x _ IH]; intros s Hs.
  destruct (decide (x = 0%N)) as [->|Hx]; [by rewrite pretty_N_go_0|].
  rewrite pretty_N_go_step by lia. apply IH; [apply N.div_lt; lia|].
  simpl. by rewrite pretty_N_char_digit.
Qed.

Lemma pretty_N_go_value x s :
  JS.digits_value 0 (pretty_N_go x s) = JS.digits_value (Z.of_N x) s.
Proof.
  revert s. induction (N.lt_wf_0 x) as [x _ IH]; intros s.
  destruct (decide (x = 0%N)) as [->|Hx]; [by rewrite pretty_N_go_0|].
  rewrite pretty_N_go_step by lia. rewrite IH by (apply N.div_lt; lia).
  simpl. rewrite pretty_N_char_value by (apply N.mod_lt; lia).
  f_equal. rewrite N2Z.inj_div, N2Z.inj_mod. simpl Z.of_N.
  pose proof (Z.div_mod (Z.of_N x) 10). lia.
Qed.

Lemma pretty_N_go_nonempty x s : (0 < x)%N -> pretty_N_go x s <> "".
Proof.
  revert s. induction (N.lt_wf_0 x) as [x _ IH]; intros s Hx.
  rewrite pretty_N_go_step by done.
  destruct (decide (x `div` 10 = 0)%N) as [->|Hq]; [by rewrite pretty_N_go_0|].
  apply IH; [apply N.div_lt; lia | by apply N.neq_0_lt_0].
Qed.

(** The decimal text of a non-negative integer: digits only, not empty,
    and it denotes the integer. *)
Lemma toString_digits z :
  0 <= z ->
  digits_only (JS.toString z) = true /\ JS.toString z <> "" /\
  JS.digits_value 0 (JS.toString z) = z.
Proof.
  intros Hz. destruct z as [|p|p]; [done| |lia].
  unfold JS.toString, pretty, pretty_Z, pretty, pretty_positive, pretty, pretty_N.
  rewrite decide_False by done. split_and!.
  - by apply pretty_N_go_digits_only.
  - by apply pretty_N_go_nonempty.
  - by rewrite pretty_N_go_value.
Qed.

(** Grouping adds commas and nothing else. *)
Lemma remove_group3 (cls : ascii -> bool) d :
  cls ","%char = true -> (forall c, JS.is_digit c = true -> cls c = false) ->
  digits_only d = true -> JS.remove_all cls (JS.group3 d) = d.
Proof.
  intros Hcomma Hdigit. induction d as [|c r IH]; simpl; [done|].
  intros [Hc Hr]%andb_prop. rewrite (Hdigit c Hc).
  case_match; simpl; rewrite ?Hcomma, IH; done.
Qed.

Lemma digits_of_group3 d : digits_only d = true -> digits_of (JS.group3 d) = d.
Proof.
  apply remove_group3; [done|]. intros c Hc. unfold JS.non_digit. by rewrite Hc.
Qed.

Lemma strip_commas_group3 d :
  digits_only d = true -> JS.remove_all JS.comma (JS.group3 d) = d.
Proof. apply remove_group3; [done|]. apply is_digit_not_comma. Qed.

Lemma amount_nonneg s : 0 <= amount_of s.
Proof. apply digits_value_nonneg; [apply digits_only_digits_of | lia]. Qed.

Lemma isNaN_of_integer z : JS.isNaN (JS.of_integer z) = false.
Proof. unfold JS.of_integer. cbn zeta. by case_match. Qed.

(** [formatCurrency] in terms of the digits of its argument: the
    number that is printed is the double of the integer they denote. *)
Lemma formatCurrency_number s :
  formatCurrency s =
    match digits_of s with
    | EmptyString => ""
    | _ => JS.toLocaleString (JS.of_integer (amount_of s))
    end.
Proof.
  unfold formatCurrency, amount_of. fold (digits_of s).
  rewrite (parseInt_digits _ (digits_only_digits_of s)).
  destruct (digits_of s) as [|c r] eqn:Hd; [done|].
  by rewrite isNaN_of_integer.
Qed.

(** On a safe integer the number is the integer. *)
Lemma formatCurrency_unfold s :
  safe_amount s ->
  formatCurrency s =
    match digits_of s with
    | EmptyString => ""
    | _ => JS.group3 (JS.toString (amount_of s))
    end.
Proof.
  intros Hsafe. rewrite formatCurrency_number.
  destruct (digits_of s) as [|c r] eqn:Hd; [done|].
  pose proof (amount_nonneg s) as Hv. unfold safe_amount in Hsafe.
  rewrite of_integer_safe by done. cbn [JS.toLocaleString].
  rewrite (proj2 (Z.ltb_ge _ _) Hv).
  rewrite shortest_safe; [done|]. unfold JS.MAX_SAFE_INTEGER in Hsafe. lia.
Qed.

Lemma formatCurrency_digits s :
  safe_amount s -> digits_of s <> "" ->
  digits_of (formatCurrency s) = JS.toString (amount_of s) /\
  amount_of (formatCurrency s) = amount_of s.
Proof.
  intros Hsafe Hd. rewrite formatCurrency_unfold by done.
  pose proof (digits_value_nonneg (digits_of s) 0 (digits_only_digits_of s) ltac:(lia)) as Hv.
  fold (amount_of s) in Hv. destruct (toString_digits _ Hv) as (Hdo & Hne & Hval).
  destruct (digits_of s) eqn:E; [done|].
  split; [by apply digits_of_group3|].
  unfold amount_of at 1. by rewrite digits_of_group3.
Qed.

(** ** Thousands separators *)

Lemma length_chars s : length (chars s) = String.length s.
Proof. induction s; simpl; congruence. Qed.

Lemma group3_length d :
  String.length (JS.group3 d) = (String.length d + (String.length d - 1) / 3)%nat.
Proof.
  induction d as [|c r IH]; [done|].
  cbn [JS.group3 String.length].
  destruct (0 <? String.length r)%nat eqn:Hpos;
    [destruct (String.length r `mod` 3 =? 0)%nat eqn:Hmod|];
    cbn [andb String.length]; rewrite IH;
    rewrite ?Nat.ltb_lt, ?Nat.ltb_ge, ?Nat.eqb_eq, ?Nat.eqb_neq in *;
    pose proof (Nat.div_mod_eq (String.length r) 3);
    pose proof (Nat.mod_upper_bound (String.length r) 3);
    pose proof (Nat.div_mod_eq (String.length r - 1) 3);
    pose proof (Nat.mod_upper_bound (String.length r - 1) 3);
    replace (S (String.length r) - 1)%nat with (String.length r) by lia;
    lia.
Qed.

Lemma group3_commas d :
  digits_only d = true ->
  forall (p : nat) (c : ascii),
    rev (chars (JS.group3 d)) !! p = Some c -> (c = ","%char <-> (p mod 4 = 3)%nat).
Proof.
  induction d as [|c r IH]; [intros _ p c'; change (rev (chars (JS.group3 ""))) with (@nil ascii); by rewrite lookup_nil|].
  intros [Hc Hr]%andb_prop p c'. specialize (IH Hr).
  assert (c <> ","%char) as Hnc.
  { intros ->. done. }
  pose proof (group3_length r) as Hlen.
  pose proof (Nat.div_mod_eq (String.length r) 3).
  pose proof (Nat.mod_upper_bound (String.length r) 3).
  pose proof (Nat.div_mod_eq (String.length r - 1) 3).
  pose proof (Nat.mod_upper_bound (String.length r - 1) 3).
  pose proof (Nat.div_mod_eq p 4).
  pose proof (Nat.mod_upper_bound p 4).
  cbn [JS.group3].
  destruct (0 <? String.length r)%nat eqn:Hpos;
    [destruct (String.length r `mod` 3 =? 0)%nat eqn:Hmod|];
    cbn [andb chars list_ascii_of_string rev]; fold (chars (JS.group3 r));
    rewrite ?Nat.ltb_lt, ?Nat.ltb_ge, ?Nat.eqb_eq, ?Nat.eqb_neq in *.
  - destruct (decide (p < length (chars (JS.group3 r)))%nat) as [Hp|Hp].
    { rewrite <-app_assoc, lookup_app_l by (by rewrite length_rev). apply IH. }
    rewrite length_chars in Hp.
    rewrite <-app_assoc, lookup_app_r by (rewrite length_rev, length_chars; lia).
    rewrite length_rev, length_chars.
    destruct (p - String.length (JS.group3 r))%nat as [|[|k]] eqn:Hk;
      cbn -[Nat.modulo Nat.div]; intros [= <-]; split; try done; lia.
  - destruct (decide (p < length (chars (JS.group3 r)))%nat) as [Hp|Hp].
    { rewrite lookup_app_l by (by rewrite length_rev). apply IH. }
    rewrite length_chars in Hp.
    rewrite lookup_app_r by (rewrite length_rev, length_chars; lia).
    rewrite length_rev, length_chars.
    destruct (p - String.length (JS.group3 r))%nat as [|k] eqn:Hk;
      cbn -[Nat.modulo Nat.div]; intros [= <-]; split; try done; lia.
  - destruct (decide (p < length (chars (JS.group3 r)))%nat) as [Hp|Hp].
    { rewrite lookup_app_l by (by rewrite length_rev). apply IH. }
    rewrite length_chars in Hp.
    rewrite lookup_app_r by (rewrite length_rev, length_chars; lia).
    rewrite length_rev, length_chars.
    destruct (p - String.length (JS.group3 r))%nat as [|k] eqn:Hk;
      cbn -[Nat.modulo Nat.div]; intros [= <-]; split; try done; lia.
Qed.

Lemma group3_thousands z : 0 <= z -> thousands_separated z (JS.group3 (JS.toString z)).
Proof.
  intros Hz. destruct (toString_digits z Hz) as (Hd & Hne & _).
  split_and!.
  - by apply strip_commas_group3.
  - destruct (JS.toString z) as [|c r]; [done|]. simpl. intros [= ->]. done.
  - by apply group3_commas.
Qed.

(** ** Class lists *)

Lemma elem_of_classList_add c c' l :
  c' ∈ classList.add c l <-> c' = c \/ c' ∈ l.
Proof.
  unfold classList.add, classList.contains. case_bool_decide as Hin.
  - split; [by right|]. by intros [->|?].
  - rewrite elem_of_app, list_elem_of_singleton. tauto.
Qed.

Lemma elem_of_classList_remove c c' l :
  c' ∈ classList.remove c l <-> c' <> c /\ c' ∈ l.
Proof. unfold classList.remove. by rewrite list_elem_of_filter. Qed.

Lemma elem_of_classList_toggle c c' force l :
  c' ∈ classList.toggle c force l <->
  (if force then c' = c \/ c' ∈ l else c' <> c /\ c' ∈ l).
Proof.
  destruct force; [apply elem_of_classList_add | apply elem_of_classList_remove].
Qed.

(** ** Statements that touch the forms only *)

Lemma forms_only_ret {A} (a : A) : forms_only (ret a).
Proof. intros [w f]. by exists a, f. Qed.

Lemma forms_only_get : forms_only get.
Proof. intros [w f]. by exists (mkState w f), f. Qed.

Lemma forms_only_bind {A B} (m : M A) (k : A -> M B) :
  forms_only m -> (forall a, forms_only (k a)) -> forms_only (bind m k).
Proof.
  intros Hm Hk st. destruct (Hm st) as (a & fs & Hrun).
  destruct (Hk a {| wizard := wizard st; forms := fs |}) as (b & fs' & Hrun').
  exists b, fs'. unfold bind. by rewrite Hrun, Hrun'.
Qed.

Lemma forms_only_modify (f : State -> State) :
  (forall st, wizard (f st) = wizard st) -> forms_only (modify f).
Proof.
  intros Hf st. exists tt, (forms (f st)). unfold modify.
  specialize (Hf st). destruct (f st). simpl in *. by subst.
Qed.

Lemma wizard_update r f st : wizard (update r f st) = wizard st.
Proof. destruct r; simpl; [done|]. by case_decide. Qed.

Lemma forms_only_getElementById id : forms_only (getElementById id).
Proof.
  unfold getElementById. apply forms_only_bind; [apply forms_only_get|].
  intros st. apply forms_only_ret.
Qed.

Lemma forms_only_addEventListener r type l : forms_only (addEventListener r type l).
Proof. apply forms_only_modify. intros st. apply wizard_update. Qed.

Lemma forms_only_for_range i count body :
  (forall j, forms_only (body j)) -> forms_only (for_range i count body).
Proof.
  intros Hbody. revert i. induction count as [|c IH]; intros i; simpl.
  - apply forms_only_ret.
  - apply forms_only_bind; [apply Hbody | intros _; apply IH].
Qed.

Create HintDb forms_only.
#[local] Hint Resolve forms_only_ret forms_only_get forms_only_getElementById
  forms_only_addEventListener : forms_only.

Lemma forms_only_renderChildren : forms_only renderChildren.
Proof.
  unfold renderChildren, render_child, clear_children, insertAdjacentHTML,
    bindCurrencyFormat.
  repeat first
    [ solve [auto with forms_only]
    | apply forms_only_for_range; intros ?
    | apply forms_only_modify; by intros []
    | apply forms_only_bind; [|intros ?]
    | case_match ].
Qed.

(** ** The step controller *)

Lemma find_step_deactivated n (l : list Panel) :
  list_find (fun p => data_step p = Some (JS.toString n))
    (map (panel_update (classList.remove "active")) l)
  = prod_map id (panel_update (classList.remove "active"))
      <$> list_find (fun p => data_step p = Some (JS.toString n)) l.
Proof. by rewrite list_find_fmap. Qed.

Lemma showStep_found n st k p :
  list_find (fun p => data_step p = Some (JS.toString n)) (steps (wizard st)) = Some (k, p) ->
  exists fs, showStep n st = (Normal tt, {| wizard := shown n k (wizard st); forms := fs |}).
Proof.
  intros Hfind. destruct st as [w f].
  unfold showStep, querySelector_step, bind, modify, get, ret, on_wizard, totalSteps.
  cbn [wizard forms steps set_steps fst snd].
  rewrite find_step_deactivated. cbn [wizard] in Hfind. rewrite Hfind.
  cbn [fmap option_fmap option_map prod_map fst snd id wizard forms steps set_steps
       set_progressSteps set_progressLines set_prevBtn_visibility
       set_nextBtn_display set_calcBtn_display set_currentStep
       progressSteps progressLines prevBtn_visibility nextBtn_display
       calcBtn_display currentStep].
  rewrite length_alter, length_map.
  destruct (n =? Z.of_nat (length (steps w))) eqn:Hlast;
    cbn [wizard forms steps set_steps
       set_progressSteps set_progressLines set_prevBtn_visibility
       set_nextBtn_display set_calcBtn_display set_currentStep
       progressSteps progressLines prevBtn_visibility nextBtn_display
       calcBtn_display currentStep];
    (destruct (n =? 4);
     [ match goal with
       | |- context [renderChildren ?s] =>
           destruct (forms_only_renderChildren s) as ([] & fs & ->)
       end; exists fs
     | exists f ]);
    unfold shown; cbn [wizard steps progressSteps progressLines];
    rewrite ?Hlast; reflexivity.
Qed.

(** Without a panel for [n] the lookup yields [null] and the statement
    throws, after the panels were deactivated. *)
Lemma showStep_missing n st :
  list_find (fun p => data_step p = Some (JS.toString n)) (steps (wizard st)) = None ->
  showStep n st =
    (Throw "TypeError",
     on_wizard (fun w =>
       set_steps (map (panel_update (classList.remove "active")) (steps w)) w) st).
Proof.
  intros Hfind. destruct st as [w f].
  unfold showStep, querySelector_step, bind, modify, get, ret, on_wizard, throw.
  cbn [wizard forms steps set_steps fst snd].
  rewrite find_step_deactivated. cbn [wizard] in Hfind. by rewrite Hfind.
Qed.

Lemma steps_tagged_find st n :
  steps_tagged st = true -> 1 <= n <= totalSteps st ->
  exists k p,
    list_find (fun p => data_step p = Some (JS.toString n)) (steps (wizard st)) = Some (k, p).
Proof.
  intros Htag Hn. unfold steps_tagged in Htag.
  rewrite forallb_forall in Htag.
  specialize (Htag n). rewrite <-list_elem_of_In, elem_of_seqZ in Htag.
  specialize (Htag ltac:(lia)). unfold has_step in Htag.
  apply bool_decide_eq_true in Htag.
  apply Exists_exists in Htag as (p & Hin & Hp).
  destruct (list_find_elem_of (fun p => data_step p = Some (JS.toString n)) _ p Hin Hp)
    as [[k q] Hfind].
  by exists k, q.
Qed.

Lemma data_step_shown n k w :
  map data_step (steps (shown n k w)) = map data_step (steps w).
Proof.
  cbn [shown steps]. apply list_eq. intros i.
  rewrite !list_lookup_fmap. destruct (decide (k = i)) as [->|Hne].
  - rewrite list_lookup_alter_eq, list_lookup_fmap. by destruct (steps w !! i).
  - rewrite list_lookup_alter_ne, list_lookup_fmap by done. by destruct (steps w !! i).
Qed.

Lemma has_step_data_step st st' k :
  map data_step (steps (wizard st')) = map data_step (steps (wizard st)) ->
  has_step st' k = has_step st k.
Proof.
  intros Heq. unfold has_step. apply bool_decide_ext.
  rewrite !Exists_exists. split.
  - intros (p & Hin & Hp).
    assert (data_step p ∈ map data_step (steps (wizard st))) as Hd.
    { rewrite <-Heq. by apply list_elem_of_fmap_2. }
    apply list_elem_of_fmap in Hd as (q & Hq & Hin'). exists q.
    split; [done|congruence].
  - intros (p & Hin & Hp).
    assert (data_step p ∈ map data_step (steps (wizard st'))) as Hd.
    { rewrite Heq. by apply list_elem_of_fmap_2. }
    apply list_elem_of_fmap in Hd as (q & Hq & Hin'). exists q.
    split; [done|congruence].
Qed.

Lemma steps_tagged_showStep st n st' rc :
  showStep n st = (rc, st') ->
  totalSteps st' = totalSteps st /\ steps_tagged st' = steps_tagged st.
Proof.
  intros Hrun.
  assert (map data_step (steps (wizard st')) = map data_step (steps (wizard st))) as Hd.
  { destruct (list_find (fun p => data_step p = Some (JS.toString n)) (steps (wizard st)))
      as [[k p]|] eqn:Hfind.
    - destruct (showStep_found n st k p Hfind) as [fs Hrun'].
      rewrite Hrun' in Hrun. injection Hrun as _ <-. apply data_step_shown.
    - rewrite (showStep_missing n st Hfind) in Hrun. injection Hrun as _ <-.
      destruct st as [w f]. cbn. rewrite <-list_fmap_compose. by apply list_fmap_ext. }
  assert (totalSteps st' = totalSteps st) as Htot.
  { unfold totalSteps. by rewrite <-(length_map data_step), Hd, length_map. }
  split; [done|]. unfold steps_tagged. rewrite Htot.
  induction (seqZ 1 (totalSteps st)) as [|k l IH]; simpl; [done|].
  by rewrite IH, (has_step_data_step st st' k Hd).
Qed.

(** C1.  For every [n] from 1 to [totalSteps], [showStep n] completes
    and leaves exactly one step panel with the class [active]: the
    panel found for [data-step="n"], whose attribute is the decimal
    text of [n].  The attributes of the panels stay as they were. *)
Theorem showStep_exactly_one_active (st : State) (n : Z) :
  steps_tagged st = true -> 1 <= n <= totalSteps st ->
  exists st' k p,
    showStep n st = (Normal tt, st') /\
    steps (wizard st') !! k = Some p /\
    data_step p = Some (JS.toString n) /\
    (forall j q, steps (wizard st') !! j = Some q ->
       ("active" ∈ panel_classList q <-> j = k)) /\
    map data_step (steps (wizard st')) = map data_step (steps (wizard st)).
Proof.
  intros Htag Hn. destruct (steps_tagged_find st n Htag Hn) as (k & p & Hfind).
  destruct (showStep_found n st k p Hfind) as [fs Hrun].
  apply list_find_Some in Hfind as (Hk & Hp & _).
  eexists _, k, _. split; [exact Hrun|]. cbn [wizard shown steps].
  split_and!.
  - by rewrite list_lookup_alter_eq, list_lookup_fmap, Hk.
  - done.
  - intros j q. destruct (decide (k = j)) as [->|Hne].
    + rewrite list_lookup_alter_eq, list_lookup_fmap.
      destruct (steps (wizard st) !! j); [|done]. intros [= <-]. cbn.
      rewrite elem_of_classList_add. tauto.
    + rewrite list_lookup_alter_ne, list_lookup_fmap by done.
      destruct (steps (wizard st) !! j); [|done]. intros [= <-]. cbn.
      rewrite elem_of_classList_remove. split; [tauto|]. intros ->. done.
  - apply (data_step_shown n k (wizard st)).
Qed.

Lemma showStep_exactly_one_active_witness :
  steps_tagged sample_page = true /\ 1 <= 3 <= totalSteps sample_page /\
  exists st' k p,
    showStep 3 sample_page = (Normal tt, st') /\
    steps (wizard st') !! k = Some p /\
    data_step p = Some (JS.toString 3) /\
    (forall j q, steps (wizard st') !! j = Some q ->
       ("active" ∈ panel_classList q <-> j = k)) /\
    map data_step (steps (wizard st')) = map data_step (steps (wizard sample_page)).
Proof.
  assert (steps_tagged sample_page = true) as Htag by reflexivity.
  assert (1 <= 3 <= totalSteps sample_page) as Hn by (unfold totalSteps; simpl; lia).
  split; [exact Htag|]. split; [exact Hn|].
  exact (showStep_exactly_one_active sample_page 3 Htag Hn).
Defined.

(** C2.  For every [n] from 1 to [totalSteps], after [showStep n] the
    progress indicator at 1-based index [i] carries [completed] exactly
    when [i < n] and [active] exactly when [i = n], so neither of the
    two beyond [n] and never both; its other classes are those it had. *)
Theorem showStep_progress_indicators (st : State) (n : Z) :
  steps_tagged st = true -> 1 <= n <= totalSteps st ->
  exists st',
    showStep n st = (Normal tt, st') /\
    length (progressSteps (wizard st')) = length (progressSteps (wizard st)) /\
    forall (i : nat) (old : ClassList),
      progressSteps (wizard st) !! i = Some old ->
      exists cl,
        progressSteps (wizard st') !! i = Some cl /\
        ("completed" ∈ cl <-> Z.of_nat i + 1 < n) /\
        ("active" ∈ cl <-> Z.of_nat i + 1 = n) /\
        ~ ("active" ∈ cl /\ "completed" ∈ cl) /\
        (forall c, c <> "active" -> c <> "completed" -> (c ∈ cl <-> c ∈ old)).
Proof.
  intros Htag Hn. destruct (steps_tagged_find st n Htag Hn) as (k & p & Hfind).
  destruct (showStep_found n st k p Hfind) as [fs Hrun].
  eexists. split; [exact Hrun|]. cbn [wizard shown progressSteps].
  split; [by rewrite length_imap|].
  intros i old Hold. rewrite list_lookup_imap, Hold. cbn [fmap option_fmap option_map].
  eexists. split; [reflexivity|].
  destruct (Z.of_nat i + 1 =? n) eqn:Heq; [|destruct (Z.of_nat i + 1 <? n) eqn:Hlt];
    rewrite ?Z.eqb_eq, ?Z.eqb_neq, ?Z.ltb_lt, ?Z.ltb_ge in *;
    rewrite ?elem_of_classList_add, !elem_of_classList_remove;
    (split_and!; [| | |intros c ? ?; rewrite ?elem_of_classList_add, !elem_of_classList_remove]);
    intuition first [lia | congruence | done].
Qed.

Lemma showStep_progress_indicators_witness :
  steps_tagged sample_page = true /\ 1 <= 3 <= totalSteps sample_page /\
  exists st',
    showStep 3 sample_page = (Normal tt, st') /\
    length (progressSteps (wizard st')) = length (progressSteps (wizard sample_page)) /\
    forall (i : nat) (old : ClassList),
      progressSteps (wizard sample_page) !! i = Some old ->
      exists cl,
        progressSteps (wizard st') !! i = Some cl /\
        ("completed" ∈ cl <-> Z.of_nat i + 1 < 3) /\
        ("active" ∈ cl <-> Z.of_nat i + 1 = 3) /\
        ~ ("active" ∈ cl /\ "completed" ∈ cl) /\
        (forall c, c <> "active" -> c <> "completed" -> (c ∈ cl <-> c ∈ old)).
Proof.
  assert (steps_tagged sample_page = true) as Htag by reflexivity.
  assert (1 <= 3 <= totalSteps sample_page) as Hn by (unfold totalSteps; simpl; lia).
  split; [exact Htag|]. split; [exact Hn|].
  exact (showStep_progress_indicators sample_page 3 Htag Hn).
Defined.

(** C8.  For every [n] from 1 to [totalSteps], [showStep n] hides the
    previous button when [n = 1] and shows it otherwise; at
    [n = totalSteps] it hides the next control and shows the calculate
    control, and at every smaller index it does the inverse. *)
Theorem showStep_nav_buttons (st : State) (n : Z) :
  steps_tagged st = true -> 1 <= n <= totalSteps st ->
  exists st',
    showStep n st = (Normal tt, st') /\
    prevBtn_visibility (wizard st') = (if decide (n = 1) then "hidden" else "visible") /\
    nextBtn_display (wizard st') =
      (if decide (n = totalSteps st) then "none" else "inline-flex") /\
    calcBtn_display (wizard st') =
      (if decide (n = totalSteps st) then "inline-flex" else "none").
Proof.
  intros Htag Hn. destruct (steps_tagged_find st n Htag Hn) as (k & p & Hfind).
  destruct (showStep_found n st k p Hfind) as [fs Hrun].
  eexists. split; [exact Hrun|].
  cbn [wizard shown prevBtn_visibility nextBtn_display calcBtn_display].
  fold (totalSteps st).
  destruct (Z.eqb_spec n 1), (Z.eqb_spec n (totalSteps st));
    repeat case_decide; done.
Qed.

Lemma showStep_nav_buttons_witness :
  steps_tagged sample_page = true /\ 1 <= 5 <= totalSteps sample_page /\
  exists st',
    showStep 5 sample_page = (Normal tt, st') /\
    prevBtn_visibility (wizard st') = (if decide (5 = 1) then "hidden" else "visible") /\
    nextBtn_display (wizard st') =
      (if decide (5 = totalSteps sample_page) then "none" else "inline-flex") /\
    calcBtn_display (wizard st') =
      (if decide (5 = totalSteps sample_page) then "inline-flex" else "none").
Proof.
  assert (steps_tagged sample_page = true) as Htag by reflexivity.
  assert (1 <= 5 <= totalSteps sample_page) as Hn by (unfold totalSteps; simpl; lia).
  split; [exact Htag|]. split; [exact Hn|].
  exact (showStep_nav_buttons sample_page 5 Htag Hn).
Defined.

(** ** Next and previous *)

Lemma click_Next_unfold st :
  click Next st =
    if currentStep (wizard st) <? totalSteps st
    then (showStep (currentStep (wizard st) + 1) st).2 else st.
Proof.
  unfold click, run_handler, nextBtn_click, bind, get. cbn [fst snd].
  by case_match.
Qed.

Lemma click_Previous_unfold st :
  click Previous st =
    if 1 <? currentStep (wizard st)
    then (showStep (currentStep (wizard st) - 1) st).2 else st.
Proof.
  unfold click, run_handler, prevBtn_click, bind, get. cbn [fst snd].
  by case_match.
Qed.

Lemma showStep_currentStep st n :
  steps_tagged st = true -> 1 <= n <= totalSteps st ->
  currentStep (wizard (showStep n st).2) = n.
Proof.
  intros Htag Hn. destruct (steps_tagged_find st n Htag Hn) as (k & p & Hfind).
  destruct (showStep_found n st k p Hfind) as [fs ->]. done.
Qed.

Lemma click_step st :
  in_range st ->
  (currentStep (wizard st) = totalSteps st -> click Next st = st) /\
  (currentStep (wizard st) < totalSteps st ->
     currentStep (wizard (click Next st)) = currentStep (wizard st) + 1) /\
  (currentStep (wizard st) = 1 -> click Previous st = st) /\
  (1 < currentStep (wizard st) ->
     currentStep (wizard (click Previous st)) = currentStep (wizard st) - 1).
Proof.
  intros [Htag Hcur]. rewrite click_Next_unfold, click_Previous_unfold.
  destruct (Z.ltb_spec (currentStep (wizard st)) (totalSteps st)),
           (Z.ltb_spec 1 (currentStep (wizard st)));
    split_and!; intros; try lia; try done;
    apply showStep_currentStep; (done || lia).
Qed.

Lemma click_in_range c st :
  in_range st -> in_range (click c st) /\ totalSteps (click c st) = totalSteps st.
Proof.
  intros Hin. pose proof Hin as [Htag Hcur].
  destruct (click_step st Hin) as (Hlast & Hnext & Hfirst & Hprev).
  assert (forall n, totalSteps (showStep n st).2 = totalSteps st /\
                    steps_tagged (showStep n st).2 = true) as Hshow.
  { intros n. destruct (showStep n st) as [rc st'] eqn:Hrun.
    destruct (steps_tagged_showStep st n st' rc Hrun) as [? ?]. cbn [snd].
    split; [done|congruence]. }
  unfold in_range. destruct c.
  - destruct (decide (currentStep (wizard st) = totalSteps st)) as [Heq|Hne].
    { by rewrite (Hlast Heq). }
    rewrite (Hnext ltac:(lia)). rewrite click_Next_unfold.
    rewrite (proj2 (Z.ltb_lt _ _)) by lia.
    destruct (Hshow (currentStep (wizard st) + 1)) as [-> ->]. split_and!; (done || lia).
  - destruct (decide (currentStep (wizard st) = 1)) as [Heq|Hne].
    { by rewrite (Hfirst Heq). }
    rewrite (Hprev ltac:(lia)). rewrite click_Previous_unfold.
    rewrite (proj2 (Z.ltb_lt _ _)) by lia.
    destruct (Hshow (currentStep (wizard st) - 1)) as [-> ->]. split_and!; (done || lia).
Qed.

Lemma clicks_in_range cs st :
  in_range st -> in_range (clicks cs st) /\ totalSteps (clicks cs st) = totalSteps st.
Proof.
  revert st. induction cs as [|c cs IH]; intros st Hin; [done|].
  cbn [clicks foldl]. destruct (click_in_range c st Hin) as [Hin' Htot].
  destruct (IH _ Hin') as [? ?]. fold (clicks cs (click c st)). split; [done|congruence].
Qed.

(** C7.  Starting from step 1 and after any sequence of clicks on
    next and previous, the current step is between 1 and [totalSteps];
    there, next at the last step and previous at step 1 leave the state
    as it is, and otherwise next adds one to the current step and
    previous takes one off. *)
Theorem navigation_clamped (st : State) (cs : list Click) :
  steps_tagged st = true -> 1 <= totalSteps st -> currentStep (wizard st) = 1 ->
  let st' := clicks cs st in
  1 <= currentStep (wizard st') <= totalSteps st /\
  totalSteps st' = totalSteps st /\
  (currentStep (wizard st') = totalSteps st -> click Next st' = st') /\
  (currentStep (wizard st') < totalSteps st ->
     currentStep (wizard (click Next st')) = currentStep (wizard st') + 1) /\
  (currentStep (wizard st') = 1 -> click Previous st' = st') /\
  (1 < currentStep (wizard st') ->
     currentStep (wizard (click Previous st')) = currentStep (wizard st') - 1).
Proof.
  intros Htag Htot Hcur st'.
  assert (in_range st) as Hin by (split; [done|lia]).
  destruct (clicks_in_range cs st Hin) as [Hin' Htot']. fold st' in Hin', Htot'.
  destruct (click_step st' Hin') as (Hlast & Hnext & Hfirst & Hprev).
  destruct Hin' as [_ Hrange]. rewrite Htot' in *. done.
Qed.

Lemma navigation_clamped_witness :
  steps_tagged sample_page = true /\ 1 <= totalSteps sample_page /\
  currentStep (wizard sample_page) = 1 /\
  let st' := clicks [Next; Next; Previous; Next; Next; Next; Next; Next] sample_page in
  1 <= currentStep (wizard st') <= totalSteps sample_page /\
  totalSteps st' = totalSteps sample_page /\
  (currentStep (wizard st') = totalSteps sample_page -> click Next st' = st') /\
  (currentStep (wizard st') < totalSteps sample_page ->
     currentStep (wizard (click Next st')) = currentStep (wizard st') + 1) /\
  (currentStep (wizard st') = 1 -> click Previous st' = st') /\
  (1 < currentStep (wizard st') ->
     currentStep (wizard (click Previous st')) = currentStep (wizard st') - 1).
Proof.
  assert (steps_tagged sample_page = true) as Htag by reflexivity.
  assert (1 <= totalSteps sample_page) as Htot by (unfold totalSteps; simpl; lia).
  assert (currentStep (wizard sample_page) = 1) as Hcur by reflexivity.
  split; [exact Htag|]. split; [exact Htot|]. split; [exact Hcur|].
  exact (navigation_clamped sample_page _ Htag Htot Hcur).
Defined.

Example clicks_sample :
  currentStep (wizard (clicks [Next; Next; Previous; Next; Next; Next; Next; Next] sample_page)) = 5
  /\ currentStep (wizard (clicks [Previous; Previous] sample_page)) = 1.
Proof. vm_compute. done. Qed.

(** ** Elements and listeners *)

Lemma deref_update r r' f st :
  deref r' (update r f st) = if decide (r = r') then f <$> deref r' st else deref r' st.
Proof.
  destruct r as [k|g b k], r' as [k'|g' b' k']; simpl.
  - rewrite list_lookup_alter. repeat case_decide; congruence.
  - done.
  - by case_decide.
  - destruct (decide (g = generation (forms st))) as [Hg|Hg];
      cbn [on_forms forms set_children children generation].
    + destruct (decide (g' = generation (forms st))) as [Hg'|Hg'].
      * rewrite list_lookup_alter.
        destruct (decide (b = b')) as [->|Hb].
        { destruct (children (forms st) !! b') as [blk|] eqn:Hblk;
            cbn [mbind option_bind fmap option_fmap option_map].
          - rewrite list_lookup_alter. repeat case_decide; congruence.
          - by case_decide. }
        rewrite decide_False by congruence. done.
      * rewrite decide_False by congruence. done.
    + destruct (decide (Child g b k = Child g' b' k')) as [[= -> -> ->]|Hne]; [|done].
      by rewrite decide_False.
Qed.

Lemma deref_update_eq r f st : deref r (update r f st) = f <$> deref r st.
Proof. rewrite deref_update. by rewrite decide_True. Qed.

Lemma deref_update_ne r r' f st : r <> r' -> deref r' (update r f st) = deref r' st.
Proof. intros. rewrite deref_update. by rewrite decide_False. Qed.

Section Related.
Context (R : Element -> Element -> Prop) `{!Reflexive R, !Transitive R}.

Lemma related_refl st : related R st st.
Proof using Type*. intros r. destruct (deref r st); by constructor. Qed.

Lemma related_trans st1 st2 st3 :
  related R st1 st2 -> related R st2 st3 -> related R st1 st3.
Proof using Type*.
  intros H12 H23 r. specialize (H12 r). specialize (H23 r).
  destruct H12 as [e1 e2 ?|]; inversion H23 as [? e3 ?|]; constructor.
  by etrans.
Qed.

Lemma related_update r f st : (forall e, R e (f e)) -> related R st (update r f st).
Proof using Type*.
  intros Hf r'. rewrite deref_update.
  case_decide; destruct (deref r' st) as [e|]; simpl; by constructor.
Qed.
End Related.

#[local] Instance same_listeners_refl : Reflexive same_listeners.
Proof. by intros e. Qed.
#[local] Instance same_listeners_trans : Transitive same_listeners.
Proof. unfold same_listeners. intros e1 e2 e3. congruence. Qed.
#[local] Instance same_controls_refl : Reflexive same_controls.
Proof. by intros e. Qed.
#[local] Instance same_controls_trans : Transitive same_controls.
Proof. unfold same_controls. intros e1 e2 e3 [] []. split; congruence. Qed.

Lemma related_weaken (R R' : Element -> Element -> Prop) st st' :
  (forall e e', R e e' -> R' e e') -> related R st st' -> related R' st st'.
Proof. intros HR H r. destruct (H r); constructor; auto. Qed.

Lemma related_run_listener l st : related same_controls st (run_listener l st).
Proof.
  destruct l; simpl; try (apply related_update; [apply _..|]; by intros e).
  destruct (deref cb st); [|apply related_refl; apply _].
  apply related_update; [apply _..|]. by intros ?.
Qed.

Lemma related_foldl ls st :
  related same_controls st (foldl (fun s l => run_listener l s) st ls).
Proof.
  revert st. induction ls as [|l ls IH]; intros st; simpl; [apply related_refl; apply _|].
  eapply (related_trans same_controls); [apply related_run_listener | apply IH].
Qed.

Lemma related_dispatchEvent target type st :
  related same_controls st (dispatchEvent target type st).
Proof. apply related_foldl. Qed.

Lemma related_toggle_checkbox cb st :
  related same_listeners st (toggle_checkbox cb st).
Proof.
  unfold toggle_checkbox.
  apply (related_trans same_listeners _
           (update cb (fun e => set_el_checked (negb (el_checked e)) e) st)).
  - apply related_update; [apply _..|]. by intros e.
  - eapply related_weaken; [|apply related_dispatchEvent]. by intros e e' [_ ?].
Qed.

Lemma listeners_for_related type r st st' :
  related same_listeners st st' -> listeners_for type r st' = listeners_for type r st.
Proof.
  intros Hs. unfold listeners_for. destruct (Hs r) as [e e' Hl|]; [|done].
  by rewrite Hl.
Qed.

Lemma deref_related R r st st' e :
  related R st st' -> deref r st = Some e -> exists e', deref r st' = Some e' /\ R e e'.
Proof. intros Hs He. specialize (Hs r). rewrite He in Hs. inversion Hs. eauto. Qed.

(** A change of a checkbox whose last [change] listener is the closure
    of [bindToggle]: the flag flips and the section is visible exactly
    when the box is checked. *)
Lemma toggle_checkbox_bound cb section ls st c s :
  deref cb st = Some c -> deref section st = Some s ->
  listeners_for "change" cb st = ls ++ [toggle_visible cb section] ->
  exists c' s',
    deref cb (toggle_checkbox cb st) = Some c' /\
    deref section (toggle_checkbox cb st) = Some s' /\
    el_checked c' = negb (el_checked c) /\
    ("visible" ∈ el_classList s' <-> el_checked c' = true).
Proof.
  intros Hc Hs Hls. unfold toggle_checkbox, dispatchEvent.
  set (st0 := update cb (fun e => set_el_checked (negb (el_checked e)) e) st).
  assert (related same_listeners st st0) as H0.
  { apply related_update; [apply _..|]. by intros e. }
  rewrite (listeners_for_related _ _ _ _ H0), Hls, foldl_app. cbn [foldl].
  set (st2 := foldl (fun s l => run_listener l s) st0 ls).
  assert (related same_controls st0 st2) as H2 by apply related_foldl.
  assert (deref cb st0 = Some (set_el_checked (negb (el_checked c)) c)) as Hc0.
  { unfold st0. by rewrite deref_update_eq, Hc. }
  destruct (deref_related _ _ _ _ _ H2 Hc0) as (c2 & Hc2 & Hchk & _).
  destruct (deref_related _ _ _ _ _ H0 Hs) as (s0 & Hs0 & _).
  destruct (deref_related _ _ _ _ _ H2 Hs0) as (s2 & Hs2 & _).
  cbn [run_listener]. rewrite Hc2, !deref_update, Hs2, Hc2.
  cbn [fmap option_fmap option_map].
  destruct (decide (section = cb)) as [->|Hne].
  - rewrite Hs2 in Hc2. injection Hc2 as ->. rewrite decide_True by done.
    eexists _, _. split_and!; [done..| |].
    + cbn in Hchk |- *. congruence.
    + cbn. rewrite elem_of_classList_toggle. destruct (el_checked c2); intuition done.
  - rewrite decide_True by done.
    eexists _, _. split_and!; [done..| |].
    + cbn in Hchk |- *. congruence.
    + cbn. rewrite elem_of_classList_toggle. destruct (el_checked c2); intuition done.
Qed.

(** ** Lookups by id *)

Lemma find_id_Some id (l : list Element) k :
  find_id id l = Some k -> exists e, l !! k = Some e /\ el_id e = Some id.
Proof.
  unfold find_id. destruct (list_find _ l) as [[k' e]|] eqn:Hfind; [|done].
  intros [= <-]. apply list_find_Some in Hfind as (? & ? & _). eauto.
Qed.

Lemma find_in_blocks_Some id b0 (bs : list Block) b k :
  find_in_blocks id b0 bs = Some (b, k) ->
  exists blk e,
    (b0 <= b)%nat /\ bs !! (b - b0)%nat = Some blk /\ blk !! k = Some e /\
    el_id e = Some id.
Proof.
  revert b0. induction bs as [|blk bs IH]; intros b0; simpl; [done|].
  destruct (find_id id blk) as [k'|] eqn:Hfind.
  - intros [= <- <-]. destruct (find_id_Some _ _ _ Hfind) as (e & ? & ?).
    exists blk, e. rewrite Nat.sub_diag. done.
  - intros (blk' & e & Hle & Hblk & ? & ?)%IH. exists blk', e.
    split; [lia|]. replace (b - b0)%nat with (S (b - S b0)) by lia. done.
Qed.

(** The element [getElementById] returns is in the document and
    carries the id. *)
Lemma find_element_deref id st r :
  find_element id (forms st) = Some r ->
  exists e, deref r st = Some e /\ el_id e = Some id.
Proof.
  unfold find_element.
  destruct (find_id id (take _ _)) as [k|] eqn:Hbefore.
  { intros [= <-]. destruct (find_id_Some _ _ _ Hbefore) as (e & He & ?).
    exists e. split; [|done]. simpl.
    apply lookup_take_Some in He as [? ?]. done. }
  destruct (find_in_blocks id 0 _) as [[b k]|] eqn:Hin.
  { intros [= <-]. destruct (find_in_blocks_Some _ _ _ _ _ Hin) as (blk & e & _ & Hb & Hk & ?).
    exists e. split; [|done]. simpl. rewrite decide_True by done.
    rewrite Nat.sub_0_r in Hb. by rewrite Hb. }
  destruct (find_id id (drop _ _)) as [k|] eqn:Hafter; [|done].
  intros [= <-]. destruct (find_id_Some _ _ _ Hafter) as (e & He & ?).
  exists e. split; [|done]. simpl. by rewrite lookup_drop in He.
Qed.

Lemma listeners_for_addEventListener type target l st e :
  deref target st = Some e ->
  listeners_for type target
    (update target (fun e => set_el_listeners (el_listeners e ++ [(type, l)]) e) st)
  = listeners_for type target st ++ [l].
Proof.
  intros He. unfold listeners_for. rewrite deref_update_eq, He. cbn.
  rewrite filter_app, fmap_app. f_equal.
  rewrite filter_cons_True by done. done.
Qed.

(** After any number of changes the section follows the checkbox. *)
Lemma toggle_checkbox_iter cb section ls st c s (n : nat) :
  deref cb st = Some c -> deref section st = Some s ->
  listeners_for "change" cb st = ls ++ [toggle_visible cb section] ->
  exists c' s',
    deref cb (Nat.iter n (toggle_checkbox cb) st) = Some c' /\
    deref section (Nat.iter n (toggle_checkbox cb) st) = Some s' /\
    el_checked c' = Nat.iter n negb (el_checked c) /\
    listeners_for "change" cb (Nat.iter n (toggle_checkbox cb) st)
      = ls ++ [toggle_visible cb section] /\
    ((0 < n)%nat -> ("visible" ∈ el_classList s' <-> el_checked c' = true)).
Proof.
  intros Hc Hs Hls. induction n as [|n IH].
  { exists c, s. split_and!; [done..|lia]. }
  destruct IH as (cn & sn & Hcn & Hsn & Hchk & Hlsn & _).
  destruct (toggle_checkbox_bound cb section ls _ cn sn Hcn Hsn Hlsn)
    as (c' & s' & Hc' & Hs' & Hchk' & Hvis).
  exists c', s'. cbn [Nat.iter nat_rect]. fold (Nat.iter n (toggle_checkbox cb) st).
  split_and!; [done..| | |done].
  - rewrite Hchk'. by rewrite Hchk.
  - rewrite (listeners_for_related _ _ _ _ (related_toggle_checkbox cb _)). done.
Qed.

(** C6.  [bindToggle] returns without an error and leaves the state as
    it is when either id names no element.  When both are found, every
    later change of the checkbox flips its flag and leaves the section
    with the class [visible] exactly when the box is checked. *)
Theorem bindToggle_spec (st : State) (checkboxId sectionId : string) :
  match find_element checkboxId (forms st), find_element sectionId (forms st) with
  | Some cb, Some section =>
      exists st1 c0,
        bindToggle checkboxId sectionId st = (Normal tt, st1) /\
        deref cb st = Some c0 /\
        forall n : nat,
          let st' := Nat.iter (S n) (toggle_checkbox cb) st1 in
          exists c s,
            deref cb st' = Some c /\ deref section st' = Some s /\
            el_checked c = Nat.iter (S n) negb (el_checked c0) /\
            ("visible" ∈ el_classList s <-> el_checked c = true)
  | _, _ => bindToggle checkboxId sectionId st = (Normal tt, st)
  end.
Proof.
  unfold bindToggle, getElementById, bind, get, ret.
  destruct (find_element checkboxId (forms st)) as [cb|] eqn:Hcb;
    [destruct (find_element sectionId (forms st)) as [section|] eqn:Hsec|];
    [|done|by destruct (find_element sectionId (forms st))].
  destruct (find_element_deref _ _ _ Hcb) as (c0 & Hc0 & _).
  destruct (find_element_deref _ _ _ Hsec) as (s0 & Hs0 & _).
  unfold addEventListener, modify.
  set (st1 := update cb _ st).
  exists st1, c0. split_and!; [done..|]. intros n.
  assert (exists c1, deref cb st1 = Some c1 /\ el_checked c1 = el_checked c0)
    as (c1 & Hc1 & Hchk1).
  { unfold st1. rewrite deref_update_eq, Hc0. by eexists. }
  assert (exists s1, deref section st1 = Some s1) as (s1 & Hs1).
  { unfold st1. rewrite deref_update, Hs0. case_decide; by eexists. }
  pose proof (listeners_for_addEventListener "change" cb (toggle_visible cb section) st c0 Hc0)
    as Hls. fold st1 in Hls.
  destruct (toggle_checkbox_iter cb section _ st1 c1 s1 (S n) Hc1 Hs1 Hls)
    as (c & s & Hc & Hs & Hchk & _ & Hvis).
  exists c, s. split_and!; [done..| |apply Hvis; lia].
  by rewrite Hchk, Hchk1.
Qed.

(** ** Currency fields *)

Lemma digits_of_digits d : digits_only d = true -> digits_of d = d.
Proof.
  unfold digits_of. induction d as [|c r IH]; simpl; [done|].
  intros [Hc Hr]%andb_prop. unfold JS.non_digit at 1. by rewrite Hc, IH.
Qed.

(** *** Formatting beyond the safe integers *)

Lemma of_integer_nonneg a :
  0 <= a ->
  JS.of_integer a
  = if 2 ^ 1024 <=? JS.nearest_double a then JS.Infinity false
    else JS.Num (JS.nearest_double a).
Proof.
  intros Ha. unfold JS.of_integer. cbn zeta. rewrite Z.abs_eq by done.
  rewrite (proj2 (Z.ltb_ge a 0)) by done.
  destruct (2 ^ 1024 <=? JS.nearest_double a); [done|]. f_equal.
  destruct (decide (a = 0)) as [->|Hne]; [done|].
  rewrite Z.sgn_pos by lia. lia.
Qed.

Lemma shortest_nonneg z : 0 <= z -> 0 <= JS.shortest z.
Proof.
  intros Hz. destruct (decide (z = 0)) as [->|Hne]; [done|].
  pose proof (shortest_pos z ltac:(lia)). lia.
Qed.

Lemma nearest_double_nonneg a : 0 <= a -> 0 <= JS.nearest_double a.
Proof.
  intros Ha. destruct (decide (a = 0)) as [->|Hne]; [done|].
  pose proof (nearest_double_pos a ltac:(lia)). lia.
Qed.

(** The text printed for a finite number, and for an infinite one. *)
Lemma formatCurrency_finite s :
  digits_of s <> "" -> JS.nearest_double (amount_of s) < 2 ^ 1024 ->
  formatCurrency s
  = JS.group3 (JS.toString (JS.shortest (JS.nearest_double (amount_of s)))).
Proof.
  intros Hd Hfin. rewrite formatCurrency_number.
  destruct (digits_of s); [done|].
  rewrite of_integer_nonneg by apply amount_nonneg.
  rewrite (proj2 (Z.leb_gt _ _)) by done. cbn [JS.toLocaleString].
  by rewrite (proj2 (Z.ltb_ge _ 0)) by (apply nearest_double_nonneg, amount_nonneg).
Qed.

Lemma formatCurrency_infinite s :
  digits_of s <> "" -> 2 ^ 1024 <= JS.nearest_double (amount_of s) ->
  formatCurrency s = JS.infinity_sign.
Proof.
  intros Hd Hinf. rewrite formatCurrency_number.
  destruct (digits_of s); [done|].
  rewrite of_integer_nonneg by apply amount_nonneg.
  by rewrite (proj2 (Z.leb_le _ _)) by done.
Qed.

Lemma group3_not_infinity d :
  digits_only d = true -> d <> "" -> JS.group3 d <> JS.infinity_sign.
Proof.
  intros Hd Hne Heq. apply (f_equal digits_of) in Heq.
  rewrite digits_of_group3 in Heq by done. by subst d.
Qed.

(** The result is the infinity sign exactly when the number overflows. *)
Lemma formatCurrency_overflow s :
  formatCurrency s = JS.infinity_sign
  <-> digits_of s <> "" /\ 2 ^ 1024 <= JS.nearest_double (amount_of s).
Proof.
  split.
  - intros Hinf. assert (digits_of s <> "") as Hd.
    { intros Hd. rewrite formatCurrency_number, Hd in Hinf. done. }
    split; [done|].
    destruct (Z_lt_le_dec (JS.nearest_double (amount_of s)) (2 ^ 1024)) as [Hfin|]; [|done].
    rewrite (formatCurrency_finite s Hd Hfin) in Hinf.
    pose proof (shortest_nonneg _ (nearest_double_nonneg _ (amount_nonneg s))) as Hy.
    destruct (toString_digits _ Hy) as (Hdo & Hne & _).
    by destruct (group3_not_infinity _ Hdo Hne).
  - intros [Hd Hinf]. by apply formatCurrency_infinite.
Qed.

(** A text whose digits are the decimal text of [y]. *)
Lemma formatCurrency_reads t y :
  0 <= y -> digits_of t = JS.toString y ->
  formatCurrency t = JS.toLocaleString (JS.of_integer y).
Proof.
  intros Hy Ht. destruct (toString_digits y Hy) as (_ & Hne & Hval).
  rewrite formatCurrency_number. unfold amount_of. rewrite Ht, Hval.
  by destruct (JS.toString y).
Qed.

(** Unless the number overflows, formatting is idempotent, also with
    the commas removed in between. *)
Lemma formatCurrency_finite_round_trip s :
  formatCurrency s <> JS.infinity_sign ->
  formatCurrency (formatCurrency s) = formatCurrency s /\
  formatCurrency (JS.remove_all JS.comma (formatCurrency s)) = formatCurrency s.
Proof.
  intros Hfin. destruct (decide (digits_of s = "")) as [Hd|Hd].
  { rewrite (formatCurrency_number s), Hd. done. }
  assert (JS.nearest_double (amount_of s) < 2 ^ 1024) as Hlt.
  { destruct (Z_lt_le_dec (JS.nearest_double (amount_of s)) (2 ^ 1024)) as [|Hge]; [done|].
    destruct Hfin. by apply formatCurrency_infinite. }
  pose proof (amount_nonneg s) as Ha.
  pose proof (nearest_double_nonneg _ Ha) as Hz.
  pose proof (shortest_nonneg _ Hz) as Hy.
  destruct (toString_digits _ Hy) as (Hdo & Hne & Hval).
  rewrite (formatCurrency_finite s Hd Hlt).
  set (z := JS.nearest_double (amount_of s)) in *. set (y := JS.shortest z) in *.
  assert (JS.toLocaleString (JS.of_integer y) = JS.group3 (JS.toString y)) as Hprint.
  { rewrite of_integer_nonneg by done. unfold y, z.
    rewrite nearest_double_round_trip by done. fold z.
    rewrite (proj2 (Z.leb_gt _ _)) by done. cbn [JS.toLocaleString].
    by rewrite (proj2 (Z.ltb_ge _ 0)) by done. }
  split.
  - rewrite (formatCurrency_reads _ y Hy); [done|]. by apply digits_of_group3.
  - rewrite (formatCurrency_reads _ y Hy); [done|].
    rewrite strip_commas_group3 by done. by apply digits_of_digits.
Qed.

Lemma safe_not_overflow s : safe_amount s -> formatCurrency s <> JS.infinity_sign.
Proof.
  intros Hsafe [Hd Hinf]%formatCurrency_overflow.
  unfold safe_amount, JS.MAX_SAFE_INTEGER in Hsafe. pose proof (amount_nonneg s).
  rewrite nearest_double_safe in Hinf by lia.
  assert (2 ^ 53 <= 2 ^ 1024) by (apply Z.pow_le_mono_r; lia). lia.
Qed.

#[local] Arguments update : simpl never.
#[local] Arguments deref : simpl never.

(** A field that [bindCurrencyFormat] was bound to, once. *)
Lemma focus_blur_bound input st e :
  deref input st = Some e -> el_listeners e = [] ->
  let st1 := run_handler (bindCurrencyFormat input) st in
  el_value <$> deref input (focus input st1)
    = Some (JS.remove_all JS.comma (el_value e)) /\
  el_value <$> deref input (blur input (focus input st1))
    = Some (formatCurrency (JS.remove_all JS.comma (el_value e))).
Proof.
  intros He Hl st1.
  assert (deref input st1 =
            Some (set_el_listeners [("blur", format_on_blur input);
                                    ("focus", strip_on_focus input)] e)) as H1.
  { unfold st1, run_handler, bindCurrencyFormat, addEventListener, bind, modify.
    cbn [snd]. rewrite !deref_update_eq, He. cbn. by rewrite Hl. }
  assert (focus input st1 =
            update input (fun e => set_el_value (JS.remove_all JS.comma (el_value e)) e) st1)
    as Hfocus.
  { unfold focus, dispatchEvent, listeners_for. rewrite H1. done. }
  rewrite Hfocus. clear Hfocus.
  set (st2 := update input _ st1).
  assert (deref input st2
          = Some (set_el_value (JS.remove_all JS.comma (el_value e))
                    (set_el_listeners [("blur", format_on_blur input);
                                       ("focus", strip_on_focus input)] e))) as H2.
  { unfold st2. by rewrite deref_update_eq, H1. }
  split; [by rewrite H2|].
  assert (blur input st2 =
            update input (fun e => set_el_value (formatCurrency (el_value e)) e) st2)
    as ->.
  { unfold blur, dispatchEvent, listeners_for. rewrite H2. done. }
  by rewrite deref_update_eq, H2.
Qed.

(** C4, amended.  For every input string, [formatCurrency] drops every
    character that is not a digit and parses what is left.  Without a
    digit the parse is [NaN] and the result is the empty string.
    Otherwise the number parsed is the double nearest to the integer
    the digits denote.  Up to [2^53] it is that integer, and the result
    renders it with thousands separators: ["abcd"] gives [""],
    ["300000"] gives ["300,000"] and ["1234567"] gives ["1,234,567"].
    Above [2^53] the result renders, with thousands separators, the
    digits that are printed for the double; and when the double is
    beyond the largest one the number is [Infinity] and the result is
    the infinity sign. *)
Theorem formatCurrency_spec :
  (forall s : string,
     match JS.parseInt (digits_of s) with
     | JS.NaN => digits_of s = "" /\ formatCurrency s = ""
     | JS.Num z =>
         digits_of s <> "" /\ z = JS.nearest_double (amount_of s) /\ 0 <= z /\
         formatCurrency s = JS.toLocaleString (JS.Num z) /\
         thousands_separated (JS.shortest z) (formatCurrency s) /\
         (amount_of s <= 2 ^ 53 ->
          z = amount_of s /\ thousands_separated (amount_of s) (formatCurrency s))
     | JS.Infinity negative =>
         digits_of s <> "" /\ negative = false /\
         2 ^ 1024 <= JS.nearest_double (amount_of s) /\
         formatCurrency s = JS.infinity_sign
     end) /\
  formatCurrency "abcd" = "" /\
  formatCurrency "300000" = "300,000" /\
  formatCurrency "1234567" = "1,234,567".
Proof.
  split; [|by vm_compute].
  intros s. pose proof (amount_nonneg s) as Ha.
  pose proof (nearest_double_nonneg _ Ha) as Hz.
  rewrite (parseInt_digits _ (digits_only_digits_of s)). fold (amount_of s).
  destruct (decide (digits_of s = "")) as [Hd|Hd].
  { rewrite formatCurrency_number, Hd. done. }
  assert (match digits_of s with
          | EmptyString => JS.NaN
          | _ => JS.of_integer (amount_of s)
          end = JS.of_integer (amount_of s)) as -> by (by destruct (digits_of s)).
  rewrite of_integer_nonneg by done.
  destruct (Z.leb_spec (2 ^ 1024) (JS.nearest_double (amount_of s))) as [Hinf|Hfin].
  { split_and!; [done..|]. by apply formatCurrency_infinite. }
  assert (formatCurrency s
          = JS.group3 (JS.toString (JS.shortest (JS.nearest_double (amount_of s)))))
    as Hprint by (by apply formatCurrency_finite).
  split_and!; [done..| | |].
  - rewrite Hprint. cbn [JS.toLocaleString]. by rewrite (proj2 (Z.ltb_ge _ 0)).
  - rewrite Hprint. by apply group3_thousands, shortest_nonneg.
  - intros Hexact. destruct (double_exact (amount_of s) ltac:(lia)) as [Hn Hs].
    split; [done|]. rewrite Hprint, Hn, Hs. by apply group3_thousands.
Qed.

Lemma formatCurrency_spec_witness :
  amount_of "$ 1,234,567" <= 2 ^ 53 /\
  JS.parseInt (digits_of "$ 1,234,567") = JS.Num 1234567 /\
  formatCurrency "$ 1,234,567" = "1,234,567" /\
  thousands_separated (amount_of "$ 1,234,567") (formatCurrency "$ 1,234,567").
Proof.
  assert (amount_of "$ 1,234,567" <= 2 ^ 53) as Hexact by (by vm_compute).
  assert (JS.parseInt (digits_of "$ 1,234,567") = JS.Num 1234567) as Hparse
    by (by vm_compute).
  split; [exact Hexact|]. split; [exact Hparse|]. split; [by vm_compute|].
  pose proof (proj1 formatCurrency_spec "$ 1,234,567") as Hspec.
  rewrite Hparse in Hspec. destruct Hspec as (_ & _ & _ & _ & _ & Hsafe).
  exact (proj2 (Hsafe Hexact)).
Defined.

(** C4 as it is stated, for every input string, fails.  The number
    parsed is a double: the digits of [2^53 + 1] parse to [2^53], and
    the result renders [2^53], not the integer of the digits; the
    digits of [10^309] parse to [Infinity], and the result is the
    infinity sign, which renders no integer. *)
Lemma formatCurrency_spec_counterexample :
  amount_of "9007199254740993" = 9007199254740993 /\
  JS.parseInt (digits_of "9007199254740993") = JS.Num 9007199254740992 /\
  formatCurrency "9007199254740993" = "9,007,199,254,740,992" /\
  ~ thousands_separated 9007199254740993 (formatCurrency "9007199254740993") /\
  amount_of ten_pow_309 = 10 ^ 309 /\
  JS.parseInt (digits_of ten_pow_309) = JS.Infinity false /\
  formatCurrency ten_pow_309 = JS.infinity_sign /\
  formatCurrency ten_pow_309 <> "" /\
  ~ (exists z, 0 <= z /\ thousands_separated z (formatCurrency ten_pow_309)).
Proof.
  assert (formatCurrency ten_pow_309 = JS.infinity_sign) as Hinf
    by (vm_compute; reflexivity).
  split_and!.
  - vm_compute. reflexivity.
  - vm_compute. reflexivity.
  - vm_compute. reflexivity.
  - intros [Hdigits _]. vm_compute in Hdigits. discriminate Hdigits.
  - vm_compute. reflexivity.
  - vm_compute. reflexivity.
  - exact Hinf.
  - rewrite Hinf. discriminate.
  - intros (z & Hz & Hdigits & _). rewrite Hinf in Hdigits.
    destruct (toString_digits z Hz) as (Hdo & _). rewrite <-Hdigits in Hdo.
    vm_compute in Hdo. discriminate Hdo.
Qed.

(** C5, amended.  Formatting and stripping round-trip unless the
    number overflows.  For every string whose formatted value is not
    the infinity sign, formatting the formatted value again gives the
    same text, and so does removing its commas, as a focus does, and
    formatting it again, as a blur does.  So a bound field that shows
    such a formatted value shows it without commas after a focus and
    shows the same formatted value after the blur that follows; a
    field showing ["300,000"] shows ["300,000"] again.  The formatted
    value is the infinity sign when the double nearest to the integer
    of the digits is beyond the largest double, which takes 309
    digits. *)
Theorem formatCurrency_round_trip (s : string) :
  formatCurrency s <> JS.infinity_sign ->
  formatCurrency (formatCurrency s) = formatCurrency s /\
  formatCurrency (JS.remove_all JS.comma (formatCurrency s)) = formatCurrency s /\
  (forall st input e,
     deref input st = Some e -> el_listeners e = [] ->
     el_value e = formatCurrency s ->
     let st1 := run_handler (bindCurrencyFormat input) st in
     el_value <$> deref input (focus input st1)
       = Some (JS.remove_all JS.comma (formatCurrency s)) /\
     el_value <$> deref input (blur input (focus input st1))
       = Some (formatCurrency s)) /\
  formatCurrency (JS.remove_all JS.comma "300,000") = "300,000".
Proof.
  intros Hfin. destruct (formatCurrency_finite_round_trip s Hfin) as [Hidem Hstrip].
  split_and!; [done..| |by vm_compute].
  intros st input e He Hl Hv st1.
  destruct (focus_blur_bound input st e He Hl) as [Hfocus Hblur].
  fold st1 in Hfocus, Hblur. rewrite Hv in Hfocus, Hblur.
  by rewrite Hstrip in Hblur.
Qed.

Lemma formatCurrency_round_trip_witness :
  formatCurrency "300000" <> JS.infinity_sign /\
  formatCurrency "300000" = "300,000" /\
  formatCurrency (formatCurrency "300000") = formatCurrency "300000" /\
  formatCurrency (JS.remove_all JS.comma (formatCurrency "300000")) = formatCurrency "300000".
Proof.
  assert (formatCurrency "300000" <> JS.infinity_sign) as Hfin
    by (vm_compute; discriminate).
  split; [exact Hfin|]. split; [by vm_compute|].
  destruct (formatCurrency_round_trip "300000" Hfin) as (Hidem & Hstrip & _).
  split; [exact Hidem | exact Hstrip].
Defined.

(** C5 as it is stated, for every string, fails.  The digits of
    [10^309] are formatted as the infinity sign, which has no digit:
    formatting it again, with or without a focus before, gives the
    empty string. *)
Lemma formatCurrency_round_trip_counterexample :
  formatCurrency ten_pow_309 = JS.infinity_sign /\
  formatCurrency (formatCurrency ten_pow_309) = "" /\
  formatCurrency (formatCurrency ten_pow_309) <> formatCurrency ten_pow_309 /\
  formatCurrency (JS.remove_all JS.comma (formatCurrency ten_pow_309))
    <> formatCurrency ten_pow_309.
Proof.
  assert (formatCurrency ten_pow_309 = JS.infinity_sign) as Hinf
    by (vm_compute; reflexivity).
  rewrite !Hinf. split_and!.
  - reflexivity.
  - vm_compute. reflexivity.
  - vm_compute. discriminate.
  - vm_compute. discriminate.
Qed.

(** ** Rendering the child forms *)

Lemma erase_alter (f : Element -> Element) k (l : list Element) :
  (forall e, erase (f e) = erase e) -> map erase (alter f k l) = map erase l.
Proof.
  intros Hf. apply list_eq. intros j. rewrite !list_lookup_fmap, list_lookup_alter.
  case_decide; [subst|done]. destruct (l !! j); simpl; [|done]. by rewrite Hf.
Qed.

Lemma markup_update r f st :
  (forall e, erase (f e) = erase e) -> markup (forms (update r f st)) = markup (forms st).
Proof.
  intros Hf. destruct st as [w fs]. unfold update, markup, on_forms, set_children, set_static.
  destruct r as [k|g b k]; cbn.
  - by rewrite erase_alter.
  - case_decide; [|done]. cbn. f_equal.
    apply list_eq. intros j. rewrite !list_lookup_fmap, list_lookup_alter.
    case_decide; [subst|done].
    destruct (children fs !! j); simpl; [|done]. by rewrite erase_alter.
Qed.

Lemma childFormHTML_locations i st st' :
  ALL_LOCATIONS (forms st') = ALL_LOCATIONS (forms st) ->
  childFormHTML i st' = childFormHTML i st.
Proof. intros Hl. unfold childFormHTML, locationOptions. by rewrite Hl. Qed.

Lemma render_child_markup i st :
  exists st',
    render_child i st = (Normal tt, st') /\
    wizard st' = wizard st /\
    markup (forms st') =
      set_children (children (markup (forms st)) ++ [childFormHTML i st]) (markup (forms st)).
Proof.
  unfold render_child, insertAdjacentHTML, getElementById, bindCurrencyFormat,
    addEventListener, bind, get, modify, ret.
  repeat case_match; simplify_eq; eexists; (split; [reflexivity|]);
    rewrite ?wizard_update, ?markup_update by done;
    (split; [by destruct st|]);
    destruct st as [w fs]; unfold markup;
    cbn [forms on_forms set_static set_children static children];
    by rewrite fmap_app.
Qed.

Lemma for_range_markup count i st :
  exists st',
    for_range i count render_child st = (Normal tt, st') /\
    wizard st' = wizard st /\
    markup (forms st') =
      set_children
        (children (markup (forms st))
           ++ map (fun j => childFormHTML j st) (seqZ i (Z.of_nat count)))
        (markup (forms st)).
Proof.
  revert i st. induction count as [|count IH]; intros i st.
  { exists st. split_and!; [done..|]. cbn. rewrite app_nil_r. by destruct st as [w []]. }
  destruct (render_child_markup i st) as (st1 & Hrun1 & Hw1 & Hm1).
  destruct (IH (i + 1) st1) as (st2 & Hrun2 & Hw2 & Hm2).
  exists st2. cbn [for_range]. unfold bind at 1. rewrite Hrun1, Hrun2.
  split_and!; [done|congruence|].
  assert (ALL_LOCATIONS (forms st1) = ALL_LOCATIONS (forms st)) as Hloc.
  { apply (f_equal ALL_LOCATIONS) in Hm1. by destruct st as [w []], st1 as [w1 []]. }
  rewrite Hm2, Hm1. rewrite (seqZ_cons i) by lia. cbn [map set_children children].
  replace (Z.pred (Z.of_nat (S count))) with (Z.of_nat count) by lia.
  replace (Z.succ i) with (i + 1) by lia.
  rewrite (map_ext (fun j => childFormHTML j st1) (fun j => childFormHTML j st))
    by (intros; by apply childFormHTML_locations).
  rewrite <-app_assoc. reflexivity.
Qed.

Lemma renderChildren_no_iteration st :
  iterations (JS.parseInt (numChildrenSelect_value (forms st))) = O ->
  JS.gt0 (JS.parseInt (numChildrenSelect_value (forms st))) = false ->
  renderChildren st = (Normal tt, cleared st).
Proof.
  intros Hit Hgt. unfold renderChildren, clear_children, bind, get, modify, cleared.
  cbn [forms on_forms set_children set_generation numChildrenSelect_value].
  by rewrite Hit, Hgt.
Qed.

Lemma renderChildren_markup st :
  let n := JS.parseInt (numChildrenSelect_value (forms st)) in
  exists st',
    renderChildren st = (Normal tt, st') /\
    wizard st' = wizard st /\
    markup (forms st') =
      {| ALL_LOCATIONS := ALL_LOCATIONS (forms st);
         numChildrenSelect_value := numChildrenSelect_value (forms st);
         grandchildrenSection_display := if JS.gt0 n then "block" else "none";
         static := map erase (static (forms st));
         container_at := container_at (forms st);
         generation := S (generation (forms st));
         children := map (fun i => childFormHTML i st) (seqZ 0 (Z.of_nat (iterations n))) |}.
Proof.
  intros n. unfold renderChildren, clear_children, bind, get, modify. fold n.
  set (st0 := on_forms _ st).
  destruct (for_range_markup (iterations n) 0 st0) as (st1 & -> & Hw & Hm).
  eexists. split; [reflexivity|]. split; [by destruct st1, st|].
  assert (markup (forms (on_forms
            (set_grandchildrenSection_display (if JS.gt0 n then "block" else "none")) st1))
          = set_grandchildrenSection_display (if JS.gt0 n then "block" else "none")
              (markup (forms st1))) as -> by (by destruct st1 as [? []]).
  rewrite Hm.
  rewrite (map_ext (fun j => childFormHTML j st0) (fun j => childFormHTML j st))
    by (intros; apply childFormHTML_locations; by destruct st as [? []]).
  by destruct st as [? []].
Qed.

(** ** Identifiers of the generated fields *)

Lemma childFormHTML_ids i st : map el_id (childFormHTML i st) = block_ids i.
Proof. reflexivity. Qed.

Lemma el_id_erase (blk : list Element) : map el_id (map erase blk) = map el_id blk.
Proof. rewrite <-list_fmap_compose. by apply list_fmap_ext. Qed.

Lemma append_cons c r s : String c r +:+ s = String c (r +:+ s).
Proof. reflexivity. Qed.

Lemma append_empty s : "" +:+ s = s.
Proof. reflexivity. Qed.

Lemma digits_split d d' f f' :
  digits_only d = true -> digits_only d' = true ->
  d +:+ "_" +:+ f = d' +:+ "_" +:+ f' -> d = d' /\ f = f'.
Proof.
  revert d'. induction d as [|c r IH]; intros [|c' r'];
    cbn [digits_only]; rewrite ?append_cons, ?append_empty.
  - by intros _ _ [= ->].
  - intros _ [Hc _]%andb_prop [= <- _]. done.
  - intros [Hc _]%andb_prop _ [= -> _]. done.
  - intros [_ Hr]%andb_prop [_ Hr']%andb_prop [= -> Heq].
    destruct (IH r' Hr Hr' Heq) as [-> ->]. done.
Qed.

(** The id scheme is injective on the indices of the loop. *)
Lemma child_id_inj i j f f' :
  0 <= i -> 0 <= j -> child_id i f = child_id j f' -> i = j /\ f = f'.
Proof.
  intros Hi Hj. unfold child_id. intros Heq%(inj (String.append "child_")).
  destruct (toString_digits i Hi) as (Hdi & _ & Hvi).
  destruct (toString_digits j Hj) as (Hdj & _ & Hvj).
  destruct (digits_split _ _ _ _ Hdi Hdj Heq) as [Hd ->].
  split; [|done]. by rewrite <-Hvi, <-Hvj, Hd.
Qed.

Lemma NoDup_child_fields : NoDup child_fields.
Proof. apply (bool_decide_eq_true_1 (NoDup child_fields)). by vm_compute. Qed.

Lemma block_ids_lookup i k x :
  block_ids i !! k = Some (Some x) ->
  exists k0 f, k = S k0 /\ child_fields !! k0 = Some f /\ x = child_id i f.
Proof.
  destruct k as [|k0]; [done|]. unfold block_ids. rewrite lookup_cons.
  change (map ?f ?l) with (f <$> l). rewrite list_lookup_fmap. destruct (child_fields !! k0) as [f|] eqn:Hf; [|done].
  intros [= <-]. by exists k0, f.
Qed.

(** C3.  When the value of the count selector parses to a non-negative
    integer [N], [renderChildren] completes; what the container held
    before is gone from the document; the container holds exactly [N]
    blocks, block [i] being the markup of [childFormHTML i], whose
    elements carry the ids [child_i_age], ..., [child_i_annual_expenses];
    an id names one element of one block only; and the grandchildren
    section is shown exactly when [N > 0].  [N] is a safe integer,
    where the integers of the model are the numbers of the script. *)
Theorem renderChildren_spec (st : State) (N : Z) :
  JS.parseInt (numChildrenSelect_value (forms st)) = JS.Num N ->
  0 <= N <= JS.MAX_SAFE_INTEGER ->
  exists st',
    renderChildren st = (Normal tt, st') /\
    wizard st' = wizard st /\
    generation (forms st') = S (generation (forms st)) /\
    (forall b k, deref (Child (generation (forms st)) b k) st' = None) /\
    map (map erase) (children (forms st')) = map (fun i => childFormHTML i st) (seqZ 0 N) /\
    Z.of_nat (length (children (forms st'))) = N /\
    (forall (i : nat) (blk : Block),
       children (forms st') !! i = Some blk -> map el_id blk = block_ids (Z.of_nat i)) /\
    (forall (i j k k' : nat) (blk blk' : Block) (e e' : Element) (x : string),
       children (forms st') !! i = Some blk -> children (forms st') !! j = Some blk' ->
       blk !! k = Some e -> blk' !! k' = Some e' ->
       el_id e = Some x -> el_id e' = Some x -> i = j /\ k = k') /\
    grandchildrenSection_display (forms st') = (if decide (0 < N) then "block" else "none").
Proof.
  intros Hparse HN.
  destruct (renderChildren_markup st) as (st' & Hrun & Hw & Hm).
  rewrite Hparse in Hm. cbn [iterations JS.gt0] in Hm. rewrite Z2Nat.id in Hm by lia.
  assert (generation (forms st') = S (generation (forms st))) as Hgen.
  { apply (f_equal generation) in Hm. by destruct st' as [? []]. }
  assert (map (map erase) (children (forms st')) = map (fun i => childFormHTML i st) (seqZ 0 N))
    as Hch.
  { apply (f_equal children) in Hm. by destruct st' as [? []]. }
  assert (forall (i : nat) (blk : Block),
            children (forms st') !! i = Some blk -> map el_id blk = block_ids (Z.of_nat i))
    as Hids.
  { intros i blk Hblk.
    assert (map (map erase) (children (forms st')) !! i = Some (map erase blk)) as Hi.
    { by rewrite list_lookup_fmap, Hblk. }
    rewrite Hch, list_lookup_fmap in Hi.
    destruct (seqZ 0 N !! i) as [z|] eqn:Hz; [|done].
    apply lookup_seqZ in Hz as [-> _]. injection Hi as Hi.
    by rewrite <-el_id_erase, <-Hi, childFormHTML_ids, Z.add_0_l. }
  exists st'. split_and!; [done..| | | |done| |].
  - intros b k. unfold deref. rewrite decide_False; [done|]. rewrite Hgen. lia.
  - done.
  - rewrite <-(length_map (map erase)), Hch, length_map, length_seqZ. lia.
  - intros i j k k' blk blk' e e' x Hi Hj Hk Hk' He He'.
    pose proof (Hids i blk Hi) as Hb. pose proof (Hids j blk' Hj) as Hb'.
    assert (block_ids (Z.of_nat i) !! k = Some (Some x)) as Hx.
    { by rewrite <-Hb, list_lookup_fmap, Hk, <-He. }
    assert (block_ids (Z.of_nat j) !! k' = Some (Some x)) as Hx'.
    { by rewrite <-Hb', list_lookup_fmap, Hk', <-He'. }
    apply block_ids_lookup in Hx as (k0 & f & -> & Hf & ->).
    apply block_ids_lookup in Hx' as (k0' & f' & -> & Hf' & Heq).
    apply child_id_inj in Heq as [?%Nat2Z.inj <-]; [|lia..].
    split; [done|]. f_equal. by eapply NoDup_lookup; [apply NoDup_child_fields|..].
  - apply (f_equal grandchildrenSection_display) in Hm.
    destruct st' as [? []]. cbn in Hm |- *. rewrite Hm.
    destruct (Z.ltb_spec 0 N); case_decide; (done || lia).
Qed.

Lemma renderChildren_spec_witness :
  JS.parseInt (numChildrenSelect_value (forms sample_page)) = JS.Num 2 /\
  0 <= 2 <= JS.MAX_SAFE_INTEGER /\
  exists st',
    renderChildren sample_page = (Normal tt, st') /\
    Z.of_nat (length (children (forms st'))) = 2 /\
    grandchildrenSection_display (forms st') = "block".
Proof.
  assert (JS.parseInt (numChildrenSelect_value (forms sample_page)) = JS.Num 2)
    as Hparse by (by vm_compute).
  assert (0 <= 2 <= JS.MAX_SAFE_INTEGER) as HN by (by vm_compute).
  split; [exact Hparse|]. split; [exact HN|].
  destruct (renderChildren_spec sample_page 2 Hparse HN)
    as (st' & Hrun & _ & _ & _ & _ & Hlen & _ & _ & Hdisplay).
  exists st'. split; [exact Hrun|]. split; [exact Hlen | exact Hdisplay].
Defined.

(** C10.  When the value of the count selector does not parse,
    [renderChildren] completes, empties the container, renders no
    block and hides the grandchildren section: the state it leaves is
    the one it leaves for a value that parses to 0. *)
Theorem renderChildren_unparseable (st : State) :
  JS.parseInt (numChildrenSelect_value (forms st)) = JS.NaN ->
  renderChildren st = (Normal tt, cleared st) /\
  children (forms (cleared st)) = [] /\
  grandchildrenSection_display (forms (cleared st)) = "none" /\
  (forall b k, deref (Child (generation (forms st)) b k) (cleared st) = None) /\
  (forall st0,
     JS.parseInt (numChildrenSelect_value (forms st0)) = JS.Num 0 ->
     renderChildren st0 = (Normal tt, cleared st0)).
Proof.
  intros Hparse. split_and!; [|done..| |].
  - apply renderChildren_no_iteration; by rewrite Hparse.
  - intros b k. unfold deref, cleared. cbn. rewrite decide_False; [done|lia].
  - intros st0 H0. apply renderChildren_no_iteration; by rewrite H0.
Qed.

Lemma renderChildren_unparseable_witness :
  let st := on_forms (set_numChildrenSelect_value "none")
              (run_handler renderChildren sample_page) in
  JS.parseInt (numChildrenSelect_value (forms st)) = JS.NaN /\
  length (children (forms st)) = 2%nat /\
  renderChildren st = (Normal tt, cleared st) /\
  children (forms (cleared st)) = [].
Proof.
  intros st.
  assert (JS.parseInt (numChildrenSelect_value (forms st)) = JS.NaN) as Hparse
    by reflexivity.
  split; [exact Hparse|]. split; [by vm_compute|].
  destruct (renderChildren_unparseable st Hparse) as (Hrun & Hempty & _).
  split; [exact Hrun | exact Hempty].
Defined.

(** ** The listeners of the generated fields *)

Lemma find_id_ids id (l : list Element) :
  find_id id l = fst <$> list_find (fun o => o = Some id) (map el_id l).
Proof.
  unfold find_id. change (map el_id l) with (el_id <$> l). rewrite list_find_fmap.
  by destruct (list_find _ l) as [[]|].
Qed.

Lemma find_block_ids i j f k0 :
  0 <= i -> 0 <= j -> child_fields !! k0 = Some f ->
  fst <$> list_find (fun o => o = Some (child_id j f)) (block_ids i)
  = if decide (i = j) then Some (S k0) else None.
Proof.
  intros Hi Hj Hf. case_decide as Hij.
  - subst i.
    assert (list_find (fun o => o = Some (child_id j f)) (block_ids j)
            = Some (S k0, Some (child_id j f))) as ->; [|done].
    apply list_find_Some. split_and!.
    + unfold block_ids. rewrite lookup_cons.
      change (map ?g ?l) with (g <$> l). by rewrite list_lookup_fmap, Hf.
    + done.
    + intros k [x|] Hk Hlt; [|done]. intros [= ->].
      apply block_ids_lookup in Hk as (k1 & f1 & -> & Hf1 & Heq).
      apply child_id_inj in Heq as [_ ->]; [|done..].
      assert (k0 = k1) by (by eapply NoDup_lookup; [apply NoDup_child_fields|..]).
      lia.
  - assert (list_find (fun o => o = Some (child_id j f)) (block_ids i) = None) as ->; [|done].
    apply list_find_None, Forall_forall. intros [x|] Hin; [|done]. intros [= ->].
    apply list_elem_of_lookup in Hin as [k Hk].
    apply block_ids_lookup in Hk as (k1 & f1 & -> & Hf1 & Heq).
    apply child_id_inj in Heq as [? _]; done.
Qed.

Lemma child_id_prefix i f : String.prefix "child_" (child_id i f) = true.
Proof.
  unfold child_id. rewrite !append_cons, append_empty. cbn [String.prefix].
  repeat (destruct (ascii_dec _ _); [|done]). destruct (JS.toString i +:+ _); done.
Qed.

Lemma find_id_static_clear st i f k :
  static_ids_clear st = true ->
  find_id (child_id i f) (take k (static (forms st))) = None /\
  find_id (child_id i f) (drop k (static (forms st))) = None.
Proof.
  intros Hclear. unfold static_ids_clear in Hclear. rewrite forallb_forall in Hclear.
  assert (forall l : list Element, l ⊆ static (forms st) -> find_id (child_id i f) l = None)
    as Hnone.
  { intros l Hsub. unfold find_id.
    assert (list_find (fun e => el_id e = Some (child_id i f)) l = None) as ->; [|done].
    apply list_find_None, Forall_forall. intros e Hin He.
    specialize (Hclear e). rewrite <-list_elem_of_In in Hclear.
    specialize (Hclear (Hsub e Hin)). by rewrite He, child_id_prefix in Hclear. }
  split; apply Hnone.
  - apply sublist_subseteq, sublist_take.
  - apply sublist_subseteq, sublist_drop.
Qed.

Lemma find_in_blocks_last id (bs : list Block) blk b0 k :
  (forall blk', blk' ∈ bs -> find_id id blk' = None) ->
  find_id id blk = Some k ->
  find_in_blocks id b0 (bs ++ [blk]) = Some ((b0 + length bs)%nat, k).
Proof.
  revert b0. induction bs as [|blk' bs IH]; intros b0 Hbs Hblk; simpl.
  - rewrite Hblk. by rewrite Nat.add_0_r.
  - rewrite (Hbs blk') by left. rewrite IH; [|by intros; apply Hbs; right|done].
    f_equal. f_equal. lia.
Qed.

Lemma find_element_last st (bs : list Block) blk j f k0 :
  static_ids_clear st = true -> ids_by_index bs -> length bs = j ->
  map el_id blk = block_ids (Z.of_nat j) -> child_fields !! k0 = Some f ->
  find_element (child_id (Z.of_nat j) f) (forms (with_children (bs ++ [blk]) st))
  = Some (Child (generation (forms st)) j (S k0)).
Proof.
  intros Hclear Hids Hlen Hblk Hf. unfold find_element, with_children.
  cbn [forms on_forms set_children static container_at children generation].
  destruct (find_id_static_clear st (Z.of_nat j) f (container_at (forms st)) Hclear)
    as [-> _].
  rewrite (find_in_blocks_last _ bs blk 0 (S k0)).
  - by rewrite Hlen.
  - intros blk' [i Hi]%list_elem_of_lookup.
    rewrite find_id_ids, (Hids i blk' Hi).
    rewrite (find_block_ids _ _ _ k0) by (done || lia).
    apply lookup_lt_Some in Hi. rewrite decide_False by lia. done.
  - rewrite find_id_ids, Hblk, (find_block_ids _ _ _ k0) by (done || lia).
    by rewrite decide_True.
Qed.

Lemma update_last st (bs : list Block) blk k f :
  update (Child (generation (forms st)) (length bs) k) f (with_children (bs ++ [blk]) st)
  = with_children (bs ++ [alter f k blk]) st.
Proof.
  unfold update, with_children. cbn [forms on_forms set_children generation].
  rewrite decide_True by done. unfold on_forms. cbn [forms wizard set_children children].
  replace (length bs) with (length bs + 0)%nat at 1 by lia.
  rewrite alter_app_r. by destruct st as [? []].
Qed.

Lemma ids_alter_listeners k ls (blk : list Element) :
  map el_id (alter (fun e => set_el_listeners (ls e) e) k blk) = map el_id blk.
Proof.
  apply list_eq. intros i. change (map ?g ?l) with (g <$> l).
  rewrite !list_lookup_fmap, list_lookup_alter.
  case_decide; [subst|done]. by destruct (blk !! i).
Qed.

Lemma render_child_exact st (j : nat) :
  static_ids_clear st = true -> ids_by_index (children (forms st)) ->
  length (children (forms st)) = j ->
  render_child (Z.of_nat j) st
  = (Normal tt,
     with_children (children (forms st) ++ [rendered_block (generation (forms st)) j st]) st).
Proof.
  intros Hclear Hids Hlen.
  unfold render_child, insertAdjacentHTML, getElementById, bindCurrencyFormat,
    addEventListener, bind, get, modify, ret.
  change (on_forms (fun fs => set_children (children fs ++ [childFormHTML (Z.of_nat j) st]) fs) st)
    with (with_children (children (forms st) ++ [childFormHTML (Z.of_nat j) st]) st).
  set (bs := children (forms st)) in *.
  rewrite (find_element_last st bs _ j "buy_house" 3) by done.
  rewrite (find_element_last st bs _ j "house_section" 4) by done.
  rewrite <-Hlen. rewrite update_last.
  rewrite (find_element_last st bs _ (length bs) "annual_expenses" 7);
    [|try done; by rewrite ids_alter_listeners..].
  rewrite !update_last. reflexivity.
Qed.

Lemma rendered_block_ids g i st : map el_id (rendered_block g i st) = block_ids (Z.of_nat i).
Proof. reflexivity. Qed.

Lemma for_range_exact count (j : nat) st :
  static_ids_clear st = true -> ids_by_index (children (forms st)) ->
  length (children (forms st)) = j ->
  for_range (Z.of_nat j) count render_child st
  = (Normal tt,
     with_children
       (children (forms st)
          ++ map (fun i => rendered_block (generation (forms st)) i st) (seq j count)) st).
Proof.
  revert j st. induction count as [|count IH]; intros j st Hclear Hids Hlen.
  { cbn. rewrite app_nil_r. by destruct st as [? []]. }
  cbn [for_range]. unfold bind at 1. rewrite (render_child_exact st j Hclear Hids Hlen).
  replace (Z.of_nat j + 1) with (Z.of_nat (S j)) by lia.
  rewrite IH.
  - cbn [with_children forms on_forms set_children children generation seq map].
    rewrite <-app_assoc. cbn [app]. unfold with_children, on_forms.
    cbn [wizard forms set_children]. by destruct st as [? []].
  - done.
  - intros i blk. cbn [with_children forms on_forms set_children children].
    intros [[_ Hi]|[-> <-]]%lookup_snoc_Some.
    + by apply Hids.
    + rewrite Hlen. apply rendered_block_ids.
  - cbn [with_children forms on_forms set_children children].
    rewrite length_app. cbn. lia.
Qed.

Lemma renderChildren_exact st :
  static_ids_clear st = true -> renderChildren st = (Normal tt, rendered st).
Proof.
  intros Hclear. unfold renderChildren, clear_children, bind, get, modify.
  set (n := JS.parseInt _). set (st0 := on_forms _ st).
  assert (ids_by_index (children (forms st0))) as Hids by (by intros []).
  pose proof (for_range_exact (iterations n) 0 st0 Hclear Hids eq_refl) as Hloop.
  change (Z.of_nat 0) with 0 in Hloop. rewrite Hloop.
  unfold rendered, st0, with_children, on_forms. fold n.
  by destruct st as [? []].
Qed.

Lemma find_in_blocks_app id b0 (bs rest : list Block) r :
  find_in_blocks id b0 bs = Some r -> find_in_blocks id b0 (bs ++ rest) = Some r.
Proof.
  revert b0. induction bs as [|blk bs IH]; intros b0; simpl; [done|].
  destruct (find_id id blk); [done|]. apply IH.
Qed.

(** On such a page [getElementById] finds the fields of child [i] in
    block [i]. *)
Lemma find_element_block st (i : nat) (blk : Block) f k0 :
  static_ids_clear st = true -> ids_by_index (children (forms st)) ->
  children (forms st) !! i = Some blk -> child_fields !! k0 = Some f ->
  find_element (child_id (Z.of_nat i) f) (forms st)
  = Some (Child (generation (forms st)) i (S k0)).
Proof.
  intros Hclear Hids Hblk Hf.
  pose proof (take_drop_middle _ _ _ Hblk) as Hsplit.
  assert (ids_by_index (take i (children (forms st)))) as Hids'.
  { intros j blk' Hj. apply lookup_take_Some in Hj as [Hj _]. by apply Hids. }
  pose proof (find_element_last st (take i (children (forms st))) blk i f k0 Hclear Hids')
    as Hlast.
  rewrite length_take_le in Hlast by (apply lookup_lt_Some in Hblk; lia).
  specialize (Hlast eq_refl (Hids i blk Hblk) Hf).
  unfold find_element, with_children in *.
  cbn [forms on_forms set_children static container_at children generation] in Hlast.
  destruct (find_id_static_clear st (Z.of_nat i) f (container_at (forms st)) Hclear)
    as [Hbefore _].
  rewrite Hbefore in *. rewrite <-Hsplit.
  destruct (find_in_blocks _ 0 (take i (children (forms st)) ++ [blk])) as [[b k]|] eqn:Hfind.
  2: { by destruct (find_id _ (drop _ _)). }
  rewrite cons_middle, app_assoc, (find_in_blocks_app _ _ _ _ _ Hfind). done.
Qed.

(** ** The house toggle of a child *)

Lemma toggle_checkbox_single cb section st c :
  deref cb st = Some c ->
  (filter (fun tl => tl.1 = "change") (el_listeners c)).*2 = [toggle_visible cb section] ->
  toggle_checkbox cb st
  = update section
      (fun e => set_el_classList
                  (classList.toggle "visible" (negb (el_checked c)) (el_classList e)) e)
      (update cb (fun e => set_el_checked (negb (el_checked e)) e) st).
Proof.
  intros Hc Hls. unfold toggle_checkbox, dispatchEvent, listeners_for.
  rewrite deref_update_eq, Hc. cbn [fmap option_fmap option_map set_el_checked el_listeners].
  rewrite Hls. cbn [foldl run_listener]. by rewrite deref_update_eq, Hc.
Qed.

Lemma update_fixed r f st e : deref r st = Some e -> f e = e -> update r f st = st.
Proof.
  intros He Hf. destruct st as [w fs]. unfold update, deref in *.
  destruct r as [k|g b k]; cbn [forms on_forms] in *.
  - assert (alter f k (static fs) = static fs) as Hl.
    { apply list_eq. intros j. rewrite list_lookup_alter.
      case_decide; [subst|done]. by rewrite He; cbn; rewrite Hf. }
    unfold on_forms. cbn [forms wizard]. rewrite Hl. by destruct fs.
  - case_decide; [|done].
    destruct (children fs !! b) as [blk|] eqn:Hblk; [|done]. cbn in He.
    assert (alter (alter f k) b (children fs) = children fs) as Hl.
    { apply list_eq. intros j. rewrite list_lookup_alter.
      case_decide; [subst|done]. rewrite Hblk. cbn. f_equal.
      apply list_eq. intros j'. rewrite list_lookup_alter.
      case_decide; [subst|done]. by rewrite He; cbn; rewrite Hf. }
    unfold on_forms. cbn [forms wizard]. rewrite Hl. by destruct fs.
Qed.

Lemma update_update r f g st : update r f (update r g st) = update r (f ∘ g) st.
Proof.
  destruct st as [w fs]. unfold update. destruct r as [k|gen b k]; cbn [forms on_forms].
  - unfold on_forms, set_static. cbn. by rewrite list_alter_alter_eq.
  - destruct (decide (gen = generation fs)) as [Hg|Hg];
      cbn [forms on_forms generation set_children];
      [rewrite decide_True by done|by rewrite decide_False].
    unfold on_forms, set_children. cbn. rewrite list_alter_alter_eq. do 2 f_equal.
    apply list_alter_ext; [|done]. intros blk _. cbn. by rewrite list_alter_alter_eq.
Qed.

Lemma update_comm r r' f g st :
  r <> r' -> update r f (update r' g st) = update r' g (update r f st).
Proof.
  intros Hne. destruct st as [w fs]. unfold update.
  destruct r as [k|gen b k], r' as [k'|gen' b' k']; cbn [forms on_forms].
  - unfold on_forms, set_static. cbn. rewrite list_alter_alter_ne by congruence. done.
  - destruct (decide (gen' = generation fs)) as [Hg'|Hg'];
      cbn [forms on_forms generation set_static];
      rewrite ?(decide_True (P:=gen' = generation fs)),
              ?(decide_False (P:=gen' = generation fs)) by done; [|done].
    unfold on_forms, set_children, set_static. by cbn.
  - destruct (decide (gen = generation fs)) as [Hg|Hg];
      cbn [forms on_forms generation set_static];
      rewrite ?(decide_True (P:=gen = generation fs)),
              ?(decide_False (P:=gen = generation fs)) by done; [|done].
    unfold on_forms, set_children, set_static. by cbn.
  - destruct (decide (gen = generation fs)) as [Hg|Hg],
             (decide (gen' = generation fs)) as [Hg'|Hg'];
      cbn [forms on_forms generation set_children];
      rewrite ?(decide_True (P:=gen = generation fs)),
              ?(decide_True (P:=gen' = generation fs)),
              ?(decide_False (P:=gen = generation fs)),
              ?(decide_False (P:=gen' = generation fs)) by done; try done.
    unfold on_forms, set_children. cbn. do 2 f_equal.
    destruct (decide (b = b')) as [->|Hb].
    + rewrite !list_alter_alter_eq. apply list_alter_ext; [|done].
      intros blk _. cbn. rewrite list_alter_alter_ne by congruence. done.
    + by rewrite list_alter_alter_ne.
Qed.

(** A write to an element of block [b] leaves the wizard, the forms
    outside the container and the other blocks as they are. *)
Lemma update_child_frame g b k f st :
  wizard (update (Child g b k) f st) = wizard st /\
  set_children [] (forms (update (Child g b k) f st)) = set_children [] (forms st) /\
  forall j, j <> b ->
    children (forms (update (Child g b k) f st)) !! j = children (forms st) !! j.
Proof.
  destruct st as [w fs]. unfold update. cbn [forms].
  destruct (decide (g = generation fs)); [|done].
  split_and!; [done..|]. intros j Hj. cbn. by rewrite list_lookup_alter_ne.
Qed.

Lemma rendered_children st (i : nat) :
  (i < iterations (JS.parseInt (numChildrenSelect_value (forms st))))%nat ->
  children (forms (rendered st)) !! i
  = Some (rendered_block (S (generation (forms st))) i st).
Proof.
  intros Hi. unfold rendered. cbn [forms on_forms children set_children
    set_grandchildrenSection_display].
  change (map ?g ?l) with (g <$> l). by rewrite list_lookup_fmap, lookup_seq_lt.
Qed.

Lemma rendered_ids st : ids_by_index (children (forms (rendered st))).
Proof.
  intros i blk. unfold rendered. cbn [forms on_forms children set_children
    set_grandchildrenSection_display].
  change (map ?g ?l) with (g <$> l). rewrite list_lookup_fmap.
  destruct (seq _ _ !! i) as [j|] eqn:Hj; [|done].
  apply lookup_seq in Hj as [-> _]. intros [= <-]. apply rendered_block_ids.
Qed.

(** C9.  After [renderChildren] has rendered [N >= 2] blocks on a page
    whose static ids are clear of the scheme, turning the buy-house
    checkbox of child [i] off hides the house section of child [i] and
    turning it on again shows it, which restores the state; nothing
    else changes meanwhile: the wizard, the forms outside the
    container, the blocks of the other children and the other elements
    of block [i] are as they were. *)
Theorem child_house_toggle (st : State) (N : Z) (i : nat) :
  static_ids_clear st = true ->
  JS.parseInt (numChildrenSelect_value (forms st)) = JS.Num N ->
  2 <= N <= JS.MAX_SAFE_INTEGER -> Z.of_nat i < N ->
  exists st' cb section,
    renderChildren st = (Normal tt, st') /\
    find_element (child_id (Z.of_nat i) "buy_house") (forms st') = Some cb /\
    find_element (child_id (Z.of_nat i) "house_section") (forms st') = Some section /\
    shows cb section st' true /\
    let off := toggle_checkbox cb st' in
    shows cb section off false /\
    toggle_checkbox cb off = st' /\
    wizard off = wizard st' /\
    set_children [] (forms off) = set_children [] (forms st') /\
    (forall j, j <> i -> children (forms off) !! j = children (forms st') !! j) /\
    (forall r, r <> cb -> r <> section -> deref r off = deref r st').
Proof.
  intros Hclear Hparse HN Hi.
  set (g := S (generation (forms st))).
  assert (generation (forms (rendered st)) = g) as Hgen by done.
  assert (static_ids_clear (rendered st) = true) as Hclear' by exact Hclear.
  assert (children (forms (rendered st)) !! i = Some (rendered_block g i st)) as Hblk.
  { apply rendered_children. rewrite Hparse. cbn. lia. }
  exists (rendered st), (Child g i 4), (Child g i 5).
  split; [by apply renderChildren_exact|].
  split.
  { rewrite (find_element_block _ i _ "buy_house" 3 Hclear' (rendered_ids st) Hblk) by done.
    by rewrite Hgen. }
  split.
  { rewrite (find_element_block _ i _ "house_section" 4 Hclear' (rendered_ids st) Hblk) by done.
    by rewrite Hgen. }
  set (st' := rendered st) in *. set (cb := Child g i 4). set (section := Child g i 5).
  assert (cb <> section) as Hne by done.
  assert (exists c0, deref cb st' = Some c0 /\ el_checked c0 = true /\
            (filter (fun tl => tl.1 = "change") (el_listeners c0)).*2
              = [toggle_visible cb section]) as (c0 & Hc0 & Hchk0 & Hls0).
  { eexists. unfold deref, cb. rewrite decide_True, Hblk by done. split; [reflexivity|done]. }
  assert (exists s0, deref section st' = Some s0 /\
            el_classList s0 = ["conditional-section"; "visible"]) as (s0 & Hs0 & Hcl0).
  { eexists. unfold deref, section. rewrite decide_True, Hblk by done.
    split; [reflexivity|done]. }
  split.
  { exists c0, s0. split_and!; [done..|]. rewrite Hcl0. split; [done|]. intros _. repeat constructor. }
  intros off.
  assert (off = update section
                  (fun e => set_el_classList
                     (classList.toggle "visible" false (el_classList e)) e)
                  (update cb (fun e => set_el_checked (negb (el_checked e)) e) st'))
    as Hoff.
  { unfold off. rewrite (toggle_checkbox_single cb section st' c0 Hc0 Hls0).
    by rewrite Hchk0. }
  assert (deref cb off = Some (set_el_checked false c0)) as Hcoff.
  { rewrite Hoff, deref_update_ne, deref_update_eq, Hc0 by done. cbn. by rewrite Hchk0. }
  assert (deref section off
          = Some (set_el_classList (classList.toggle "visible" false (el_classList s0)) s0))
    as Hsoff.
  { rewrite Hoff, deref_update_eq, deref_update_ne, Hs0 by done. done. }
  split_and!.
  - eexists _, _. split_and!; [done..|]. cbn [el_classList set_el_classList].
    rewrite elem_of_classList_toggle. split; [by intros [? _]|done].
  - rewrite (toggle_checkbox_single cb section off _ Hcoff Hls0). cbn [el_checked set_el_checked negb].
    rewrite Hoff. rewrite (update_comm cb section) by done.
    rewrite !update_update.
    rewrite (update_fixed cb _ st' c0 Hc0).
    + apply (update_fixed section _ st' s0 Hs0). destruct s0. cbn in Hcl0 |- *.
      by rewrite Hcl0.
    + destruct c0. cbn in Hchk0 |- *. by rewrite Hchk0.
  - rewrite Hoff. by rewrite !wizard_update.
  - rewrite Hoff. unfold cb, section.
    destruct (update_child_frame g i 5
                (fun e => set_el_classList (classList.toggle "visible" false (el_classList e)) e)
                (update (Child g i 4) (fun e => set_el_checked (negb (el_checked e)) e) st'))
      as (_ & -> & _).
    by destruct (update_child_frame g i 4
                   (fun e => set_el_checked (negb (el_checked e)) e) st') as (_ & -> & _).
  - intros j Hj. rewrite Hoff. unfold cb, section.
    destruct (update_child_frame g i 5
                (fun e => set_el_classList (classList.toggle "visible" false (el_classList e)) e)
                (update (Child g i 4) (fun e => set_el_checked (negb (el_checked e)) e) st'))
      as (_ & _ & ->); [|done].
    by destruct (update_child_frame g i 4
                   (fun e => set_el_checked (negb (el_checked e)) e) st') as (_ & _ & ->).
  - intros r Hr Hr'. rewrite Hoff. by rewrite !deref_update_ne.
Qed.

Lemma child_house_toggle_witness :
  static_ids_clear sample_page = true /\
  JS.parseInt (numChildrenSelect_value (forms sample_page)) = JS.Num 2 /\
  2 <= 2 <= JS.MAX_SAFE_INTEGER /\ Z.of_nat 1 < 2 /\
  exists st' cb section,
    renderChildren sample_page = (Normal tt, st') /\
    find_element (child_id (Z.of_nat 1) "buy_house") (forms st') = Some cb /\
    shows cb section st' true /\
    shows cb section (toggle_checkbox cb st') false /\
    toggle_checkbox cb (toggle_checkbox cb st') = st' /\
    children (forms (toggle_checkbox cb st')) !! 0%nat = children (forms st') !! 0%nat.
Proof.
  assert (static_ids_clear sample_page = true) as Hclear by reflexivity.
  assert (JS.parseInt (numChildrenSelect_value (forms sample_page)) = JS.Num 2)
    as Hparse by (by vm_compute).
  assert (2 <= 2 <= JS.MAX_SAFE_INTEGER) as HN by (by vm_compute).
  assert (Z.of_nat 1 < 2) as Hi by (by vm_compute).
  split; [exact Hclear|]. split; [exact Hparse|]. split; [exact HN|]. split; [exact Hi|].
  destruct (child_house_toggle sample_page 2 1 Hclear Hparse HN Hi)
    as (st' & cb & section & Hrun & Hcb & _ & Hon & Hoff & Hback & _ & _ & Hothers & _).
  exists st', cb, section.
  split; [exact Hrun|]. split; [exact Hcb|]. split; [exact Hon|]. split; [exact Hoff|].
  split; [exact Hback|]. apply Hothers. discriminate.
Defined.

(** ** Page load *)

Lemma forms_only_bindToggle a b : forms_only (bindToggle a b).
Proof.
  unfold bindToggle.
  repeat first
    [ solve [auto with forms_only]
    | apply forms_only_bind; [|intros ?]
    | case_match ].
Qed.

Lemma forms_only_bindCurrencyFormat r : forms_only (bindCurrencyFormat r).
Proof. unfold bindCurrencyFormat. apply forms_only_bind; auto with forms_only. Qed.

Lemma forms_only_forEach rs callback :
  (forall r, forms_only (callback r)) -> forms_only (forEach rs callback).
Proof.
  intros Hcb. induction rs as [|r rs IH]; simpl; [apply forms_only_ret|].
  apply forms_only_bind; [apply Hcb | intros _; apply IH].
Qed.

(** On a page whose panels are tagged, loading completes with step 1
    shown. *)
Lemma main_loaded st :
  steps_tagged st = true -> 1 <= totalSteps st ->
  exists st',
    main st = (Normal tt, st') /\ currentStep (wizard st') = 1 /\
    steps_tagged st' = true /\ totalSteps st' = totalSteps st.
Proof.
  intros Htag Htot. unfold main. unfold bind at 1, modify at 1.
  set (st0 := on_wizard (set_currentStep 1) st).
  assert (steps_tagged st0 = true /\ totalSteps st0 = totalSteps st) as [Htag0 Htot0].
  { by destruct st as [[] ?]. }
  destruct (steps_tagged_find st0 1 Htag0 ltac:(lia)) as (k & p & Hfind).
  destruct (showStep_found 1 st0 k p Hfind) as [fs Hrun].
  destruct (steps_tagged_showStep st0 1 _ _ Hrun) as [Htot1 Htag1].
  unfold bind at 1. rewrite Hrun.
  match goal with
  | |- context [?m {| wizard := ?w; forms := fs |}] =>
      assert (forms_only m) as Hrest
  end.
  { repeat first
      [ apply forms_only_bindToggle
      | apply forms_only_get
      | apply forms_only_forEach; intros ?; apply forms_only_bindCurrencyFormat
      | apply forms_only_bind; [|intros ?] ]. }
  destruct (Hrest {| wizard := shown 1 k (wizard st0); forms := fs |}) as ([] & fs' & Hrun').
  eexists. split; [exact Hrun'|]. split_and!.
  - done.
  - rewrite <-Htag0, <-Htag1. unfold steps_tagged, totalSteps, has_step. done.
  - rewrite <-Htot0, <-Htot1. done.
Qed.

(** ** The model at work *)

Example showStep_sample :
  map panel_classList (steps (wizard (showStep 3 sample_page).2))
  = [["step-content"]; ["step-content"]; ["step-content"; "active"];
     ["step-content"]; ["step-content"]]
  /\ progressSteps (wizard (showStep 3 sample_page).2)
  = [["progress-step"; "completed"]; ["progress-step"; "completed"];
     ["progress-step"; "active"]; ["progress-step"]; ["progress-step"]]
  /\ (showStep 6 sample_page).1 = Throw "TypeError".
Proof. by vm_compute. Qed.

Example bindToggle_sample :
  let st := run_handler (bindToggle "has_vacation_home" "vacation-home-section") sample_page in
  el_classList <$> deref (Static 1) (toggle_checkbox (Static 0) st)
    = Some ["conditional-section"]
  /\ el_classList <$> deref (Static 1) (toggle_checkbox (Static 0) (toggle_checkbox (Static 0) st))
    = Some ["conditional-section"; "visible"]
  /\ bindToggle "has_yacht" "yacht-section" sample_page = (Normal tt, sample_page).
Proof. by vm_compute. Qed.

Example choose_children_sample :
  length (children (forms (choose_children "3" sample_page))) = 3%nat
  /\ length (children (forms (choose_children "1" (choose_children "3" sample_page)))) = 1%nat
  /\ children (forms (choose_children "" (choose_children "3" sample_page))) = []
  /\ grandchildrenSection_display (forms (choose_children "0" sample_page)) = "none".
Proof. by vm_compute. Qed.

Example child_fields_sample :
  let st := choose_children "2" sample_page in
  let cb := Child 1 1 4 in
  let expenses := Child 1 1 8 in
  let st1 := toggle_checkbox cb st in
  el_id <$> deref cb st = Some (Some "child_1_buy_house")
  /\ el_classList <$> deref (Child 1 1 5) st1 = Some ["conditional-section"]
  /\ el_classList <$> deref (Child 1 0 5) st1 = Some ["conditional-section"; "visible"]
  /\ el_value <$> deref expenses (focus expenses st) = Some "300000"
  /\ el_value <$> deref expenses (blur expenses (focus expenses st)) = Some "300,000".
Proof. by vm_compute. Qed.

Example fc1 : formatCurrency "abcd" = "".
Proof. reflexivity. Qed.
Example fc2 : formatCurrency "300000" = "300,000".
Proof. vm_compute. reflexivity. Qed.
Example fc3 : formatCurrency "1234567" = "1,234,567".
Proof. vm_compute. reflexivity. Qed.
Example fc4 : formatCurrency "$ 0012,34x5" = "12,345".
Proof. vm_compute. reflexivity. Qed.
Example fc5 : formatCurrency "18446744073709551616" = "18,446,744,073,709,552,000".
Proof. vm_compute. reflexivity. Qed.
Example pi1 : JS.parseInt "  -12px" = JS.Num (-12).
Proof. vm_compute. reflexivity. Qed.
Example pi2 : JS.parseInt "9007199254740993" = JS.Num 9007199254740992.
Proof. vm_compute. reflexivity. Qed.
Example pi3 : JS.parseInt ("-" +:+ ten_pow_309) = JS.Infinity true.
Proof. vm_compute. reflexivity. Qed.

(** * Further properties *)

(** ** Class lists, continued *)

Lemma classList_remove_notin c l : c ∉ l -> classList.remove c l = l.
Proof.
  intros Hc. unfold classList.remove. induction l as [|x l IH]; [done|].
  apply not_elem_of_cons in Hc as [Hx Hl].
  rewrite filter_cons_True by done. by rewrite IH.
Qed.

Lemma classList_remove_idemp c l :
  classList.remove c (classList.remove c l) = classList.remove c l.
Proof.
  apply classList_remove_notin. rewrite elem_of_classList_remove. by intros [? _].
Qed.

Lemma classList_remove_snoc c l : classList.remove c (l ++ [c]) = classList.remove c l.
Proof.
  unfold classList.remove. rewrite filter_app, filter_cons_False by (by intros ?).
  by rewrite filter_nil, app_nil_r.
Qed.

Lemma classList_remove_snoc_ne c c' l :
  c' <> c -> classList.remove c (l ++ [c']) = classList.remove c l ++ [c'].
Proof.
  intros Hne. unfold classList.remove. rewrite filter_app, filter_cons_True by done.
  by rewrite filter_nil.
Qed.

Lemma classList_add_notin c l : c ∉ l -> classList.add c l = l ++ [c].
Proof.
  intros Hc. unfold classList.add, classList.contains. by rewrite bool_decide_eq_false_2.
Qed.

Lemma classList_add_in c l : c ∈ l -> classList.add c l = l.
Proof.
  intros Hc. unfold classList.add, classList.contains. by rewrite bool_decide_eq_true_2.
Qed.

Lemma classList_remove_add c l :
  classList.remove c (classList.add c (classList.remove c l)) = classList.remove c l.
Proof.
  rewrite classList_add_notin by (rewrite elem_of_classList_remove; by intros [? _]).
  by rewrite classList_remove_snoc, classList_remove_idemp.
Qed.

Lemma classList_toggle_idemp c force l :
  classList.toggle c force (classList.toggle c force l) = classList.toggle c force l.
Proof.
  destruct force; simpl; [|apply classList_remove_idemp].
  apply classList_add_in. rewrite elem_of_classList_add. by left.
Qed.

(** ** The step controller, continued *)

(** X1.  For every [n] from 1 to [totalSteps], after [showStep n] the
    connector line at 0-based position [i], the one that follows
    indicator [i + 1], carries [active] exactly when [i + 1 < n], that
    is exactly when the indicator before it is marked [completed]; its
    other classes are those it had. *)
Theorem showStep_connector_lines (st : State) (n : Z) :
  steps_tagged st = true -> 1 <= n <= totalSteps st ->
  exists st',
    showStep n st = (Normal tt, st') /\
    length (progressLines (wizard st')) = length (progressLines (wizard st)) /\
    forall (i : nat) (old : ClassList),
      progressLines (wizard st) !! i = Some old ->
      exists cl,
        progressLines (wizard st') !! i = Some cl /\
        ("active" ∈ cl <-> Z.of_nat i + 1 < n) /\
        (forall c, c <> "active" -> (c ∈ cl <-> c ∈ old)) /\
        (forall ps, progressSteps (wizard st') !! i = Some ps ->
                    ("active" ∈ cl <-> "completed" ∈ ps)).
Proof.
  intros Htag Hn. destruct (steps_tagged_find st n Htag Hn) as (k & p & Hfind).
  destruct (showStep_found n st k p Hfind) as [fs Hrun].
  eexists. split; [exact Hrun|]. cbn [wizard shown progressLines progressSteps].
  split; [by rewrite length_imap|].
  intros i old Hold. rewrite list_lookup_imap, Hold. cbn [fmap option_fmap option_map].
  eexists. split; [reflexivity|].
  assert ("active" ∈ classList.toggle "active" (Z.of_nat i <? n - 1) old
          <-> Z.of_nat i + 1 < n) as Hact.
  { rewrite elem_of_classList_toggle.
    destruct (Z.ltb_spec (Z.of_nat i) (n - 1)); intuition first [lia | done]. }
  split_and!; [done| |].
  - intros c Hc. rewrite elem_of_classList_toggle.
    destruct (Z.of_nat i <? n - 1); intuition done.
  - intros ps. rewrite list_lookup_imap.
    destruct (progressSteps (wizard st) !! i) as [ps0|]; [|done].
    cbn [fmap option_fmap option_map]. intros [= <-]. rewrite Hact.
    destruct (Z.eqb_spec (Z.of_nat i + 1) n); [|destruct (Z.ltb_spec (Z.of_nat i + 1) n)];
      rewrite ?elem_of_classList_add, !elem_of_classList_remove;
      intuition first [lia | congruence | done].
Qed.

Lemma showStep_connector_lines_witness :
  steps_tagged sample_page = true /\ 1 <= 3 <= totalSteps sample_page /\
  exists st',
    showStep 3 sample_page = (Normal tt, st') /\
    length (progressLines (wizard st')) = length (progressLines (wizard sample_page)).
Proof.
  assert (steps_tagged sample_page = true) as Htag by reflexivity.
  assert (1 <= 3 <= totalSteps sample_page) as Hn by (unfold totalSteps; simpl; lia).
  split; [exact Htag|]. split; [exact Hn|].
  destruct (showStep_connector_lines sample_page 3 Htag Hn) as (st' & Hrun & Hlen & _).
  exists st'. split; [exact Hrun | exact Hlen].
Defined.

Lemma has_step_false_find st n :
  has_step st n = false ->
  list_find (fun p => data_step p = Some (JS.toString n)) (steps (wizard st)) = None.
Proof.
  unfold has_step. intros Hno%bool_decide_eq_false.
  apply list_find_None, Forall_forall. intros p Hin Hp. apply Hno.
  apply Exists_exists. eauto.
Qed.

(** X3.  When no panel is tagged with [n], [showStep n] throws a
    [TypeError] after it has taken [active] off every panel: no step is
    shown any more, and the indicators, the lines, the buttons, the
    current step and the forms are as they were. *)
Theorem showStep_missing_panel (st : State) (n : Z) :
  has_step st n = false ->
  exists st',
    showStep n st = (Throw "TypeError", st') /\
    Forall (fun p => "active" ∉ panel_classList p) (steps (wizard st')) /\
    map data_step (steps (wizard st')) = map data_step (steps (wizard st)) /\
    set_steps [] (wizard st') = set_steps [] (wizard st) /\
    forms st' = forms st.
Proof.
  intros Hno. rewrite (showStep_missing n st (has_step_false_find st n Hno)).
  eexists. split; [reflexivity|]. destruct st as [w f]. cbn. split_and!; [| |done..].
  - apply Forall_forall. intros p (q & -> & _)%list_elem_of_fmap. cbn.
    rewrite elem_of_classList_remove. by intros [? _].
  - rewrite <-list_fmap_compose. by apply list_fmap_ext.
Qed.

Lemma showStep_missing_panel_witness :
  has_step sample_page 6 = false /\
  exists st',
    showStep 6 sample_page = (Throw "TypeError", st') /\
    Forall (fun p => "active" ∉ panel_classList p) (steps (wizard st')).
Proof.
  assert (has_step sample_page 6 = false) as Hno by reflexivity.
  split; [exact Hno|].
  destruct (showStep_missing_panel sample_page 6 Hno) as (st' & Hrun & Hoff & _).
  exists st'. split; [exact Hrun | exact Hoff].
Defined.

Lemma showStep_currentStep_cases st n rc st' :
  showStep n st = (rc, st') ->
  currentStep (wizard st') = n \/ currentStep (wizard st') = currentStep (wizard st).
Proof.
  intros Hrun.
  destruct (list_find (fun p => data_step p = Some (JS.toString n)) (steps (wizard st)))
    as [[k p]|] eqn:Hfind.
  - destruct (showStep_found n st k p Hfind) as [fs Hrun'].
    rewrite Hrun' in Hrun. injection Hrun as _ <-. by left.
  - rewrite (showStep_missing n st Hfind) in Hrun. injection Hrun as _ <-.
    right. by destruct st as [[] ?].
Qed.

Lemma click_range c st :
  1 <= currentStep (wizard st) <= totalSteps st ->
  1 <= currentStep (wizard (click c st)) <= totalSteps st /\
  totalSteps (click c st) = totalSteps st.
Proof.
  intros Hcur.
  assert (forall n, 1 <= n <= totalSteps st ->
            1 <= currentStep (wizard (showStep n st).2) <= totalSteps st /\
            totalSteps (showStep n st).2 = totalSteps st) as Hshow.
  { intros n Hn. destruct (showStep n st) as [rc st'] eqn:Hrun. cbn [snd].
    destruct (steps_tagged_showStep st n st' rc Hrun) as [Htot _].
    destruct (showStep_currentStep_cases st n rc st' Hrun) as [-> | ->]; done. }
  destruct c.
  - rewrite click_Next_unfold.
    destruct (Z.ltb_spec (currentStep (wizard st)) (totalSteps st)); [|done].
    apply Hshow. lia.
  - rewrite click_Previous_unfold.
    destruct (Z.ltb_spec 1 (currentStep (wizard st))); [|done].
    apply Hshow. lia.
Qed.

(** X5.  Whatever the tags of the panels, next and previous keep the
    current step between 1 and [totalSteps]: this holds after any
    sequence of clicks from a state where it holds.  A click on next
    whose target has no panel leaves the current step where it was. *)
Theorem clicks_stay_in_range (st : State) (cs : list Click) :
  1 <= currentStep (wizard st) <= totalSteps st ->
  1 <= currentStep (wizard (clicks cs st)) <= totalSteps st /\
  totalSteps (clicks cs st) = totalSteps st /\
  (has_step (clicks cs st) (currentStep (wizard (clicks cs st)) + 1) = false ->
   currentStep (wizard (click Next (clicks cs st))) = currentStep (wizard (clicks cs st))).
Proof.
  intros Hcur.
  assert (1 <= currentStep (wizard (clicks cs st)) <= totalSteps st /\
          totalSteps (clicks cs st) = totalSteps st) as [Hr Ht].
  { revert st Hcur. induction cs as [|c cs IH]; intros st Hcur; [done|].
    cbn [clicks foldl]. fold (clicks cs (click c st)).
    destruct (click_range c st Hcur) as [Hcur' Htot]. rewrite <-Htot in Hcur'.
    destruct (IH _ Hcur') as [? ?]. split; congruence. }
  split; [exact Hr|]. split; [exact Ht|].
  set (st' := clicks cs st) in *. intros Hno. rewrite click_Next_unfold.
  destruct (Z.ltb_spec (currentStep (wizard st')) (totalSteps st')); [|done].
  rewrite (showStep_missing _ st' (has_step_false_find _ _ Hno)). by destruct st' as [[] ?].
Qed.

Lemma clicks_stay_in_range_witness :
  1 <= currentStep (wizard sample_page) <= totalSteps sample_page /\
  1 <= currentStep (wizard (clicks [Next; Previous; Previous] sample_page))
    <= totalSteps sample_page.
Proof.
  assert (1 <= currentStep (wizard sample_page) <= totalSteps sample_page) as Hcur
    by (by vm_compute).
  split; [exact Hcur|].
  exact (proj1 (clicks_stay_in_range sample_page [Next; Previous; Previous] Hcur)).
Defined.

(** [showStep] as the update of the wizard followed, at step 4, by
    [renderChildren]. *)
Lemma showStep_steps n st k p :
  list_find (fun p => data_step p = Some (JS.toString n)) (steps (wizard st)) = Some (k, p) ->
  showStep n st =
    let st1 := {| wizard := shown n k (wizard st); forms := forms st |} in
    if n =? 4 then renderChildren st1 else (Normal tt, st1).
Proof.
  intros Hfind. destruct st as [w f].
  unfold showStep, querySelector_step, bind, modify, get, ret, on_wizard, totalSteps.
  cbn [wizard forms steps set_steps fst snd].
  rewrite find_step_deactivated. cbn [wizard] in Hfind. rewrite Hfind.
  cbn [fmap option_fmap option_map prod_map fst snd id wizard forms steps set_steps
       set_progressSteps set_progressLines set_prevBtn_visibility
       set_nextBtn_display set_calcBtn_display set_currentStep
       progressSteps progressLines prevBtn_visibility nextBtn_display
       calcBtn_display currentStep].
  rewrite length_alter, length_map. unfold shown. cbn [steps progressSteps progressLines].
  destruct (n =? Z.of_nat (length (steps w))); destruct (n =? 4); reflexivity.
Qed.

Lemma find_step_data_step n (l l' : list Panel) :
  map data_step l' = map data_step l ->
  fst <$> list_find (fun p => data_step p = Some (JS.toString n)) l'
  = fst <$> list_find (fun p => data_step p = Some (JS.toString n)) l.
Proof.
  intros Heq.
  assert (forall l0 : list Panel,
            fst <$> list_find (fun p => data_step p = Some (JS.toString n)) l0
            = fst <$> list_find (fun o => o = Some (JS.toString n)) (data_step <$> l0)) as Hvia.
  { intros l0. rewrite list_find_fmap. by destruct (list_find _ l0) as [[]|]. }
  rewrite !Hvia. change (data_step <$> ?x) with (map data_step x). by rewrite Heq.
Qed.

Lemma imap_idemp {A} (f : nat -> A -> A) (l : list A) :
  (forall i x, f i (f i x) = f i x) -> imap f (imap f l) = imap f l.
Proof.
  intros Hf. apply list_eq. intros i. rewrite !list_lookup_imap.
  destruct (l !! i); cbn; [|done]. by rewrite Hf.
Qed.

Lemma shown_idemp n k w : shown n k (shown n k w) = shown n k w.
Proof.
  unfold shown. cbn [steps progressSteps progressLines].
  rewrite length_alter, length_map. f_equal.
  - apply list_eq. intros j. rewrite !list_lookup_alter, !list_lookup_fmap, !list_lookup_alter.
    rewrite !list_lookup_fmap.
    destruct (decide (k = j)) as [->|Hne];
      rewrite ?(decide_True (P:=j = j)), ?(decide_False (P:=k = j)) by done;
      destruct (steps w !! j) as [[cl d]|];
      cbn [fmap option_fmap option_map]; try done;
      unfold panel_update; cbn [panel_classList data_step].
    + by rewrite classList_remove_add.
    + by rewrite classList_remove_idemp.
  - apply imap_idemp. intros i ps. cbn zeta.
    set (y := classList.remove "completed" (classList.remove "active" ps)).
    assert (("active" ∉ y) /\ ("completed" ∉ y)) as [Ha Hc].
    { unfold y. rewrite !elem_of_classList_remove.
      split; [by intros (_ & ? & _) | by intros (? & _)]. }
    assert (classList.remove "active" y = y) as Hay by (by apply classList_remove_notin).
    assert (classList.remove "completed" y = y) as Hcy by (by apply classList_remove_notin).
    destruct (Z.of_nat i + 1 =? n); [|destruct (Z.of_nat i + 1 <? n)].
    + rewrite (classList_add_notin _ _ Ha), classList_remove_snoc, Hay, Hcy.
      by rewrite (classList_add_notin _ _ Ha).
    + rewrite (classList_add_notin _ _ Hc), classList_remove_snoc_ne by done.
      rewrite Hay, classList_remove_snoc, Hcy. by rewrite (classList_add_notin _ _ Hc).
    + by rewrite Hay, Hcy.
  - apply imap_idemp. intros i line. apply classList_toggle_idemp.
Qed.

(** X4.  Showing the step that is shown changes nothing: for [n] other
    than 4, running [showStep n] on the state it has left completes
    and leaves the same state. *)
Theorem showStep_idempotent (st st' : State) (n : Z) :
  steps_tagged st = true -> 1 <= n <= totalSteps st -> n <> 4 ->
  showStep n st = (Normal tt, st') ->
  showStep n st' = (Normal tt, st').
Proof.
  intros Htag Hn H4 Hrun. destruct (steps_tagged_find st n Htag Hn) as (k & p & Hfind).
  rewrite (showStep_steps n st k p Hfind) in Hrun. cbn zeta in Hrun.
  rewrite (proj2 (Z.eqb_neq n 4) H4) in Hrun. injection Hrun as <-.
  pose proof (find_step_data_step n (steps (wizard st)) (steps (shown n k (wizard st)))
                (data_step_shown n k (wizard st))) as Hsame.
  rewrite Hfind in Hsame.
  destruct (list_find (fun p => data_step p = Some (JS.toString n))
              (steps (shown n k (wizard st)))) as [[k' p']|] eqn:Hfind'; [|done].
  injection Hsame as ->.
  rewrite (showStep_steps n {| wizard := shown n k (wizard st); forms := forms st |}
             k p' Hfind'). cbn zeta. cbn [wizard forms].
  by rewrite (proj2 (Z.eqb_neq n 4) H4), shown_idemp.
Qed.

Lemma showStep_idempotent_witness :
  steps_tagged sample_page = true /\ 1 <= 3 <= totalSteps sample_page /\ 3 <> 4 /\
  showStep 3 (showStep 3 sample_page).2 = (Normal tt, (showStep 3 sample_page).2).
Proof.
  assert (steps_tagged sample_page = true) as Htag by reflexivity.
  assert (1 <= 3 <= totalSteps sample_page) as Hn by (unfold totalSteps; simpl; lia).
  assert (3 <> 4) as H4 by discriminate.
  assert (showStep 3 sample_page = (Normal tt, (showStep 3 sample_page).2)) as Hrun
    by (by vm_compute).
  split; [exact Htag|]. split; [exact Hn|]. split; [exact H4|].
  exact (showStep_idempotent sample_page _ 3 Htag Hn H4 Hrun).
Defined.

(** X2.  [showStep n] leaves the forms alone unless [n] is 4: for
    every other step of the page the forms after the call are the
    forms before it.  At step 4 the container is rendered anew: when
    the count selector parses to [N >= 0] it then holds [N] blocks,
    block [i] being the markup of [childFormHTML i]. *)
Theorem showStep_forms (st : State) (n : Z) :
  steps_tagged st = true -> 1 <= n <= totalSteps st ->
  exists st',
    showStep n st = (Normal tt, st') /\
    (n <> 4 -> forms st' = forms st) /\
    (n = 4 ->
     forall N, JS.parseInt (numChildrenSelect_value (forms st)) = JS.Num N ->
       0 <= N <= JS.MAX_SAFE_INTEGER ->
       generation (forms st') = S (generation (forms st)) /\
       Z.of_nat (length (children (forms st'))) = N /\
       map (map erase) (children (forms st'))
         = map (fun i => childFormHTML i st) (seqZ 0 N)).
Proof.
  intros Htag Hn. destruct (steps_tagged_find st n Htag Hn) as (k & p & Hfind).
  rewrite (showStep_steps n st k p Hfind). cbn zeta.
  set (st1 := {| wizard := shown n k (wizard st); forms := forms st |}).
  destruct (Z.eqb_spec n 4) as [H4|H4].
  - destruct (renderChildren_markup st1) as (st' & Hrun & _ & Hm).
    exists st'. split; [done|]. split; [done|]. intros _ N Hparse HN.
    cbn [st1 forms] in Hm. rewrite Hparse in Hm. cbn [iterations JS.gt0] in Hm.
    rewrite Z2Nat.id in Hm by lia.
    assert (map (map erase) (children (forms st'))
            = map (fun i => childFormHTML i st) (seqZ 0 N)) as Hch.
    { apply (f_equal children) in Hm. destruct st' as [? []]. cbn in Hm |- *.
      rewrite Hm. apply map_ext. intros i. by apply childFormHTML_locations. }
    split_and!.
    + apply (f_equal generation) in Hm. by destruct st' as [? []].
    + rewrite <-(length_map (map erase)), Hch, length_map, length_seqZ. lia.
    + done.
  - exists st1. split; [done|]. split; [done|]. done.
Qed.

Lemma showStep_forms_witness :
  steps_tagged sample_page = true /\ 1 <= 4 <= totalSteps sample_page /\
  exists st',
    showStep 4 sample_page = (Normal tt, st') /\
    Z.of_nat (length (children (forms st'))) = 2.
Proof.
  assert (steps_tagged sample_page = true) as Htag by reflexivity.
  assert (1 <= 4 <= totalSteps sample_page) as Hn by (unfold totalSteps; simpl; lia).
  split; [exact Htag|]. split; [exact Hn|].
  destruct (showStep_forms sample_page 4 Htag Hn) as (st' & Hrun & _ & H4).
  exists st'. split; [exact Hrun|].
  assert (JS.parseInt (numChildrenSelect_value (forms sample_page)) = JS.Num 2)
    as Hparse by (by vm_compute).
  assert (0 <= 2 <= JS.MAX_SAFE_INTEGER) as HN by (by vm_compute).
  exact (proj1 (proj2 (H4 eq_refl 2 Hparse HN))).
Defined.

(** ** Currency formatting, continued *)

Lemma digits_of_strip_commas s : digits_of (JS.remove_all JS.comma s) = digits_of s.
Proof.
  unfold digits_of. induction s as [|c r IH]; [done|]. cbn [JS.remove_all].
  destruct (JS.comma c) eqn:Hc.
  - unfold JS.comma in Hc. case_decide; [subst|done]. by rewrite IH.
  - cbn [JS.remove_all]. by rewrite IH.
Qed.

Lemma formatCurrency_amount s :
  safe_amount s -> amount_of (formatCurrency s) = amount_of s.
Proof.
  intros Hsafe. destruct (decide (digits_of s = "")) as [Hd|Hd].
  - rewrite (formatCurrency_unfold s Hsafe), Hd. unfold amount_of. by rewrite Hd.
  - by destruct (formatCurrency_digits s Hsafe Hd).
Qed.

(** X7.  Formatting never changes the amount a text denotes, and
    neither does removing the commas; two texts that hold a digit are
    formatted alike exactly when they denote the same amount.  The
    amounts are safe integers, where the integers of the model are the
    numbers of the script. *)
Theorem formatCurrency_keeps_amount (s t : string) :
  safe_amount s -> safe_amount t ->
  amount_of (formatCurrency s) = amount_of s /\
  amount_of (JS.remove_all JS.comma s) = amount_of s /\
  (digits_of s <> "" -> digits_of t <> "" ->
   (formatCurrency s = formatCurrency t <-> amount_of s = amount_of t)).
Proof.
  intros Hss Hst. split_and!.
  - by apply formatCurrency_amount.
  - unfold amount_of. by rewrite digits_of_strip_commas.
  - intros Hs Ht. split.
    + intros Heq.
      by rewrite <-(formatCurrency_amount s Hss), Heq, (formatCurrency_amount t Hst).
    + intros Heq. rewrite !formatCurrency_unfold, Heq by done.
      by destruct (digits_of s), (digits_of t).
Qed.

Lemma formatCurrency_keeps_amount_witness :
  safe_amount "$1,250.00" /\ safe_amount "125000" /\
  amount_of (formatCurrency "$1,250.00") = amount_of "$1,250.00" /\
  formatCurrency "$1,250.00" = formatCurrency "125000".
Proof.
  assert (safe_amount "$1,250.00") as Hs by (by vm_compute).
  assert (safe_amount "125000") as Ht by (by vm_compute).
  split; [exact Hs|]. split; [exact Ht|].
  destruct (formatCurrency_keeps_amount "$1,250.00" "125000" Hs Ht) as (Ha & _ & Hiff).
  split; [exact Ha|].
  apply Hiff; [by vm_compute | by vm_compute | by vm_compute].
Defined.

Lemma pretty_N_go_head x s :
  (0 < x)%N -> exists c r, pretty_N_go x s = String c r /\ c <> "0"%char.
Proof.
  revert s. induction (N.lt_wf_0 x) as [x _ IH]; intros s Hx.
  rewrite pretty_N_go_step by done.
  destruct (decide (x `div` 10 = 0)%N) as [Hq|Hq].
  - rewrite Hq, pretty_N_go_0. eexists _, _. split; [done|].
    assert (x `mod` 10 = x)%N as ->.
    { pose proof (N.div_mod x 10). apply N.div_small_iff in Hq; [|done].
      by apply N.mod_small. }
    assert (x < 10)%N by (by apply N.div_small_iff in Hq).
    assert (x = 1 \/ x = 2 \/ x = 3 \/ x = 4 \/ x = 5 \/ x = 6
            \/ x = 7 \/ x = 8 \/ x = 9)%N as Hcases by lia.
    repeat (destruct Hcases as [->|Hcases]; [done|]). by subst.
  - apply IH; [apply N.div_lt; lia | by apply N.neq_0_lt_0].
Qed.

(** The decimal text of a positive integer begins with a digit other
    than 0. *)
Lemma toString_head z :
  0 < z -> exists c r, JS.toString z = String c r /\ c <> "0"%char.
Proof.
  intros Hz. destruct z as [|p|p]; [lia| |lia].
  unfold JS.toString, pretty, pretty_Z, pretty, pretty_positive, pretty, pretty_N.
  rewrite decide_False by done. by apply pretty_N_go_head.
Qed.

(** What [formatCurrency] returns for a text that holds a digit: ["0"]
    for the amount 0, and for a positive amount the infinity sign or a
    text that begins with a digit other than 0. *)
Lemma formatCurrency_zero_amount s :
  digits_of s <> "" -> amount_of s = 0 -> formatCurrency s = "0".
Proof.
  intros Hd Ha. rewrite formatCurrency_number, Ha. by destruct (digits_of s).
Qed.

Lemma formatCurrency_positive s :
  digits_of s <> "" -> 0 < amount_of s ->
  formatCurrency s = JS.infinity_sign \/
  exists c r, formatCurrency s = String c r /\ c <> "0"%char.
Proof.
  intros Hd Ha. rewrite formatCurrency_number.
  destruct (digits_of s) as [|c0 r0]; [done|].
  unfold JS.of_integer. cbn zeta. rewrite Z.abs_eq by lia.
  pose proof (nearest_double_pos _ Ha) as Hn.
  destruct (2 ^ 1024 <=? JS.nearest_double (amount_of s)).
  - left. cbn [JS.toLocaleString]. by rewrite (proj2 (Z.ltb_ge _ _)) by lia.
  - right. rewrite Z.sgn_pos, Z.mul_1_l by done. cbn [JS.toLocaleString].
    rewrite (proj2 (Z.ltb_ge _ _)) by lia.
    destruct (toString_head _ (shortest_pos _ Hn)) as (c & r & -> & Hc).
    cbn [JS.group3]. eauto.
Qed.

(** X8.  The result is the empty string only for a text without any
    digit.  A text whose digits are all zeros is formatted as ["0"],
    not as the empty string, and ["0"] is the result for no other
    text. *)
Theorem formatCurrency_zero (s : string) :
  (formatCurrency s = "" <-> digits_of s = "") /\
  (formatCurrency s = "0" <-> digits_of s <> "" /\ amount_of s = 0).
Proof.
  pose proof (amount_nonneg s) as Hv.
  assert (digits_of s <> "" -> 0 < amount_of s ->
          formatCurrency s <> "" /\ formatCurrency s <> "0") as Hpos.
  { intros Hd Ha.
    destruct (formatCurrency_positive s Hd Ha) as [->|(c & r & -> & Hc)]; [done|].
    split; [done|]. by intros [= ->]. }
  assert (digits_of s = "" -> formatCurrency s = "") as Hnone.
  { intros Hd. by rewrite formatCurrency_number, Hd. }
  split.
  - split; [|exact Hnone].
    intros Hempty. destruct (decide (digits_of s = "")) as [|Hd]; [done|].
    destruct (decide (amount_of s = 0)) as [Ha|Ha].
    + by rewrite (formatCurrency_zero_amount s Hd Ha) in Hempty.
    + by destruct (Hpos Hd ltac:(lia)).
  - split.
    + intros Hzero. assert (digits_of s <> "") as Hd.
      { intros Hd. by rewrite (Hnone Hd) in Hzero. }
      split; [done|]. destruct (decide (amount_of s = 0)) as [|Ha]; [done|].
      by destruct (Hpos Hd ltac:(lia)).
    + intros [Hd Ha]. by apply formatCurrency_zero_amount.
Qed.

Lemma group3_alphabet d :
  digits_only d = true ->
  Forall (fun c => JS.is_digit c = true \/ c = ","%char) (chars (JS.group3 d)).
Proof.
  induction d as [|c r IH]; [by constructor|].
  intros [Hc Hr]%andb_prop. cbn [JS.group3 chars list_ascii_of_string].
  constructor; [by left|]. case_match; [constructor; [by right|]|]; by apply IH.
Qed.

(** X9.  The result holds digits and commas only, and it begins with
    the digit 0 only when it is ["0"]: leading zeros of the text are
    dropped.  The amount is a safe integer, where the integers of the
    model are the numbers of the script. *)
Theorem formatCurrency_shape (s : string) :
  safe_amount s ->
  Forall (fun c => JS.is_digit c = true \/ c = ","%char) (chars (formatCurrency s)) /\
  head (chars (formatCurrency s)) <> Some ","%char /\
  (forall r, formatCurrency s = String "0" r -> r = "").
Proof.
  intros Hsafe. pose proof (amount_nonneg s) as Hv.
  destruct (toString_digits _ Hv) as (Hdo & Hne & _).
  rewrite formatCurrency_unfold by done.
  destruct (digits_of s) as [|c0 r0]; [by repeat constructor|].
  split_and!.
  - by apply group3_alphabet.
  - by destruct (group3_thousands _ Hv) as (_ & ? & _).
  - intros r. destruct (decide (amount_of s = 0)) as [->|Ha]; [by intros [= <-]|].
    destruct (toString_head (amount_of s) ltac:(lia)) as (c & r' & -> & Hc).
    cbn [JS.group3]. by intros [= -> _].
Qed.

Lemma formatCurrency_shape_witness :
  safe_amount "007" /\ formatCurrency "007" = "7" /\
  (forall r, formatCurrency "000" = String "0" r -> r = "").
Proof.
  assert (safe_amount "007") as Hs by (by vm_compute).
  assert (safe_amount "000") as Hz by (by vm_compute).
  split; [exact Hs|]. split; [by vm_compute|].
  exact (proj2 (proj2 (formatCurrency_shape "000" Hz))).
Defined.

(** ** Currency fields, continued *)

Lemma remove_all_idemp cls s : JS.remove_all cls (JS.remove_all cls s) = JS.remove_all cls s.
Proof.
  induction s as [|c r IH]; [done|]. cbn [JS.remove_all].
  destruct (cls c) eqn:Hc; [done|]. cbn [JS.remove_all]. by rewrite Hc, IH.
Qed.

Lemma remove_all_chars cls s : Forall (fun c => cls c = false) (chars (JS.remove_all cls s)).
Proof.
  induction s as [|c r IH]; [by constructor|]. cbn [JS.remove_all].
  destruct (cls c) eqn:Hc; [done|]. by constructor.
Qed.

Lemma set_el_value_twice v v' e : set_el_value v (set_el_value v' e) = set_el_value v e.
Proof. by destruct e. Qed.

(** A blur of a field whose only [blur] listener is the formatter. *)
Lemma blur_bound input st e :
  deref input st = Some e ->
  listeners_for "blur" input st = [format_on_blur input] ->
  blur input st = update input (fun e => set_el_value (formatCurrency (el_value e)) e) st.
Proof. intros He Hls. unfold blur, dispatchEvent. by rewrite Hls. Qed.

Lemma focus_bound input st e :
  deref input st = Some e ->
  listeners_for "focus" input st = [strip_on_focus input] ->
  focus input st
  = update input (fun e => set_el_value (JS.remove_all JS.comma (el_value e)) e) st.
Proof. intros He Hls. unfold focus, dispatchEvent. by rewrite Hls. Qed.

Lemma listeners_for_update type r r' f st :
  (forall e, el_listeners (f e) = el_listeners e) ->
  listeners_for type r' (update r f st) = listeners_for type r' st.
Proof.
  intros Hf. apply listeners_for_related. apply related_update; [apply _..|].
  intros e. unfold same_listeners. by rewrite Hf.
Qed.

Lemma update_ext r f g st : (forall e, f e = g e) -> update r f st = update r g st.
Proof.
  intros Hfg. destruct st as [w fs]. unfold update.
  destruct r as [k|gen b k]; cbn [forms on_forms].
  - unfold on_forms. cbn [forms wizard]. do 2 f_equal. by apply list_alter_ext.
  - case_decide; [|done]. unfold on_forms. cbn [forms wizard]. do 2 f_equal.
    apply list_alter_ext; [|done]. intros blk _. by apply list_alter_ext.
Qed.

Lemma blur_typed input st e t :
  deref input st = Some e ->
  listeners_for "blur" input st = [format_on_blur input] ->
  blur input (input_text input t st) = update input (set_el_value (formatCurrency t)) st.
Proof.
  intros He Hls. unfold input_text.
  rewrite (blur_bound input _ (set_el_value t e)).
  - rewrite update_update. apply update_ext. intros x. cbn.
    by rewrite set_el_value_twice.
  - by rewrite deref_update_eq, He.
  - by rewrite listeners_for_update.
Qed.

(** X10.  On a field whose [blur] listener is the formatter, leaving
    the field after a text [t] was typed leaves it with the formatted
    text, whatever [t] is.  The other properties of the field, the
    other elements and the wizard are as before the typing.  A second
    blur formats the formatted text: it changes nothing unless the
    number typed overflows, the field showing the infinity sign. *)
Theorem blur_formats_typed_text (st : State) (input : Ref) (e : Element) (t : string) :
  deref input st = Some e ->
  listeners_for "blur" input st = [format_on_blur input] ->
  let st' := blur input (input_text input t st) in
  deref input st' = Some (set_el_value (formatCurrency t) e) /\
  (forall r, r <> input -> deref r st' = deref r st) /\
  wizard st' = wizard st /\
  deref input (blur input st')
    = Some (set_el_value (formatCurrency (formatCurrency t)) e) /\
  (formatCurrency t <> JS.infinity_sign -> blur input st' = st').
Proof.
  intros He Hls st'. unfold st'. rewrite (blur_typed input st e t He Hls).
  assert (deref input (update input (set_el_value (formatCurrency t)) st)
          = Some (set_el_value (formatCurrency t) e)) as He'.
  { by rewrite deref_update_eq, He. }
  assert (blur input (update input (set_el_value (formatCurrency t)) st)
          = update input (fun e => set_el_value (formatCurrency (el_value e)) e)
              (update input (set_el_value (formatCurrency t)) st)) as Hagain.
  { apply (blur_bound input _ _ He'). by rewrite listeners_for_update. }
  split_and!.
  - done.
  - intros r Hr. by rewrite deref_update_ne.
  - apply wizard_update.
  - rewrite Hagain, deref_update_eq, He'. by destruct e.
  - intros Hfin. rewrite Hagain.
    apply (update_fixed _ _ _ _ He'). destruct e. cbn.
    by rewrite (proj1 (formatCurrency_finite_round_trip t Hfin)).
Qed.

(** X11.  On a field whose [focus] listener is the stripper, entering
    the field removes the commas of its text and nothing else: the text
    has no comma left and denotes the same amount, the other properties
    of the field, the other elements and the wizard are unchanged, and
    a second focus changes nothing. *)
Theorem focus_strips_commas (st : State) (input : Ref) (e : Element) :
  deref input st = Some e ->
  listeners_for "focus" input st = [strip_on_focus input] ->
  let st' := focus input st in
  let v := JS.remove_all JS.comma (el_value e) in
  deref input st' = Some (set_el_value v e) /\
  Forall (fun c => c <> ","%char) (chars v) /\
  amount_of v = amount_of (el_value e) /\
  (forall r, r <> input -> deref r st' = deref r st) /\
  wizard st' = wizard st /\
  focus input st' = st'.
Proof.
  intros He Hls st' v. unfold st'. rewrite (focus_bound input st e He Hls).
  assert (deref input
            (update input (fun e => set_el_value (JS.remove_all JS.comma (el_value e)) e) st)
          = Some (set_el_value v e)) as He'.
  { by rewrite deref_update_eq, He. }
  split_and!.
  - done.
  - eapply Forall_impl; [apply remove_all_chars|]. intros c Hc ->. done.
  - unfold amount_of, v. by rewrite digits_of_strip_commas.
  - intros r Hr. by rewrite deref_update_ne.
  - apply wizard_update.
  - rewrite (focus_bound input _ _ He') by (by rewrite listeners_for_update).
    apply (update_fixed _ _ _ _ He'). destruct e. cbn. unfold v. cbn.
    by rewrite remove_all_idemp.
Qed.

Lemma blur_formats_typed_text_witness :
  let st := choose_children "2" sample_page in
  let input := Child 1 1 8 in
  listeners_for "blur" input st = [format_on_blur input] /\
  formatCurrency "1500000 usd" <> JS.infinity_sign /\
  el_value <$> deref input (blur input (input_text input "1500000 usd" st))
    = Some "1,500,000" /\
  blur input (blur input (input_text input "1500000 usd" st))
    = blur input (input_text input "1500000 usd" st).
Proof.
  intros st input.
  assert (exists e, deref input st = Some e) as [e He] by (by eexists).
  assert (listeners_for "blur" input st = [format_on_blur input]) as Hls by reflexivity.
  assert (formatCurrency "1500000 usd" <> JS.infinity_sign) as Hsafe
    by (vm_compute; discriminate).
  split; [exact Hls|]. split; [exact Hsafe|].
  destruct (blur_formats_typed_text st input e "1500000 usd" He Hls)
    as (Hv & _ & _ & _ & Hidem).
  split; [|exact (Hidem Hsafe)]. rewrite Hv. reflexivity.
Defined.

(** Beyond the doubles a second blur does change the field: the text
    of [10^309] is formatted as the infinity sign, and that as the
    empty string. *)
Example blur_twice_overflow :
  let st := choose_children "2" sample_page in
  let input := Child 1 1 8 in
  let st1 := blur input (input_text input ten_pow_309 st) in
  el_value <$> deref input st1 = Some JS.infinity_sign /\
  el_value <$> deref input (blur input st1) = Some "".
Proof. vm_compute. split; reflexivity. Qed.

Lemma focus_strips_commas_witness :
  let st := choose_children "2" sample_page in
  let input := Child 1 0 8 in
  listeners_for "focus" input st = [strip_on_focus input] /\
  el_value <$> deref input (focus input st) = Some "300000" /\
  focus input (focus input st) = focus input st.
Proof.
  intros st input.
  assert (exists e, deref input st = Some e /\ el_value e = "300,000") as (e & He & Hv)
    by (by eexists).
  assert (listeners_for "focus" input st = [strip_on_focus input]) as Hls by reflexivity.
  split; [exact Hls|].
  destruct (focus_strips_commas st input e He Hls) as (Hd & _ & _ & _ & _ & Hidem).
  split; [|exact Hidem]. rewrite Hd. cbn. by rewrite Hv.
Defined.

(** ** The expenses field of a child *)

(** X13.  After [renderChildren] has rendered [N] blocks on a page
    whose static ids are clear of the scheme, the expenses field of
    every child [i] is a currency field of its own: it shows
    ["300,000"], a focus leaves it with ["300000"], and a blur after a
    text was typed leaves it with the formatted text, no other element
    being changed.  ([N] is a safe integer.) *)
Theorem child_expenses_field (st : State) (N : Z) (i : nat) (t : string) :
  static_ids_clear st = true ->
  JS.parseInt (numChildrenSelect_value (forms st)) = JS.Num N ->
  0 <= N <= JS.MAX_SAFE_INTEGER -> Z.of_nat i < N ->
  exists st' input,
    renderChildren st = (Normal tt, st') /\
    find_element (child_id (Z.of_nat i) "annual_expenses") (forms st') = Some input /\
    el_value <$> deref input st' = Some "300,000" /\
    el_value <$> deref input (focus input st') = Some "300000" /\
    el_value <$> deref input (blur input (input_text input t st'))
      = Some (formatCurrency t) /\
    (forall r, r <> input -> deref r (blur input (input_text input t st')) = deref r st').
Proof.
  intros Hclear Hparse HN Hi.
  set (g := S (generation (forms st))).
  assert (generation (forms (rendered st)) = g) as Hgen by done.
  assert (static_ids_clear (rendered st) = true) as Hclear' by exact Hclear.
  assert (children (forms (rendered st)) !! i = Some (rendered_block g i st)) as Hblk.
  { apply rendered_children. rewrite Hparse. cbn. lia. }
  exists (rendered st), (Child g i 8).
  split; [by apply renderChildren_exact|].
  split.
  { rewrite (find_element_block _ i _ "annual_expenses" 7 Hclear' (rendered_ids st) Hblk)
      by done.
    by rewrite Hgen. }
  set (st' := rendered st) in *. set (input := Child g i 8).
  assert (exists e, deref input st' = Some e /\ el_value e = "300,000" /\
            el_listeners e = [("blur", format_on_blur input);
                              ("focus", strip_on_focus input)]) as (e & He & Hv & Hl).
  { eexists. unfold deref, input. rewrite decide_True, Hblk by done. split; [reflexivity|done]. }
  assert (listeners_for "blur" input st' = [format_on_blur input]) as Hblur.
  { unfold listeners_for. rewrite He, Hl. done. }
  assert (listeners_for "focus" input st' = [strip_on_focus input]) as Hfocus.
  { unfold listeners_for. rewrite He, Hl. done. }
  split_and!.
  - by rewrite He; cbn; rewrite Hv.
  - rewrite (focus_bound input st' e He Hfocus), deref_update_eq, He. cbn. by rewrite Hv.
  - by rewrite (blur_typed input st' e t He Hblur), deref_update_eq, He.
  - intros r Hr. by rewrite (blur_typed input st' e t He Hblur), deref_update_ne.
Qed.

Lemma child_expenses_field_witness :
  static_ids_clear sample_page = true /\
  JS.parseInt (numChildrenSelect_value (forms sample_page)) = JS.Num 2 /\
  0 <= 2 <= JS.MAX_SAFE_INTEGER /\ Z.of_nat 1 < 2 /\
  exists st' input,
    renderChildren sample_page = (Normal tt, st') /\
    el_value <$> deref input (blur input (input_text input "45000" st'))
      = Some (formatCurrency "45000").
Proof.
  assert (static_ids_clear sample_page = true) as Hclear by reflexivity.
  assert (JS.parseInt (numChildrenSelect_value (forms sample_page)) = JS.Num 2)
    as Hparse by (by vm_compute).
  assert (0 <= 2 <= JS.MAX_SAFE_INTEGER) as HN by (by vm_compute).
  assert (Z.of_nat 1 < 2) as Hi by (by vm_compute).
  split; [exact Hclear|]. split; [exact Hparse|]. split; [exact HN|]. split; [exact Hi|].
  destruct (child_expenses_field sample_page 2 1 "45000" Hclear Hparse HN Hi)
    as (st' & input & Hrun & _ & _ & _ & Hblur & _).
  exists st', input. split; [exact Hrun | exact Hblur].
Defined.

(** ** The house toggles of all children *)

Lemma wizard_run_listener l st : wizard (run_listener l st) = wizard st.
Proof.
  destruct l; cbn [run_listener]; rewrite ?wizard_update; [|done..].
  destruct (deref cb st); [apply wizard_update|done].
Qed.

Lemma wizard_dispatchEvent target type st : wizard (dispatchEvent target type st) = wizard st.
Proof.
  unfold dispatchEvent. generalize (listeners_for type target st). intros ls.
  revert st. induction ls as [|l ls IH]; intros st; [done|].
  cbn [foldl]. by rewrite IH, wizard_run_listener.
Qed.

Lemma wizard_toggle_checkbox cb st : wizard (toggle_checkbox cb st) = wizard st.
Proof. unfold toggle_checkbox. by rewrite wizard_dispatchEvent, wizard_update. Qed.

Lemma iter_negb_swap n b : Nat.iter n negb (negb b) = negb (Nat.iter n negb b).
Proof. induction n as [|n IH]; [done|]. by rewrite !Nat.iter_succ, IH. Qed.

Lemma iter_negb_even n : Nat.iter n negb true = Nat.even n.
Proof.
  induction n as [|n IH]; [done|].
  by rewrite Nat.iter_succ, IH, Nat.even_succ, Nat.negb_even.
Qed.

(** One change of the checkbox of child [i], among [n] children whose
    checkboxes are bound to their own sections. *)
Lemma toggle_house_step g (n : nat) (f : nat -> bool) st (i : nat) :
  (forall j, (j < n)%nat ->
     shows (Child g j 4) (Child g j 5) st (f j) /\
     listeners_for "change" (Child g j 4) st
       = [toggle_visible (Child g j 4) (Child g j 5)]) ->
  (i < n)%nat ->
  forall j, (j < n)%nat ->
    shows (Child g j 4) (Child g j 5) (toggle_checkbox (Child g i 4) st)
      (if decide (j = i) then negb (f j) else f j) /\
    listeners_for "change" (Child g j 4) (toggle_checkbox (Child g i 4) st)
      = [toggle_visible (Child g j 4) (Child g j 5)].
Proof.
  intros Hinv Hi j Hj.
  destruct (Hinv i Hi) as [(c & s & Hc & Hs & Hchk & Hvis) Hls].
  split.
  2: { rewrite (listeners_for_related _ _ _ _ (related_toggle_checkbox _ _)).
       by apply Hinv. }
  destruct (decide (j = i)) as [->|Hne].
  - destruct (toggle_checkbox_bound _ _ [] st c s Hc Hs Hls) as (c' & s' & Hc' & Hs' & Hchk' & Hvis').
    exists c', s'. split_and!; [done..| |].
    + by rewrite Hchk', Hchk.
    + by rewrite Hvis', Hchk', Hchk.
  - destruct (Hinv j Hj) as [(cj & sj & Hcj & Hsj & Hchkj & Hvisj) _].
    unfold listeners_for in Hls. rewrite Hc in Hls.
    rewrite (toggle_checkbox_single _ _ st c Hc Hls).
    exists cj, sj. split_and!; [| |done..]; rewrite !deref_update_ne; congruence.
Qed.

Lemma toggle_houses_fold g (n : nat) (l : list nat) :
  Forall (fun i => (i < n)%nat) l ->
  forall (f : nat -> bool) st,
  (forall j, (j < n)%nat ->
     shows (Child g j 4) (Child g j 5) st (f j) /\
     listeners_for "change" (Child g j 4) st
       = [toggle_visible (Child g j 4) (Child g j 5)]) ->
  forall j, (j < n)%nat ->
    shows (Child g j 4) (Child g j 5)
      (foldl (fun s i => toggle_checkbox (Child g i 4) s) st l)
      (Nat.iter (count_occ Nat.eq_dec l j) negb (f j)).
Proof.
  induction 1 as [|i l Hi Hl IH]; intros f st Hinv j Hj.
  { by apply Hinv. }
  cbn [foldl count_occ].
  pose proof (IH _ _ (toggle_house_step g n f st i Hinv Hi) j Hj) as Hj'.
  cbn beta in Hj'.
  destruct (Nat.eq_dec i j) as [->|Hne].
  - rewrite decide_True in Hj' by done. rewrite iter_negb_swap in Hj'. exact Hj'.
  - rewrite decide_False in Hj' by done. exact Hj'.
Qed.

(** X12.  After [renderChildren] has rendered [N] blocks on a page
    whose static ids are clear of the scheme, the buy-house checkboxes
    of the children work independently: after any sequence of changes
    of these checkboxes, the checkbox of every child [j] is checked
    exactly when it was changed an even number of times, and the house
    section of child [j] is visible exactly when that checkbox is
    checked.  The wizard is not affected. *)
Theorem child_house_toggles (st : State) (N : Z) (l : list nat) (j : nat) :
  static_ids_clear st = true ->
  JS.parseInt (numChildrenSelect_value (forms st)) = JS.Num N ->
  0 <= N <= JS.MAX_SAFE_INTEGER ->
  Forall (fun i => Z.of_nat i < N) l -> Z.of_nat j < N ->
  exists st' (cb : nat -> Ref) section,
    renderChildren st = (Normal tt, st') /\
    (forall i : nat, Z.of_nat i < N ->
       find_element (child_id (Z.of_nat i) "buy_house") (forms st') = Some (cb i)) /\
    find_element (child_id (Z.of_nat j) "house_section") (forms st') = Some section /\
    let st'' := foldl (fun s i => toggle_checkbox (cb i) s) st' l in
    shows (cb j) section st'' (Nat.even (count_occ Nat.eq_dec l j)) /\
    wizard st'' = wizard st'.
Proof.
  intros Hclear Hparse HN Hl Hj.
  set (g := S (generation (forms st))).
  assert (generation (forms (rendered st)) = g) as Hgen by done.
  assert (static_ids_clear (rendered st) = true) as Hclear' by exact Hclear.
  assert (forall i : nat, Z.of_nat i < N ->
            children (forms (rendered st)) !! i = Some (rendered_block g i st)) as Hblk.
  { intros i Hi. apply rendered_children. rewrite Hparse. cbn. lia. }
  exists (rendered st), (fun i => Child g i 4), (Child g j 5).
  split; [by apply renderChildren_exact|].
  split.
  { intros i Hi.
    rewrite (find_element_block _ i _ "buy_house" 3 Hclear' (rendered_ids st) (Hblk i Hi))
      by done.
    by rewrite Hgen. }
  split.
  { rewrite (find_element_block _ j _ "house_section" 4 Hclear' (rendered_ids st) (Hblk j Hj))
      by done.
    by rewrite Hgen. }
  intros st''. split.
  - rewrite <-iter_negb_even.
    assert (Forall (fun i => (i < Z.to_nat N)%nat) l) as Hl_nat.
    { eapply Forall_impl; [exact Hl|]. intros i Hi. cbn beta in Hi. lia. }
    apply (toggle_houses_fold g (Z.to_nat N) l Hl_nat (fun _ => true) (rendered st)); [|lia].
    intros i Hi. assert (Z.of_nat i < N) as Hi' by lia.
    split.
    + eexists _, _. unfold deref. rewrite !decide_True, (Hblk i Hi') by done.
      split; [reflexivity|]. split; [reflexivity|]. split; [done|].
      split; [done|]. intros _. cbn. repeat constructor.
    + unfold listeners_for, deref. rewrite decide_True, (Hblk i Hi') by done. done.
  - unfold st''. generalize (rendered st). clear. intros s0.
    revert s0. induction l as [|i l IH]; intros s0; [done|].
    cbn [foldl]. by rewrite IH, wizard_toggle_checkbox.
Qed.

Lemma child_house_toggles_witness :
  static_ids_clear sample_page = true /\
  JS.parseInt (numChildrenSelect_value (forms sample_page)) = JS.Num 2 /\
  0 <= 2 <= JS.MAX_SAFE_INTEGER /\
  Forall (fun i => Z.of_nat i < 2) [0; 1; 0; 0]%nat /\ Z.of_nat 0 < 2 /\
  exists st' (cb : nat -> Ref) section,
    renderChildren sample_page = (Normal tt, st') /\
    shows (cb 0%nat) section
      (foldl (fun s i => toggle_checkbox (cb i) s) st' [0; 1; 0; 0]%nat) false.
Proof.
  assert (static_ids_clear sample_page = true) as Hclear by reflexivity.
  assert (JS.parseInt (numChildrenSelect_value (forms sample_page)) = JS.Num 2)
    as Hparse by (by vm_compute).
  assert (0 <= 2 <= JS.MAX_SAFE_INTEGER) as HN by (by vm_compute).
  assert (Forall (fun i => Z.of_nat i < 2) [0; 1; 0; 0]%nat) as Hl
    by (repeat constructor).
  assert (Z.of_nat 0 < 2) as Hj by (by vm_compute).
  split; [exact Hclear|]. split; [exact Hparse|]. split; [exact HN|]. split; [exact Hl|].
  split; [exact Hj|].
  destruct (child_house_toggles sample_page 2 [0; 1; 0; 0]%nat 0 Hclear Hparse HN Hl Hj)
    as (st' & cb & section & Hrun & _ & _ & Hshows & _).
  exists st', cb, section. split; [exact Hrun | exact Hshows].
Defined.

(** ** Rendering again *)

(** X15.  A count that parses to a negative integer renders no block:
    the loop is not entered and the test [n > 0] fails, so the
    container is emptied and the grandchildren section hidden, as for
    a count that does not parse. *)
Theorem renderChildren_negative (st : State) (N : Z) :
  JS.parseInt (numChildrenSelect_value (forms st)) = JS.Num N -> N < 0 ->
  renderChildren st = (Normal tt, cleared st) /\
  children (forms (cleared st)) = [] /\
  grandchildrenSection_display (forms (cleared st)) = "none".
Proof.
  intros Hparse HN. split; [|done].
  apply renderChildren_no_iteration; rewrite Hparse; cbn; [lia|].
  by apply Z.ltb_ge; lia.
Qed.

Lemma renderChildren_negative_witness :
  let st := on_forms (set_numChildrenSelect_value " -3 children")
              (run_handler renderChildren sample_page) in
  JS.parseInt (numChildrenSelect_value (forms st)) = JS.Num (-3) /\ -3 < 0 /\
  length (children (forms st)) = 2%nat /\
  renderChildren st = (Normal tt, cleared st).
Proof.
  intros st.
  assert (JS.parseInt (numChildrenSelect_value (forms st)) = JS.Num (-3)) as Hparse
    by (by vm_compute).
  assert (-3 < 0) as HN by lia.
  split; [exact Hparse|]. split; [exact HN|]. split; [by vm_compute|].
  exact (proj1 (renderChildren_negative st (-3) Hparse HN)).
Defined.

Lemma rendered_with_children bs st : rendered (with_children bs st) = rendered st.
Proof. unfold rendered, with_children. by destruct st as [w []]. Qed.

Lemma update_child_with_children g b k f st :
  exists bs, update (Child g b k) f st = with_children bs st.
Proof.
  unfold update. case_decide.
  - by eexists.
  - exists (children (forms st)). by destruct st as [? []].
Qed.

(** X16.  Rendering starts from an empty container: on a page whose
    static ids are clear of the scheme the state [renderChildren]
    leaves does not depend on what the container held.  So whatever
    was entered in a field of a child form is lost when a count is
    chosen again, also when it is the same count; and the static
    elements are exactly as before. *)
Theorem renderChildren_discards_input (st : State) (bs : list Block)
    (g b k : nat) (f : Element -> Element) :
  static_ids_clear st = true ->
  renderChildren (with_children bs st) = renderChildren st /\
  renderChildren (update (Child g b k) f st) = renderChildren st /\
  exists st',
    renderChildren st = (Normal tt, st') /\
    static (forms st') = static (forms st) /\
    forall v, choose_children v (update (Child g b k) f st) = choose_children v st.
Proof.
  intros Hclear.
  assert (forall bs', renderChildren (with_children bs' st) = renderChildren st) as Hwith.
  { intros bs'. rewrite !renderChildren_exact by done. by rewrite rendered_with_children. }
  split; [apply Hwith|].
  destruct (update_child_with_children g b k f st) as [bs' Hupd].
  split; [rewrite Hupd; apply Hwith|].
  exists (rendered st). split; [by apply renderChildren_exact|]. split; [done|].
  intros v. unfold choose_children, run_handler. rewrite Hupd.
  assert (on_forms (set_numChildrenSelect_value v) (with_children bs' st)
          = with_children bs' (on_forms (set_numChildrenSelect_value v) st)) as ->
    by (by destruct st as [? []]).
  rewrite !renderChildren_exact by (by destruct st as [? []]).
  by rewrite rendered_with_children.
Qed.

Lemma renderChildren_discards_input_witness :
  let st := choose_children "2" sample_page in
  let expenses := Child 1 1 8 in
  static_ids_clear st = true /\
  el_value <$> deref expenses (input_text expenses "1" st) = Some "1" /\
  choose_children "2" (input_text expenses "1" st) = choose_children "2" st.
Proof.
  intros st expenses.
  assert (static_ids_clear st = true) as Hclear by reflexivity.
  split; [exact Hclear|]. split; [reflexivity|].
  destruct (renderChildren_discards_input st [] 1 1 8 (set_el_value "1") Hclear)
    as (_ & _ & st' & _ & _ & Hchoose).
  exact (Hchoose "2").
Defined.


(** ** The names of the generated controls *)

Lemma omap_concat {A B} (f : A -> option B) (ls : list (list A)) :
  omap f (concat ls) = concat (map (omap f) ls).
Proof. induction ls as [|l ls IH]; [done|]. cbn [concat map]. by rewrite omap_app, IH. Qed.

Lemma omap_name_erase (blk : list Element) :
  omap el_name (map erase blk) = omap el_name blk.
Proof. induction blk as [|e blk IH]; [done|]. cbn. by rewrite IH. Qed.

Lemma NoDup_child_ids (fields : list string) (n : nat) (a : Z) :
  NoDup fields -> 0 <= a ->
  NoDup (concat (map (fun i => map (child_id i) fields) (seqZ a (Z.of_nat n)))).
Proof.
  intros Hnd. revert a. induction n as [|n IH]; intros a Ha; [constructor|].
  rewrite (seqZ_cons a) by lia. cbn [map concat].
  replace (Z.pred (Z.of_nat (S n))) with (Z.of_nat n) by lia.
  apply NoDup_app. split_and!.
  - apply (NoDup_fmap_2_strong (child_id a)); [|done].
    intros f f' _ _ Heq. by apply child_id_inj in Heq as [_ ?].
  - intros x [f [-> _]]%list_elem_of_fmap Hin.
    apply list_elem_of_In, in_concat in Hin as (l & Hl & Hx).
    apply in_map_iff in Hl as (i & <- & Hi).
    apply list_elem_of_In, elem_of_seqZ in Hi.
    apply in_map_iff in Hx as (f' & Heq & _).
    apply child_id_inj in Heq as [? _]; lia.
  - apply IH. lia.
Qed.

(** X14.  After [renderChildren] has rendered [N] blocks, every control
    of a child form that has a name has that name as its id, the names
    are those of the scheme [child_i_field], seven for each child, and
    no two controls of the container share a name.  ([N] is a safe
    integer.) *)
Theorem child_control_names (st : State) (N : Z) :
  JS.parseInt (numChildrenSelect_value (forms st)) = JS.Num N ->
  0 <= N <= JS.MAX_SAFE_INTEGER ->
  exists st',
    renderChildren st = (Normal tt, st') /\
    (forall (blk : Block) (e : Element) (x : string),
       blk ∈ children (forms st') -> e ∈ blk -> el_name e = Some x -> el_id e = Some x) /\
    omap el_name (concat (children (forms st')))
      = concat (map (fun i => map (child_id i)
                                ["age"; "private_school"; "private_university"; "buy_house";
                                 "house_location"; "house_bedrooms"; "annual_expenses"])
                  (seqZ 0 N)) /\
    NoDup (omap el_name (concat (children (forms st')))).
Proof.
  intros Hparse HN.
  destruct (renderChildren_markup st) as (st' & Hrun & Hw & Hm).
  rewrite Hparse in Hm. cbn [iterations JS.gt0] in Hm. rewrite Z2Nat.id in Hm by lia.
  assert (map (map erase) (children (forms st')) = map (fun i => childFormHTML i st) (seqZ 0 N))
    as Hch.
  { apply (f_equal children) in Hm. by destruct st' as [? []]. }
  assert (omap el_name (concat (children (forms st')))
          = concat (map (fun i => map (child_id i)
                                    ["age"; "private_school"; "private_university";
                                     "buy_house"; "house_location"; "house_bedrooms";
                                     "annual_expenses"])
                      (seqZ 0 N))) as Hnames.
  { rewrite omap_concat.
    rewrite <-(map_ext (fun blk => omap el_name (map erase blk)) _ omap_name_erase).
    rewrite <-(map_map (map erase) (omap el_name)), Hch, map_map. done. }
  exists st'. split_and!; [done| |done|].
  - intros blk e x Hblk He Hx.
    assert (map erase blk ∈ map (map erase) (children (forms st'))) as Hin.
    { by apply (list_elem_of_fmap_2 (map erase)). }
    rewrite Hch in Hin. apply list_elem_of_fmap in Hin as (i & Heq & _).
    assert (erase e ∈ childFormHTML i st) as He'.
    { rewrite <-Heq. by apply (list_elem_of_fmap_2 erase). }
    assert (el_name (erase e) = Some x) as Hx' by (by destruct e).
    assert (el_id (erase e) = Some x); [|by destruct e].
    unfold childFormHTML in He'. revert He' Hx'. generalize (erase e). intros e0.
    rewrite !elem_of_cons, elem_of_nil.
    intros He0. repeat (destruct He0 as [->|He0]; [cbn; congruence|]). done.
  - rewrite Hnames. replace N with (Z.of_nat (Z.to_nat N)) by lia.
    apply NoDup_child_ids; [|lia].
    apply (bool_decide_eq_true_1 (NoDup _)). by vm_compute.
Qed.

Lemma child_control_names_witness :
  JS.parseInt (numChildrenSelect_value (forms sample_page)) = JS.Num 2 /\
  0 <= 2 <= JS.MAX_SAFE_INTEGER /\
  exists st',
    renderChildren sample_page = (Normal tt, st') /\
    NoDup (omap el_name (concat (children (forms st')))).
Proof.
  assert (JS.parseInt (numChildrenSelect_value (forms sample_page)) = JS.Num 2)
    as Hparse by (by vm_compute).
  assert (0 <= 2 <= JS.MAX_SAFE_INTEGER) as HN by (by vm_compute).
  split; [exact Hparse|]. split; [exact HN|].
  destruct (child_control_names sample_page 2 Hparse HN) as (st' & Hrun & _ & _ & Hnd).
  exists st'. split; [exact Hrun | exact Hnd].
Defined.

(** ** Registering listeners *)

Lemma find_id_erase id (l : list Element) : find_id id (map erase l) = find_id id l.
Proof. by rewrite !find_id_ids, el_id_erase. Qed.

Lemma find_in_blocks_erase id b (bs : list Block) :
  find_in_blocks id b (map (map erase) bs) = find_in_blocks id b bs.
Proof.
  revert b. induction bs as [|blk bs IH]; intros b; [done|].
  cbn [map find_in_blocks]. by rewrite find_id_erase, IH.
Qed.

(** [getElementById] does not look at listeners. *)
Lemma find_element_markup id fs : find_element id (markup fs) = find_element id fs.
Proof.
  unfold find_element, markup.
  cbn [static container_at children generation set_children set_static].
  change (map erase (static fs)) with (erase <$> static fs).
  rewrite <-fmap_take, <-fmap_drop.
  change (erase <$> ?l) with (map erase l).
  by rewrite !find_id_erase, find_in_blocks_erase.
Qed.

Lemma find_element_same_markup id fs fs' :
  markup fs' = markup fs -> find_element id fs' = find_element id fs.
Proof. intros Hm. by rewrite <-(find_element_markup id fs'), Hm, find_element_markup. Qed.

Lemma listeners_for_add_other ty r' r type l st :
  r <> r' \/ type <> ty ->
  listeners_for ty r'
    (update r (fun e => set_el_listeners (el_listeners e ++ [(type, l)]) e) st)
  = listeners_for ty r' st.
Proof.
  intros Hne. unfold listeners_for. rewrite deref_update.
  case_decide as Hr; [subst r'|done]. destruct Hne as [?|Hty]; [done|].
  destruct (deref r st) as [e|]; [|done]. cbn.
  rewrite filter_app, filter_cons_False, filter_nil, app_nil_r by done. done.
Qed.

(** X6.  When both ids are found, [bindToggle] registers one [change]
    listener on the checkbox and does nothing else: the listeners of
    the checkbox for other events, every other element, the markup of
    the page and the wizard are as before.  In particular the classes
    of the section are not touched when the binding is made: the
    section follows the checkbox from the first change on, not
    before. *)
Theorem bindToggle_footprint (st : State) (checkboxId sectionId : string) (cb section : Ref) :
  find_element checkboxId (forms st) = Some cb ->
  find_element sectionId (forms st) = Some section ->
  exists st1,
    bindToggle checkboxId sectionId st = (Normal tt, st1) /\
    wizard st1 = wizard st /\
    markup (forms st1) = markup (forms st) /\
    (forall r, r <> cb -> deref r st1 = deref r st) /\
    (erase <$> deref cb st1 = erase <$> deref cb st) /\
    listeners_for "change" cb st1
      = listeners_for "change" cb st ++ [toggle_visible cb section] /\
    (forall ty, ty <> "change" -> listeners_for ty cb st1 = listeners_for ty cb st) /\
    (forall id, find_element id (forms st1) = find_element id (forms st)).
Proof.
  intros Hcb Hsec. unfold bindToggle, getElementById, bind, get, ret.
  rewrite Hcb, Hsec. unfold addEventListener, modify.
  destruct (find_element_deref _ _ _ Hcb) as (c0 & Hc0 & _).
  eexists. split; [reflexivity|].
  assert (markup (forms (update cb
            (fun e => set_el_listeners (el_listeners e ++ [("change", toggle_visible cb section)]) e)
            st)) = markup (forms st)) as Hm by (by apply markup_update).
  split_and!.
  - apply wizard_update.
  - exact Hm.
  - intros r Hr. by rewrite deref_update_ne.
  - rewrite deref_update_eq. by destruct (deref cb st).
  - by apply (listeners_for_addEventListener _ _ _ _ c0).
  - intros ty Hty. apply listeners_for_add_other. right. congruence.
  - intros id. by apply find_element_same_markup.
Qed.

Lemma bindToggle_footprint_witness :
  find_element "has_vacation_home" (forms sample_page) = Some (Static 0) /\
  find_element "vacation-home-section" (forms sample_page) = Some (Static 1) /\
  exists st1,
    bindToggle "has_vacation_home" "vacation-home-section" sample_page = (Normal tt, st1) /\
    deref (Static 1) st1 = deref (Static 1) sample_page /\
    listeners_for "change" (Static 0) st1 = [toggle_visible (Static 0) (Static 1)].
Proof.
  assert (find_element "has_vacation_home" (forms sample_page) = Some (Static 0)) as Hcb
    by reflexivity.
  assert (find_element "vacation-home-section" (forms sample_page) = Some (Static 1)) as Hsec
    by reflexivity.
  split; [exact Hcb|]. split; [exact Hsec|].
  destruct (bindToggle_footprint sample_page _ _ _ _ Hcb Hsec)
    as (st1 & Hrun & _ & _ & Hothers & _ & Hls & _).
  exists st1. split; [exact Hrun|]. split; [by apply Hothers|]. exact Hls.
Defined.

(** ** Currency formatting: what is ignored *)

Lemma digits_of_app s1 s2 : digits_of (s1 +:+ s2) = digits_of s1 +:+ digits_of s2.
Proof.
  unfold digits_of. induction s1 as [|c r IH]; [done|].
  rewrite append_cons. cbn [JS.remove_all]. rewrite IH. by destruct (JS.non_digit c).
Qed.

Lemma formatCurrency_digits_of s t : digits_of s = digits_of t -> formatCurrency s = formatCurrency t.
Proof. intros Heq. rewrite !formatCurrency_number. unfold amount_of. by rewrite Heq. Qed.

(** X18.  [formatCurrency] reads the digits and nothing else: a
    character that is not a digit can be put anywhere in the text
    without changing the result.  So a sign is dropped and a decimal
    point joins the digits around it: ["-5"] gives ["5"] and ["12.50"]
    gives ["1,250"]. *)
Theorem formatCurrency_ignores_non_digits (s1 s2 : string) (c : ascii) :
  JS.is_digit c = false ->
  formatCurrency (s1 +:+ String c s2) = formatCurrency (s1 +:+ s2) /\
  formatCurrency (s1 +:+ s2) = formatCurrency (digits_of s1 +:+ digits_of s2).
Proof.
  intros Hc. split; apply formatCurrency_digits_of.
  - rewrite !digits_of_app. f_equal. unfold digits_of. cbn [JS.remove_all].
    unfold JS.non_digit at 1. by rewrite Hc.
  - rewrite !digits_of_app.
    by rewrite !(digits_of_digits _ (digits_only_digits_of _)).
Qed.

Lemma formatCurrency_ignores_non_digits_witness :
  JS.is_digit "."%char = false /\
  formatCurrency "12.50" = formatCurrency "1250" /\
  formatCurrency "1250" = "1,250".
Proof.
  assert (JS.is_digit "."%char = false) as Hc by reflexivity.
  split; [exact Hc|]. split; [|by vm_compute].
  exact (proj1 (formatCurrency_ignores_non_digits "12" "50" "."%char Hc)).
Defined.

(** ** Page load, continued *)

(** Elements are the same up to listeners in two states with the same
    markup. *)
Lemma deref_same_markup r st st' :
  markup (forms st') = markup (forms st) -> erase <$> deref r st' = erase <$> deref r st.
Proof.
  intros Hm.
  assert (forall s, erase <$> deref r s
                    = deref r {| wizard := wizard st; forms := markup (forms s) |}) as Hvia.
  { intros s. destruct r as [k|g b k]; unfold deref, markup;
      cbn [forms static children generation set_children set_static].
    - change (map erase ?l) with (erase <$> l). by rewrite list_lookup_fmap.
    - case_decide; [|done]. change (map (map erase) ?l) with (map erase <$> l).
      rewrite list_lookup_fmap. destruct (children (forms s) !! b) as [blk|]; [|done].
      cbn. change (map erase blk) with (erase <$> blk). by rewrite list_lookup_fmap. }
  by rewrite !Hvia, Hm.
Qed.

Lemma deref_same_markup_Some r st st' e :
  markup (forms st') = markup (forms st) -> deref r st = Some e ->
  exists e', deref r st' = Some e' /\ erase e' = erase e.
Proof.
  intros Hm He. pose proof (deref_same_markup r st st' Hm) as Heq. rewrite He in Heq.
  destruct (deref r st') as [e'|]; [|done]. cbn in Heq.
  exists e'. split; [done|congruence].
Qed.

Lemma find_element_inj a a' fs r :
  find_element a fs = Some r -> find_element a' fs = Some r -> a = a'.
Proof.
  intros Ha Ha'.
  destruct (find_element_deref a {| wizard := wizard sample_page; forms := fs |} r Ha)
    as (e & He & Hid).
  destruct (find_element_deref a' {| wizard := wizard sample_page; forms := fs |} r Ha')
    as (e' & He' & Hid').
  congruence.
Qed.

Lemma bindToggle_run a b st :
  exists st',
    bindToggle a b st = (Normal tt, st') /\
    wizard st' = wizard st /\
    markup (forms st') = markup (forms st) /\
    (forall r, listeners_for "change" r st'
               = listeners_for "change" r st ++ toggle_listeners a b r (forms st)) /\
    (forall ty r, ty <> "change" -> listeners_for ty r st' = listeners_for ty r st).
Proof.
  unfold bindToggle, getElementById, bind, get, ret, toggle_listeners.
  destruct (find_element a (forms st)) as [cb|] eqn:Hcb;
    [destruct (find_element b (forms st)) as [section|] eqn:Hsec|].
  - unfold addEventListener, modify.
    destruct (find_element_deref _ _ _ Hcb) as (c0 & Hc0 & _).
    eexists. split; [reflexivity|]. split_and!.
    + apply wizard_update.
    + by apply markup_update.
    + intros r. destruct (decide (cb = r)) as [<-|Hne].
      * by apply (listeners_for_addEventListener _ _ _ _ c0).
      * rewrite app_nil_r. apply listeners_for_add_other. by left.
    + intros ty r Hty. apply listeners_for_add_other. right. congruence.
  - exists st. split_and!; [done..| |done]. intros r. by rewrite app_nil_r.
  - exists st. split_and!; [done..| |done]. intros r. by rewrite app_nil_r.
Qed.

Lemma bindCurrencyFormat_run x st :
  exists st',
    bindCurrencyFormat x st = (Normal tt, st') /\
    wizard st' = wizard st /\
    markup (forms st') = markup (forms st) /\
    (forall ty r, ty <> "blur" -> ty <> "focus" ->
       listeners_for ty r st' = listeners_for ty r st) /\
    (forall ty r, r <> x -> listeners_for ty r st' = listeners_for ty r st) /\
    (forall e, deref x st = Some e ->
       listeners_for "blur" x st' = listeners_for "blur" x st ++ [format_on_blur x] /\
       listeners_for "focus" x st' = listeners_for "focus" x st ++ [strip_on_focus x]).
Proof.
  unfold bindCurrencyFormat, addEventListener, bind, modify.
  eexists. split; [reflexivity|]. split_and!.
  - by rewrite !wizard_update.
  - by rewrite !markup_update.
  - intros ty r Hb Hf. rewrite !listeners_for_add_other; [done|right; congruence..].
  - intros ty r Hr. rewrite !listeners_for_add_other; [done|left; congruence..].
  - intros e He. split.
    + rewrite listeners_for_add_other by (by right).
      by apply (listeners_for_addEventListener _ _ _ _ e).
    + rewrite (listeners_for_addEventListener _ _ _ _
                 (set_el_listeners (el_listeners e ++ [("blur", format_on_blur x)]) e))
        by (by rewrite deref_update_eq, He).
      by rewrite listeners_for_add_other by (by right).
Qed.

Lemma forEach_bindCurrencyFormat rs st :
  exists st',
    forEach rs bindCurrencyFormat st = (Normal tt, st') /\
    wizard st' = wizard st /\
    markup (forms st') = markup (forms st) /\
    (forall ty r, ty <> "blur" -> ty <> "focus" ->
       listeners_for ty r st' = listeners_for ty r st) /\
    (forall ty r, r ∉ rs -> listeners_for ty r st' = listeners_for ty r st) /\
    (forall r e, deref r st = Some e ->
       listeners_for "blur" r st'
         = listeners_for "blur" r st
             ++ replicate (count_occ Ref_eq_dec rs r) (format_on_blur r) /\
       listeners_for "focus" r st'
         = listeners_for "focus" r st
             ++ replicate (count_occ Ref_eq_dec rs r) (strip_on_focus r)).
Proof.
  revert st. induction rs as [|x rs IH]; intros st.
  { exists st. split_and!; [done..|]. intros r e _. cbn. by rewrite !app_nil_r. }
  destruct (bindCurrencyFormat_run x st) as (st1 & Hrun1 & Hw1 & Hm1 & Hty1 & Hne1 & Hx1).
  destruct (IH st1) as (st2 & Hrun2 & Hw2 & Hm2 & Hty2 & Hne2 & Hx2).
  exists st2. cbn [forEach]. unfold bind at 1. rewrite Hrun1.
  split; [exact Hrun2|]. split_and!.
  - congruence.
  - congruence.
  - intros ty r Hb Hf. by rewrite Hty2, Hty1.
  - intros ty r [Hr Hrs]%not_elem_of_cons. by rewrite Hne2, Hne1.
  - intros r e He.
    destruct (deref_same_markup_Some r st st1 e Hm1 He) as (e1 & He1 & _).
    destruct (Hx2 r e1 He1) as [-> ->].
    destruct (decide (x = r)) as [->|Hne].
    + destruct (Hx1 e He) as [-> ->].
      rewrite count_occ_cons_eq by done. cbn [replicate].
      by rewrite <-!app_assoc.
    + rewrite count_occ_cons_neq by done. by rewrite !Hne1 by done.
Qed.

Lemma elem_of_around {A} (x : A) n (l g : list A) :
  x ∈ take n l ++ g ++ drop n l <-> x ∈ l \/ x ∈ g.
Proof.
  rewrite <-(take_drop n l) at 3. rewrite !elem_of_app. tauto.
Qed.

(** [querySelectorAll] returns the elements of the document that carry
    the class. *)
Lemma elem_of_querySelectorAll c r st :
  r ∈ querySelectorAll c st <-> exists e, deref r st = Some e /\ c ∈ el_classList e.
Proof.
  unfold querySelectorAll. cbn zeta. rewrite list_elem_of_fmap. split.
  - intros ([r' e] & -> & [Hc Hin]%list_elem_of_filter). exists e. split; [|done].
    cbn [fst]. apply elem_of_around in Hin as [Hin|Hin].
    + apply elem_of_lookup_imap in Hin as (k & e0 & [= -> ->] & Hk). done.
    + apply list_elem_of_In, in_concat in Hin as (l & Hl & Hin).
      apply list_elem_of_In, elem_of_lookup_imap in Hl as (b & blk & -> & Hb).
      apply list_elem_of_In, elem_of_lookup_imap in Hin as (k & e0 & [= -> ->] & Hk).
      unfold deref. rewrite decide_True by done. by rewrite Hb.
  - intros (e & He & Hc). exists (r, e). split; [done|].
    apply list_elem_of_filter. split; [done|]. apply elem_of_around.
    destruct r as [k|g b k]; unfold deref in He.
    + left. apply elem_of_lookup_imap. by exists k, e.
    + right. case_decide as Hg; [subst g|done].
      destruct (children (forms st) !! b) as [blk|] eqn:Hb; [|done]. cbn in He.
      apply list_elem_of_In, in_concat.
      exists (imap (fun k e => (Child (generation (forms st)) b k, e)) blk). split.
      * apply list_elem_of_In, elem_of_lookup_imap. by exists b, blk.
      * apply list_elem_of_In, elem_of_lookup_imap. by exists k, e.
Qed.

Lemma NoDup_concat_imap {A B} (f : nat -> A -> list B) (l : list A) :
  (forall b x, NoDup (f b x)) ->
  (forall b b' x x' y, y ∈ f b x -> y ∈ f b' x' -> b = b') ->
  NoDup (concat (imap f l)).
Proof.
  revert f. induction l as [|x l IH]; intros f Hnd Hdisj; [constructor|].
  rewrite imap_cons. cbn [concat]. apply NoDup_app. split_and!.
  - apply Hnd.
  - intros y Hy Hin. apply list_elem_of_In, in_concat in Hin as (l' & Hl' & Hy').
    apply list_elem_of_In, elem_of_lookup_imap in Hl' as (b & x' & -> & _).
    apply list_elem_of_In in Hy'. cbn in Hy'.
    by specialize (Hdisj _ _ _ _ _ Hy Hy').
  - apply IH; [intros; apply Hnd|].
    intros b b' x1 x2 y Hy Hy'. cbn in Hy, Hy'.
    by specialize (Hdisj _ _ _ _ _ Hy Hy') as [= ->].
Qed.

(** [querySelectorAll] returns an element once. *)
Lemma NoDup_querySelectorAll c st : NoDup (querySelectorAll c st).
Proof.
  unfold querySelectorAll. cbn zeta.
  refine (sublist_NoDup _ _ _ (fmap_sublist _ _ _ (sublist_filter _ _))).
  rewrite !fmap_app, fmap_take, fmap_drop, fmap_imap.
  rewrite Permutation_app_swap_app, take_drop.
  assert (forall (A : Type) (h : nat -> Ref) (l : list A),
            Inj (=) (=) h -> NoDup (imap (fun k e => ((fun k e => (h k, e)) k e).1) l))
    as Hrefs.
  { intros A h l Hinj. cbn [fst]. rewrite imap_seq_0. apply NoDup_fmap_2; [done|].
    apply NoDup_seq. }
  apply NoDup_app. split_and!.
  - change (fst <$> ?l) with (map fst l). rewrite concat_map.
    change (map (map fst) ?l) with (map fst <$> l). rewrite fmap_imap.
    apply NoDup_concat_imap.
    + intros b blk. cbn. change (map fst ?l) with (fst <$> l). rewrite fmap_imap.
      apply (Hrefs _ (Child (generation (forms st)) b)). by intros k k' [=].
    + intros b b' blk blk' y. cbn. change (map fst ?l) with (fst <$> l).
      rewrite !fmap_imap.
      intros (k & e & -> & _)%elem_of_lookup_imap (k' & e' & [=] & _)%elem_of_lookup_imap.
      done.
  - intros y Hy (k & e & -> & _)%elem_of_lookup_imap.
    change (fst <$> ?l) with (map fst l) in Hy. rewrite concat_map in Hy.
    apply list_elem_of_In, in_concat in Hy as (l' & Hl' & Hy).
    change (map (map fst) ?l) with (map fst <$> l) in Hl'. rewrite fmap_imap in Hl'.
    apply list_elem_of_In, elem_of_lookup_imap in Hl' as (b & blk & -> & _).
    cbn in Hy. change (map fst ?l) with (fst <$> l) in Hy. rewrite fmap_imap in Hy.
    by apply list_elem_of_In, elem_of_lookup_imap in Hy as (k' & e' & [=] & _).
  - apply (Hrefs _ Static). by intros k k' [=].
Qed.

Lemma toggle_listeners_same_markup a b r fs fs' :
  markup fs' = markup fs -> toggle_listeners a b r fs' = toggle_listeners a b r fs.
Proof.
  intros Hm. unfold toggle_listeners.
  by rewrite !(find_element_same_markup _ fs fs' Hm).
Qed.

(** What the page load does on a page that has a panel for step 1:
    step 1 is shown, and the forms gain listeners and nothing else. *)
Lemma main_run st k p :
  list_find (fun p => data_step p = Some (JS.toString 1)) (steps (wizard st)) = Some (k, p) ->
  exists st',
    main st = (Normal tt, st') /\
    wizard st' = shown 1 k (wizard st) /\
    markup (forms st') = markup (forms st) /\
    (forall r,
       listeners_for "change" r st'
       = listeners_for "change" r st
           ++ toggle_listeners "has_vacation_home" "vacation-home-section" r (forms st)
           ++ toggle_listeners "has_sailboat" "sailboat-section" r (forms st)
           ++ toggle_listeners "has_yacht" "yacht-section" r (forms st)
           ++ toggle_listeners "provide_for_grandchildren" "gc-details-section" r (forms st)) /\
    (forall ty r, ty <> "change" -> ty <> "blur" -> ty <> "focus" ->
       listeners_for ty r st' = listeners_for ty r st) /\
    exists n : Ref -> nat,
      (forall r, (n r <= 1)%nat) /\
      (forall r, (0 < n r)%nat
                 <-> exists e, deref r st = Some e /\ "input-currency" ∈ el_classList e) /\
      (forall r,
         listeners_for "blur" r st'
           = listeners_for "blur" r st ++ replicate (n r) (format_on_blur r) /\
         listeners_for "focus" r st'
           = listeners_for "focus" r st ++ replicate (n r) (strip_on_focus r)).
Proof.
  intros Hfind. unfold main. unfold bind at 1, modify at 1.
  set (st0 := on_wizard (set_currentStep 1) st).
  assert (list_find (fun p => data_step p = Some (JS.toString 1)) (steps (wizard st0))
          = Some (k, p)) as Hfind0 by (by destruct st as [[] ?]).
  unfold bind at 1. rewrite (showStep_steps 1 st0 k p Hfind0). cbn zeta.
  change (1 =? 4) with false. cbn iota.
  assert ({| wizard := shown 1 k (wizard st0); forms := forms st0 |}
          = {| wizard := shown 1 k (wizard st); forms := forms st |}) as ->
    by (by destruct st as [[] ?]).
  set (st1 := {| wizard := shown 1 k (wizard st); forms := forms st |}).
  destruct (bindToggle_run "has_vacation_home" "vacation-home-section" st1)
    as (st2 & Hrun2 & Hw2 & Hm2 & Hch2 & Hty2).
  destruct (bindToggle_run "has_sailboat" "sailboat-section" st2)
    as (st3 & Hrun3 & Hw3 & Hm3 & Hch3 & Hty3).
  destruct (bindToggle_run "has_yacht" "yacht-section" st3)
    as (st4 & Hrun4 & Hw4 & Hm4 & Hch4 & Hty4).
  destruct (bindToggle_run "provide_for_grandchildren" "gc-details-section" st4)
    as (st5 & Hrun5 & Hw5 & Hm5 & Hch5 & Hty5).
  destruct (forEach_bindCurrencyFormat (querySelectorAll "input-currency" st5) st5)
    as (st6 & Hrun6 & Hw6 & Hm6 & Hty6 & _ & Hx6).
  unfold bind at 1. rewrite Hrun2. unfold bind at 1. rewrite Hrun3.
  unfold bind at 1. rewrite Hrun4. unfold bind at 1. rewrite Hrun5.
  unfold bind at 1, get at 1.
  assert (markup (forms st1) = markup (forms st)) as Hm1 by done.
  assert (wizard st1 = shown 1 k (wizard st)) as Hw1 by done.
  assert (markup (forms st5) = markup (forms st)) as Hm by congruence.
  assert (forall ty r, listeners_for ty r st1 = listeners_for ty r st) as H1 by done.
  exists st6. split; [exact Hrun6|]. split_and!.
  - congruence.
  - congruence.
  - intros r. rewrite Hty6, Hch5, Hch4, Hch3, Hch2, H1 by done.
    rewrite (toggle_listeners_same_markup _ _ r (forms st) (forms st4)) by congruence.
    rewrite (toggle_listeners_same_markup _ _ r (forms st) (forms st3)) by congruence.
    rewrite (toggle_listeners_same_markup _ _ r (forms st) (forms st2)) by congruence.
    change (forms st1) with (forms st). by rewrite <-!app_assoc.
  - intros ty r Hc Hb Hf. by rewrite Hty6, Hty5, Hty4, Hty3, Hty2, H1.
  - exists (count_occ Ref_eq_dec (querySelectorAll "input-currency" st5)).
    split; [|split].
    + by apply NoDup_count_occ, NoDup_ListNoDup, NoDup_querySelectorAll.
    + intros r.
      transitivity (In r (querySelectorAll "input-currency" st5));
        [symmetry; apply (count_occ_In Ref_eq_dec)|].
      rewrite <-list_elem_of_In, elem_of_querySelectorAll.
      split.
      * intros (e5 & He5 & Hc).
        destruct (deref_same_markup_Some r st5 st e5 (eq_sym Hm) He5) as (e & He & Her).
        exists e. split; [done|].
        apply (f_equal el_classList) in Her. cbn in Her. by rewrite Her.
      * intros (e & He & Hc).
        destruct (deref_same_markup_Some r st st5 e Hm He) as (e5 & He5 & Her).
        exists e5. split; [done|].
        apply (f_equal el_classList) in Her. cbn in Her. by rewrite Her.
    + intros r.
      assert (forall ty, ty <> "change" -> listeners_for ty r st5 = listeners_for ty r st)
        as H5 by (intros ty Hty; by rewrite Hty5, Hty4, Hty3, Hty2, H1).
      destruct (deref r st5) as [e5|] eqn:He5.
      * destruct (Hx6 r e5 He5) as [-> ->]. by rewrite !H5.
      * assert (deref r st6 = None) as He6.
        { pose proof (deref_same_markup r st5 st6 Hm6) as Heq. rewrite He5 in Heq.
          by destruct (deref r st6). }
        assert (deref r st = None) as He.
        { pose proof (deref_same_markup r st st5 Hm) as Heq. rewrite He5 in Heq.
          by destruct (deref r st). }
        assert (count_occ Ref_eq_dec (querySelectorAll "input-currency" st5) r = 0%nat)
          as ->.
        { apply count_occ_not_In. rewrite <-list_elem_of_In, elem_of_querySelectorAll.
          intros (e & He' & _). congruence. }
        unfold listeners_for. by rewrite He6, He.
Qed.

(** X20.  On a page whose panels are tagged, loading completes with
    step 1 shown and the previous button hidden, and the forms keep
    their markup: elements gain listeners and nothing else.  In
    particular no child form is rendered at load, whatever the count
    selector holds: the container is filled on landing on step 4 or
    on a change of the selector only. *)
Theorem main_shows_first_step (st : State) :
  steps_tagged st = true -> 1 <= totalSteps st ->
  exists st' k p,
    main st = (Normal tt, st') /\
    list_find (fun p => data_step p = Some (JS.toString 1)) (steps (wizard st)) = Some (k, p) /\
    wizard st' = shown 1 k (wizard st) /\
    currentStep (wizard st') = 1 /\
    prevBtn_visibility (wizard st') = "hidden" /\
    markup (forms st') = markup (forms st) /\
    map (map erase) (children (forms st')) = map (map erase) (children (forms st)) /\
    (forall r e, deref r st = Some e ->
       exists e', deref r st' = Some e' /\ erase e' = erase e).
Proof.
  intros Htag Htot. destruct (steps_tagged_find st 1 Htag ltac:(lia)) as (k & p & Hfind).
  destruct (main_run st k p Hfind) as (st' & Hrun & Hw & Hm & _).
  exists st', k, p. split_and!; [done..| | | | |].
  - by rewrite Hw.
  - by rewrite Hw.
  - done.
  - by apply (f_equal children) in Hm.
  - intros r e He. by apply (deref_same_markup_Some r st st').
Qed.

Lemma main_shows_first_step_witness :
  let st := on_wizard (set_currentStep 3) (choose_children "2" sample_page) in
  steps_tagged st = true /\ 1 <= totalSteps st /\
  exists st',
    main st = (Normal tt, st') /\ currentStep (wizard st') = 1 /\
    map (map erase) (children (forms st')) = map (map erase) (children (forms st)).
Proof.
  intros st.
  assert (steps_tagged st = true) as Htag by reflexivity.
  assert (1 <= totalSteps st) as Htot by (by vm_compute).
  split; [exact Htag|]. split; [exact Htot|].
  destruct (main_shows_first_step st Htag Htot)
    as (st' & k & p & Hrun & _ & _ & Hcur & _ & _ & Hch & _).
  exists st'. split; [exact Hrun|]. split; [exact Hcur | exact Hch].
Defined.

(** X21.  On a page without a panel for step 1, loading stops at
    [showStep(1)] with a [TypeError]: every panel has lost [active],
    and nothing that follows in the script has run, so no toggle and
    no currency field is bound and the forms are as the markup has
    them. *)
Theorem main_without_first_panel (st : State) :
  has_step st 1 = false ->
  exists st',
    main st = (Throw "TypeError", st') /\
    Forall (fun p => "active" ∉ panel_classList p) (steps (wizard st')) /\
    currentStep (wizard st') = 1 /\
    forms st' = forms st.
Proof.
  intros Hno. unfold main. unfold bind at 1, modify at 1.
  set (st0 := on_wizard (set_currentStep 1) st).
  assert (has_step st0 1 = false) as Hno0 by (by destruct st as [[] ?]).
  unfold bind at 1. rewrite (showStep_missing 1 st0 (has_step_false_find st0 1 Hno0)).
  eexists. split; [reflexivity|]. destruct st as [w f]. cbn. split_and!; [|done..].
  apply Forall_forall. intros p (q & -> & _)%list_elem_of_fmap. cbn.
  rewrite elem_of_classList_remove. by intros [? _].
Qed.

Lemma main_without_first_panel_witness :
  let st := on_wizard (set_steps [panel 2 ["active"]; panel 3 []]) sample_page in
  has_step st 1 = false /\
  exists st', main st = (Throw "TypeError", st') /\ forms st' = forms st.
Proof.
  intros st.
  assert (has_step st 1 = false) as Hno by reflexivity.
  split; [exact Hno|].
  destruct (main_without_first_panel st Hno) as (st' & Hrun & _ & _ & Hforms).
  exists st'. split; [exact Hrun | exact Hforms].
Defined.

Lemma toggle_listeners_self a b cb section fs :
  find_element a fs = Some cb -> find_element b fs = Some section ->
  toggle_listeners a b cb fs = [toggle_visible cb section].
Proof. intros Hcb Hsec. unfold toggle_listeners. by rewrite Hcb, Hsec, decide_True. Qed.

Lemma toggle_listeners_other a a' b' cb fs :
  find_element a fs = Some cb -> a' <> a -> toggle_listeners a' b' cb fs = [].
Proof.
  intros Hcb Hne. unfold toggle_listeners.
  destruct (find_element a' fs) as [cb'|] eqn:Hcb'; [|done].
  destruct (find_element b' fs); [|done].
  case_decide; [subst cb'|done]. destruct Hne. by eapply find_element_inj.
Qed.

(** X22.  Loading binds the four conditional sections of the page:
    for each of the pairs vacation home, sailboat, yacht and
    grandchildren whose checkbox and section are in the document,
    after the load the section keeps the classes it had, and after
    any number of later changes of the checkbox the section is
    [visible] exactly when the box is checked. *)
Theorem main_binds_toggles (st : State) (a b : string) (cb section : Ref) :
  steps_tagged st = true -> 1 <= totalSteps st ->
  (a, b) ∈ [("has_vacation_home", "vacation-home-section");
            ("has_sailboat", "sailboat-section");
            ("has_yacht", "yacht-section");
            ("provide_for_grandchildren", "gc-details-section")] ->
  find_element a (forms st) = Some cb ->
  find_element b (forms st) = Some section ->
  exists st' c0 s0,
    main st = (Normal tt, st') /\
    deref cb st = Some c0 /\ deref section st = Some s0 /\
    (exists s1, deref section st' = Some s1 /\ el_classList s1 = el_classList s0) /\
    forall n : nat,
      let st'' := Nat.iter (S n) (toggle_checkbox cb) st' in
      exists c s,
        deref cb st'' = Some c /\ deref section st'' = Some s /\
        el_checked c = Nat.iter (S n) negb (el_checked c0) /\
        ("visible" ∈ el_classList s <-> el_checked c = true).
Proof.
  intros Htag Htot Hin Hcb Hsec.
  destruct (steps_tagged_find st 1 Htag ltac:(lia)) as (k & p & Hfind).
  destruct (main_run st k p Hfind) as (st' & Hrun & _ & Hm & Hch & _).
  destruct (find_element_deref _ _ _ Hcb) as (c0 & Hc0 & _).
  destruct (find_element_deref _ _ _ Hsec) as (s0 & Hs0 & _).
  destruct (deref_same_markup_Some cb st st' c0 Hm Hc0) as (c1 & Hc1 & Hce).
  destruct (deref_same_markup_Some section st st' s0 Hm Hs0) as (s1 & Hs1 & Hse).
  assert (listeners_for "change" cb st'
          = listeners_for "change" cb st ++ [toggle_visible cb section]) as Hls.
  { rewrite Hch. f_equal.
    rewrite !elem_of_cons, elem_of_nil in Hin.
    destruct Hin as [[= -> ->]|[[= -> ->]|[[= -> ->]|[[= -> ->]|[]]]]];
      rewrite (toggle_listeners_self _ _ cb section _ Hcb Hsec),
              !(toggle_listeners_other _ _ _ cb _ Hcb) by done;
      done. }
  exists st', c0, s0. split_and!; [done..| |].
  - exists s1. split; [done|]. apply (f_equal el_classList) in Hse. done.
  - intros n st''.
    destruct (toggle_checkbox_iter cb section _ st' c1 s1 (S n) Hc1 Hs1 Hls)
      as (c & s & Hc & Hs & Hchk & _ & Hvis).
    exists c, s. split_and!; [done..| |apply Hvis; lia].
    rewrite Hchk. apply (f_equal el_checked) in Hce. cbn in Hce. by rewrite Hce.
Qed.

Lemma main_binds_toggles_witness :
  steps_tagged sample_page = true /\ 1 <= totalSteps sample_page /\
  find_element "has_vacation_home" (forms sample_page) = Some (Static 0) /\
  find_element "vacation-home-section" (forms sample_page) = Some (Static 1) /\
  exists st',
    main sample_page = (Normal tt, st') /\
    (el_classList <$> deref (Static 1) st') = Some ["conditional-section"] /\
    exists c s,
      deref (Static 0) (toggle_checkbox (Static 0) st') = Some c /\
      deref (Static 1) (toggle_checkbox (Static 0) st') = Some s /\
      ("visible" ∈ el_classList s <-> el_checked c = true).
Proof.
  assert (steps_tagged sample_page = true) as Htag by reflexivity.
  assert (1 <= totalSteps sample_page) as Htot by (by vm_compute).
  assert (find_element "has_vacation_home" (forms sample_page) = Some (Static 0)) as Hcb
    by reflexivity.
  assert (find_element "vacation-home-section" (forms sample_page) = Some (Static 1)) as Hsec
    by reflexivity.
  assert (("has_vacation_home", "vacation-home-section")
            ∈ [("has_vacation_home", "vacation-home-section");
               ("has_sailboat", "sailboat-section");
               ("has_yacht", "yacht-section");
               ("provide_for_grandchildren", "gc-details-section")]) as Hin by left.
  split; [exact Htag|]. split; [exact Htot|]. split; [exact Hcb|]. split; [exact Hsec|].
  destruct (main_binds_toggles sample_page _ _ _ _ Htag Htot Hin Hcb Hsec)
    as (st' & c0 & s0 & Hrun & _ & Hs0 & (s1 & Hs1 & Hcl) & Hiter).
  exists st'. split; [exact Hrun|]. split.
  - rewrite Hs1. cbn. rewrite Hcl. injection Hs0 as <-. reflexivity.
  - destruct (Hiter 0%nat) as (c & s & Hc & Hs & _ & Hvis). exists c, s.
    split; [exact Hc|]. split; [exact Hs | exact Hvis].
Defined.

(** X23.  Loading makes every element of the document that carries
    the class [input-currency] a currency field, and no other element:
    such a field, when the page gave it no [blur] or [focus] listener
    of its own, has the formatter as its one [blur] listener and the
    stripper as its one [focus] listener.  So it shows the formatted
    text after a text was typed and the field left, and its text
    without commas when it is entered; an element without the class
    has the [blur] and [focus] listeners it had. *)
Theorem main_binds_currency_fields (st : State) (r : Ref) (e : Element) (t : string) :
  steps_tagged st = true -> 1 <= totalSteps st ->
  deref r st = Some e -> "input-currency" ∈ el_classList e ->
  listeners_for "blur" r st = [] -> listeners_for "focus" r st = [] ->
  exists st',
    main st = (Normal tt, st') /\
    listeners_for "blur" r st' = [format_on_blur r] /\
    listeners_for "focus" r st' = [strip_on_focus r] /\
    el_value <$> deref r (blur r (input_text r t st')) = Some (formatCurrency t) /\
    el_value <$> deref r (focus r st') = Some (JS.remove_all JS.comma (el_value e)) /\
    (forall r' e', deref r' st = Some e' -> "input-currency" ∉ el_classList e' ->
       listeners_for "blur" r' st' = listeners_for "blur" r' st /\
       listeners_for "focus" r' st' = listeners_for "focus" r' st).
Proof.
  intros Htag Htot He Hc Hblur Hfocus.
  destruct (steps_tagged_find st 1 Htag ltac:(lia)) as (k & p & Hfind).
  destruct (main_run st k p Hfind)
    as (st' & Hrun & _ & Hm & _ & _ & n & Hone & Hn & Hls).
  destruct (deref_same_markup_Some r st st' e Hm He) as (e1 & He1 & Her).
  assert (el_value e1 = el_value e) as Hv by (by apply (f_equal el_value) in Her).
  assert (n r = 1%nat) as Hn1.
  { assert (0 < n r)%nat as Hpos by (apply Hn; eauto). specialize (Hone r). lia. }
  destruct (Hls r) as [Hb Hf]. rewrite Hblur, Hn1 in Hb. rewrite Hfocus, Hn1 in Hf.
  cbn [app replicate] in Hb, Hf.
  exists st'. split_and!; [done..| | |].
  - by rewrite (blur_typed r st' e1 t He1 Hb), deref_update_eq, He1.
  - rewrite (focus_bound r st' e1 He1 Hf), deref_update_eq, He1. cbn. by rewrite Hv.
  - intros r' e' He' Hc'.
    assert (n r' = 0%nat) as Hz.
    { destruct (n r') eqn:Hnr; [done|].
      assert (0 < n r')%nat as Hpos by lia.
      apply Hn in Hpos as (e2 & He2 & Hc2). congruence. }
    destruct (Hls r') as [-> ->]. rewrite Hz. cbn. by rewrite !app_nil_r.
Qed.

Lemma main_binds_currency_fields_witness :
  let st := {| wizard := wizard sample_page;
               forms := markup (forms (choose_children "2" sample_page)) |} in
  let r := Child 1 0 8 in
  steps_tagged st = true /\ 1 <= totalSteps st /\
  listeners_for "blur" r st = [] /\ listeners_for "focus" r st = [] /\
  exists st',
    main st = (Normal tt, st') /\
    el_value <$> deref r (blur r (input_text r "2500000" st')) = Some "2,500,000" /\
    el_value <$> deref r (focus r st') = Some "300000".
Proof.
  intros st r.
  assert (steps_tagged st = true) as Htag by reflexivity.
  assert (1 <= totalSteps st) as Htot by (by vm_compute).
  assert (exists e, deref r st = Some e /\ "input-currency" ∈ el_classList e /\
                    el_value e = "300,000") as (e & He & Hc & Hv).
  { eexists. split; [reflexivity|]. split; [repeat constructor | reflexivity]. }
  assert (listeners_for "blur" r st = []) as Hblur by reflexivity.
  assert (listeners_for "focus" r st = []) as Hfocus by reflexivity.
  split; [exact Htag|]. split; [exact Htot|]. split; [exact Hblur|].
  split; [exact Hfocus|].
  destruct (main_binds_currency_fields st r e "2500000" Htag Htot He Hc Hblur Hfocus)
    as (st' & Hrun & _ & _ & Hb & Hf & _).
  exists st'. split; [exact Hrun|]. split.
  - rewrite Hb. reflexivity.
  - rewrite Hf, Hv. reflexivity.
Defined.

(** ** Coming back to step 4 *)

Lemma showStep_state st n :
  steps_tagged st = true -> static_ids_clear st = true -> 1 <= n <= totalSteps st ->
  exists st',
    showStep n st = (Normal tt, st') /\
    currentStep (wizard st') = n /\
    steps_tagged st' = true /\ totalSteps st' = totalSteps st /\
    forms st' = (if n =? 4 then forms (rendered st) else forms st).
Proof.
  intros Htag Hclear Hn. destruct (steps_tagged_find st n Htag Hn) as (k & p & Hfind).
  destruct (showStep n st) as [rc st'] eqn:Hrun.
  destruct (steps_tagged_showStep st n st' rc Hrun) as [Htot Htag'].
  rewrite (showStep_steps n st k p Hfind) in Hrun. cbn zeta in Hrun.
  destruct (n =? 4).
  - rewrite renderChildren_exact in Hrun by exact Hclear. injection Hrun as <- <-.
    exists (rendered {| wizard := shown n k (wizard st); forms := forms st |}).
    split_and!; [done..|congruence|done|]. by destruct st.
  - injection Hrun as <- <-. eexists. split_and!; [done..|congruence|done|done].
Qed.

Lemma revisit_forms st :
  steps_tagged st = true -> static_ids_clear st = true ->
  currentStep (wizard st) = 4 -> 4 < totalSteps st ->
  currentStep (wizard (click Previous (click Next st))) = 4 /\
  forms (click Previous (click Next st)) = forms (rendered st) /\
  currentStep (wizard (click Next (click Previous st))) = 4 /\
  forms (click Next (click Previous st)) = forms (rendered st).
Proof.
  intros Htag Hclear Hcur Htot.
  destruct (showStep_state st 5 Htag Hclear ltac:(lia)) as (s5 & Hrun5 & Hc5 & Ht5 & Hn5 & Hf5).
  destruct (showStep_state st 3 Htag Hclear ltac:(lia)) as (s3 & Hrun3 & Hc3 & Ht3 & Hn3 & Hf3).
  cbn in Hf5, Hf3.
  assert (static_ids_clear s5 = true) as Hclear5.
  { unfold static_ids_clear. rewrite Hf5. exact Hclear. }
  assert (static_ids_clear s3 = true) as Hclear3.
  { unfold static_ids_clear. rewrite Hf3. exact Hclear. }
  destruct (showStep_state s5 4 Ht5 Hclear5 ltac:(lia)) as (s54 & Hrun54 & Hc54 & _ & _ & Hf54).
  destruct (showStep_state s3 4 Ht3 Hclear3 ltac:(lia)) as (s34 & Hrun34 & Hc34 & _ & _ & Hf34).
  cbn in Hf54, Hf34.
  assert (forall s, forms s = forms st -> forms (rendered s) = forms (rendered st)) as Hsame.
  { intros [w f] Hf. cbn in Hf. subst f. by destruct st. }
  assert (click Next st = s5) as ->.
  { rewrite click_Next_unfold, Hcur. rewrite (proj2 (Z.ltb_lt 4 _) Htot).
    change (4 + 1) with 5. by rewrite Hrun5. }
  assert (click Previous st = s3) as ->.
  { rewrite click_Previous_unfold, Hcur. change (1 <? 4) with true. cbn iota.
    change (4 - 1) with 3. by rewrite Hrun3. }
  assert (click Previous s5 = s54) as ->.
  { rewrite click_Previous_unfold, Hc5. change (1 <? 5) with true. cbn iota.
    change (5 - 1) with 4. by rewrite Hrun54. }
  assert (click Next s3 = s34) as ->.
  { rewrite click_Next_unfold, Hc3, Hn3. rewrite (proj2 (Z.ltb_lt 3 _)) by lia.
    change (3 + 1) with 4. by rewrite Hrun34. }
  split_and!; [done| |done|].
  - rewrite Hf54. by apply Hsame.
  - rewrite Hf34. by apply Hsame.
Qed.

(** X24.  Leaving step 4 and coming back renders the child forms anew.
    On a page whose panels are tagged and whose static ids are clear of
    the scheme, from step 4 a click on next followed by a click on
    previous, or the other way round, ends on step 4 with the forms
    that [renderChildren] leaves; what was written to an element of a
    child form before is lost. *)
Theorem step4_revisit_resets (st : State) (g b k : nat) (f : Element -> Element) :
  steps_tagged st = true -> static_ids_clear st = true ->
  currentStep (wizard st) = 4 -> 4 < totalSteps st ->
  let fresh := forms (run_handler renderChildren st) in
  let edited := update (Child g b k) f st in
  currentStep (wizard (click Previous (click Next st))) = 4 /\
  forms (click Previous (click Next st)) = fresh /\
  currentStep (wizard (click Next (click Previous st))) = 4 /\
  forms (click Next (click Previous st)) = fresh /\
  forms (click Previous (click Next edited)) = fresh /\
  forms (click Next (click Previous edited)) = fresh.
Proof.
  intros Htag Hclear Hcur Htot fresh edited.
  assert (fresh = forms (rendered st)) as ->.
  { unfold fresh, run_handler. by rewrite renderChildren_exact. }
  destruct (revisit_forms st Htag Hclear Hcur Htot) as (H1 & H2 & H3 & H4).
  split_and!; [done..| |].
  - destruct (update_child_with_children g b k f st) as [bs Hupd].
    unfold edited. rewrite Hupd.
    destruct (revisit_forms (with_children bs st)) as (_ & -> & _); [by destruct st..|].
    by rewrite rendered_with_children.
  - destruct (update_child_with_children g b k f st) as [bs Hupd].
    unfold edited. rewrite Hupd.
    destruct (revisit_forms (with_children bs st)) as (_ & _ & _ & ->); [by destruct st..|].
    by rewrite rendered_with_children.
Qed.

Lemma step4_revisit_resets_witness :
  let st := clicks [Next; Next; Next] sample_page in
  let expenses := Child 1 0 8 in
  steps_tagged st = true /\ static_ids_clear st = true /\
  currentStep (wizard st) = 4 /\ 4 < totalSteps st /\
  el_value <$> deref expenses (input_text expenses "1" st) = Some "1" /\
  forms (click Previous (click Next (input_text expenses "1" st)))
    = forms (run_handler renderChildren st).
Proof.
  intros st expenses.
  assert (steps_tagged st = true) as Htag by reflexivity.
  assert (static_ids_clear st = true) as Hclear by reflexivity.
  assert (currentStep (wizard st) = 4) as Hcur by reflexivity.
  assert (4 < totalSteps st) as Htot by (by vm_compute).
  split; [exact Htag|]. split; [exact Hclear|]. split; [exact Hcur|]. split; [exact Htot|].
  split; [reflexivity|].
  destruct (step4_revisit_resets st 1 0 8 (set_el_value "1") Htag Hclear Hcur Htot)
    as (_ & _ & _ & _ & Hedit & _).
  exact Hedit.
Defined.
